(** * DeviceBridge synthetic telemetry simulator: model and verification

    A shallow embedding of [modules/device_simulator.py] and
    [modules/data_sink.py], and of the data callback of
    [modules/simulation_runner.py] that connects the two.

    Conventions of the embedding.
    - Python [float] quantities are rationals ([Q]); Python [int] quantities
      are [Z].  What is stated of a float quantity is what rounding to
      binary64 keeps: the bounds that [max]/[min] enforce, comparisons
      against thresholds, and the direction of a step (rounding is
      monotone).  Nothing is stated on the size of a float step.
    - The module-global random generator is an oracle: a state update takes
      the values returned by the [random.*] calls it may perform as a record
      of draws, one field per call site.  A draw that the taken path does not
      perform is simply not read.
    - [print] is a list of log events, one constructor per [print] call site.
    - An exception is a value of [exn]; a function that may raise returns a
      [result]. *)

From Stdlib Require Import List String ZArith QArith Qround Bool Lia Lqa.
Import ListNotations.

Local Open Scope string_scope.
Local Open Scope list_scope.
Set Warnings "-register-all".

(** ** Python values *)

Module Py.

(** JSON-like values carried by telemetry records. *)
Inductive value : Type :=
| VNone
| VBool (b : bool)
| VInt (z : Z)
| VFloat (q : Q)
| VStr (s : string)
| VList (l : list value)
| VDict (d : list (string * value)).

(** A [dict] with string keys, in insertion order. *)
Definition dict := list (string * value).

Inductive exn : Type :=
| KeyError (key : string)
| AttributeError (attr : string)
| NotImplementedError
| RuntimeError (msg : string)
| TypeError (msg : string)
| InterfaceError (msg : string).

Inductive result (A : Type) : Type :=
| Ok (a : A)
| Raise (e : exn).
Arguments Ok {A} a.
Arguments Raise {A} e.

(** [d.get(k)] *)
Fixpoint get (d : dict) (k : string) : option value :=
  match d with
  | [] => None
  | (k', v) :: d' => if String.eqb k' k then Some v else get d' k
  end.

(** [d.get(k, default)] *)
Definition get_default (d : dict) (k : string) (default : value) : value :=
  match get d k with
  | Some v => v
  | None => default
  end.

(** [d[k]] *)
Definition getitem (d : dict) (k : string) : result value :=
  match get d k with
  | Some v => Ok v
  | None => Raise (KeyError k)
  end.

(** [v.get(k, default)] on an arbitrary value: only a [dict] has [get]. *)
Definition value_get (v : value) (k : string) (default : value)
  : result value :=
  match v with
  | VDict d => Ok (get_default d k default)
  | _ => Raise (AttributeError "get")
  end.

(** [v[k]] on an arbitrary value, [k] a string. *)
Definition value_getitem (v : value) (k : string) : result value :=
  match v with
  | VDict d => getitem d k
  | _ => Raise (TypeError "subscript")
  end.

(** [d[k] = v]: replaces in place when the key exists, appends otherwise. *)
Fixpoint setitem (d : dict) (k : string) (v : value) : dict :=
  match d with
  | [] => [(k, v)]
  | (k', v') :: d' =>
      if String.eqb k' k then (k', v) :: d' else (k', v') :: setitem d' k v
  end.

(** [dict(items)] *)
Definition dict_of_items (items : list (string * value)) : dict :=
  fold_left (fun d kv => setitem d (fst kv) (snd kv)) items [].

(** [max(a, b)] and [min(a, b)] on numbers: the first argument is returned
    unless the second is strictly larger (resp. smaller). *)
Definition Qltb (a b : Q) : bool := negb (Qle_bool b a).
Definition max (a b : Q) : Q := if Qltb a b then b else a.
Definition min (a b : Q) : Q := if Qltb b a then b else a.

(** A value that is neither a [dict] nor a [list]. *)
Definition scalar (v : value) : bool :=
  match v with
  | VList _ | VDict _ => false
  | _ => true
  end.

(** Induction on values, through the lists and dicts they hold. *)
Fixpoint value_ind' (P : value -> Prop)
  (HNone : P VNone) (HBool : forall b, P (VBool b))
  (HInt : forall z, P (VInt z)) (HFloat : forall q, P (VFloat q))
  (HStr : forall s, P (VStr s))
  (HList : forall l, Forall P l -> P (VList l))
  (HDict : forall d, Forall (fun kv => P (snd kv)) d -> P (VDict d))
  (v : value) {struct v} : P v :=
  match v with
  | VNone => HNone
  | VBool b => HBool b
  | VInt z => HInt z
  | VFloat q => HFloat q
  | VStr s => HStr s
  | VList l =>
      HList l
        ((fix go (l : list value) : Forall P l :=
            match l with
            | [] => Forall_nil P
            | x :: t =>
                Forall_cons x
                  (value_ind' P HNone HBool HInt HFloat HStr HList HDict x)
                  (go t)
            end) l)
  | VDict d =>
      HDict d
        ((fix go (d : list (string * value))
            : Forall (fun kv => P (snd kv)) d :=
            match d with
            | [] => Forall_nil _
            | kv :: t =>
                Forall_cons kv
                  (value_ind' P HNone HBool HInt HFloat HStr HList HDict
                     (snd kv))
                  (go t)
            end) d)
  end.

(** [round(x, ndigits)] on a float: the multiple of 10^-ndigits nearest to
    [x], a tie going to the even one. *)
Definition round_half_even (q : Q) : Z :=
  let fl := Qfloor q in
  let frac := (q - inject_Z fl)%Q in
  if Qltb frac (1 # 2) then fl
  else if Qltb (1 # 2) frac then (fl + 1)%Z
  else if Z.even fl then fl else (fl + 1)%Z.

Definition round (x : Q) (ndigits : nat) : Q :=
  let scale := inject_Z (10 ^ Z.of_nat ndigits) in
  (inject_Z (round_half_even (x * scale)) / scale)%Q.

(** [{**a, **b}] *)
Definition merge (a b : dict) : dict :=
  fold_left (fun d kv => setitem d (fst kv) (snd kv)) b a.

End Py.

(** ** modules/device_simulator.py *)

Module DeviceSimulator.
Import Py.

Record DeviceConfig := {
  device_id : string;
  device_type : string;
  location : string;
  update_interval : Q;
  cfg_enabled : bool
}.

(** A [threading.Thread] that has been started: its identity and whether
    its target is still executing. *)
Record Thread := {
  ident : nat;
  alive : bool
}.

Inductive log : Type :=
| LogCallbackError (e : exn)
| LogStarted (device_type device_id : string)
| LogStopped (device_type device_id : string).

Section Base.
(** State reachable by the subscribers. *)
Context {W : Type}.

(** A subscriber: called with a record, it acts on its own state and
    either returns or raises. *)
Definition callback := dict -> W -> W * option exn.

Record BaseDeviceSimulator := {
  config : DeviceConfig;
  running : bool;
  thread : option Thread;
  data_history : list dict;
  callbacks : list callback
}.

Definition __init__ (cfg : DeviceConfig) : BaseDeviceSimulator :=
  {| config := cfg; running := false; thread := None;
     data_history := []; callbacks := [] |}.

Definition add_callback (self : BaseDeviceSimulator) (cb : callback)
  : BaseDeviceSimulator :=
  {| config := config self; running := running self;
     thread := thread self; data_history := data_history self;
     callbacks := callbacks self ++ [cb] |}.

(** [list.pop(0)] on a non-empty list. *)
Definition pop0 {A} (l : list A) : list A := tl l.

(** The [for callback in self.callbacks] loop of [send_data]. *)
Fixpoint notify (cbs : list callback) (data : dict) (w : W)
  : W * list log :=
  match cbs with
  | [] => (w, [])
  | cb :: rest =>
      let '(w1, r) := cb data w in
      let out := match r with
                 | None => []
                 | Some e => [LogCallbackError e]
                 end in
      let '(w2, out') := notify rest data w1 in
      (w2, out ++ out')
  end.

Definition send_data (self : BaseDeviceSimulator) (data : dict) (w : W)
  : BaseDeviceSimulator * W * list log :=
  let h := data_history self ++ [data] in
  let h := if (100 <? List.length h)%nat then pop0 h else h in
  let '(w', out) := notify (callbacks self) data w in
  ({| config := config self; running := running self;
      thread := thread self; data_history := h;
      callbacks := callbacks self |}, w', out).

(** [start]: besides the updated object and the printed line, the list
    of threads that the call has started.  [fresh] is the identity that
    a newly created thread gets. *)
Definition start (fresh : nat) (self : BaseDeviceSimulator)
  : BaseDeviceSimulator * list Thread * list log :=
  if running self then (self, [], [])
  else
    let t := {| ident := fresh; alive := true |} in
    ({| config := config self; running := true;
        thread := Some t; data_history := data_history self;
        callbacks := callbacks self |},
     [t],
     [LogStarted (device_type (config self)) (device_id (config self))]).

(** [Thread.join()], called from the thread [current].  A thread that
    has finished is joined at once; joining the calling thread itself
    raises; otherwise the call returns when the target, whose loop
    tests [self.running], has finished. *)
Definition join (current : nat) (t : Thread) : result Thread :=
  if alive t then
    if Nat.eqb (ident t) current
    then Raise (RuntimeError "cannot join current thread")
    else Ok {| ident := ident t; alive := false |}
  else Ok t.

(** [stop], called from the thread [current]: the runner and the printed
    lines afterwards, and whether the call returned or raised. *)
Definition stop (current : nat) (self : BaseDeviceSimulator)
  : BaseDeviceSimulator * list log * result unit :=
  let self1 := {| config := config self; running := false;
                  thread := thread self;
                  data_history := data_history self;
                  callbacks := callbacks self |} in
  let stopped_line :=
    LogStopped (device_type (config self)) (device_id (config self)) in
  match thread self1 with
  | Some t =>
      match join current t with
      | Ok t' =>
          ({| config := config self1; running := running self1;
              thread := Some t';
              data_history := data_history self1;
              callbacks := callbacks self1 |}, [stopped_line], Ok tt)
      | Raise e => (self1, [], Raise e)
      end
  | None => (self1, [stopped_line], Ok tt)
  end.

(** The runner is stopped: the flag is down, and its thread, if it
    ever had one, has finished. *)
Definition stopped (self : BaseDeviceSimulator) : Prop :=
  running self = false /\
  (thread self = None \/
   exists t, thread self = Some t /\ alive t = false).

(** The history after a run of records has gone through [send_data]. *)
Fixpoint send_all (self : BaseDeviceSimulator) (rs : list dict) (w : W)
  : BaseDeviceSimulator * W * list log :=
  match rs with
  | [] => (self, w, [])
  | r :: rs' =>
      let '(self1, w1, out1) := send_data self r w in
      let '(self2, w2, out2) := send_all self1 rs' w1 in
      (self2, w2, out1 ++ out2)
  end.

(** A runner as the registry builds it: constructed, then given its
    subscribers. *)
Definition with_callbacks (cfg : DeviceConfig) (cbs : list callback)
  : BaseDeviceSimulator :=
  fold_left add_callback cbs (__init__ cfg).

End Base.
Arguments BaseDeviceSimulator W : clear implicits.
Arguments callback W : clear implicits.

(** The successive (before, after) pairs of a state machine driven by a
    list of per-tick draws. *)
Fixpoint ticks {S D : Type} (step : S -> D -> S) (s : S) (ds : list D)
  : list (S * S) :=
  match ds with
  | [] => []
  | d :: ds' => let s' := step s d in (s, s') :: ticks step s' ds'
  end.

(** [generate_base_data]; [now] is [datetime.now().isoformat()] and [uuid]
    is [str(uuid.uuid4())]. *)
Definition generate_base_data (cfg : DeviceConfig) (now uuid : string)
  : dict :=
  [ ("device_id", VStr (device_id cfg));
    ("device_type", VStr (device_type cfg));
    ("location", VStr (location cfg));
    ("timestamp", VStr now);
    ("session_id", VStr (substring 0 8 uuid)) ].

Module InfusionPumpSimulator.

Record state := {
  flow_rate : Q;
  pressure : Q;
  battery_level : Q;
  volume_infused : Q;
  status : string;
  alarms : list string
}.

Definition init : state :=
  {| flow_rate := 5.0; pressure := 25.0; battery_level := 100.0;
     volume_infused := 0.0; status := "running"; alarms := [] |}.

(** The three [random.uniform] calls of [_update_pump_state]. *)
Record draws := {
  u_flow : Q;      (* uniform(-0.2, 0.2) *)
  u_pressure : Q;  (* uniform(-2, 2) *)
  u_battery : Q    (* uniform(0.01, 0.05) *)
}.

Definition draws_ok (d : draws) : Prop :=
  (-0.2 <= u_flow d <= 0.2 /\
   -2 <= u_pressure d <= 2 /\
   0.01 <= u_battery d <= 0.05)%Q.

Definition _update_pump_state (cfg : DeviceConfig) (self : state)
  (d : draws) : state :=
  let flow_rate := (flow_rate self + u_flow d)%Q in
  let flow_rate := max 0 (min 10 flow_rate) in
  let pressure := (pressure self + u_pressure d)%Q in
  let pressure := max 10 (min 50 pressure) in
  let battery_level := (battery_level self - u_battery d)%Q in
  let battery_level := max 0 battery_level in
  let volume_infused :=
    (volume_infused self + flow_rate * (update_interval cfg / 3600))%Q in
  let alarms := [] in
  let alarms := if Qltb battery_level 20
                then alarms ++ ["LOW_BATTERY"] else alarms in
  let alarms := if Qltb 45 pressure
                then alarms ++ ["HIGH_PRESSURE"] else alarms in
  let alarms := if Qltb 450 volume_infused
                then alarms ++ ["LOW_VOLUME"] else alarms in
  {| flow_rate := flow_rate; pressure := pressure;
     battery_level := battery_level; volume_infused := volume_infused;
     status := status self; alarms := alarms |}.

Definition in_range (s : state) : Prop :=
  (0 <= flow_rate s <= 10 /\
   10 <= pressure s <= 50 /\
   0 <= battery_level s <= 100)%Q.

(** The [random] calls of [generate_device_data] itself. *)
Record emit_draws := {
  u_temperature : Q;  (* uniform(20, 25) *)
  i_pump_cycles : Z   (* randint(1000, 5000) *)
}.

Definition emit_draws_ok (e : emit_draws) : Prop :=
  (20 <= u_temperature e <= 25)%Q /\ (1000 <= i_pump_cycles e <= 5000)%Z.

(** [generate_device_data]: the state after the update, and the record.
    Numbers that are [int] or [float] at run time (a clamped level is the
    [int] bound) are carried as [VFloat]. *)
Definition generate_device_data (cfg : DeviceConfig) (self : state)
  (d : draws) (now uuid : string) (e : emit_draws) : state * dict :=
  let self := _update_pump_state cfg self d in
  let base_data := generate_base_data cfg now uuid in
  let pump_data :=
    [ ("flow_rate", VFloat (round (flow_rate self) 2));
      ("target_flow_rate", VFloat 5.0);
      ("pressure", VFloat (round (pressure self) 1));
      ("battery_level", VFloat (round (battery_level self) 1));
      ("volume_infused", VFloat (round (volume_infused self) 2));
      ("volume_remaining",
       VFloat (round (500 - volume_infused self) 2));
      ("status", VStr (status self));
      ("alarms", VList (map VStr (alarms self)));
      ("temperature", VFloat (round (u_temperature e) 1));
      ("pump_cycles", VInt (i_pump_cycles e)) ] in
  (self, merge base_data pump_data).

End InfusionPumpSimulator.

Module PatientBedSimulator.

Record state := {
  weight : Q;
  position_angle : Q;
  occupancy : bool;
  movement_level : Z;
  bed_exit_risk : string
}.

Definition init : state :=
  {| weight := 75.0; position_angle := 30.0; occupancy := true;
     movement_level := 2; bed_exit_risk := "low" |}.

(** The [random] calls of [_update_bed_state], in source order. *)
Record draws := {
  u_weight : Q;     (* uniform(-0.5, 0.5) *)
  u_angle : Q;      (* uniform(-5, 5) *)
  i_movement : Z;   (* randint(0, 5) *)
  r_risk : Q;       (* random(), read when movement_level > 3 *)
  r_occupied : Q;   (* random(), unoccupied branch *)
  u_new_weight : Q  (* uniform(60, 120), read on the transition *)
}.

Definition draws_ok (d : draws) : Prop :=
  (-0.5 <= u_weight d <= 0.5 /\
   -5 <= u_angle d <= 5 /\
   0 <= r_risk d < 1 /\
   0 <= r_occupied d < 1 /\
   60 <= u_new_weight d <= 120)%Q /\
  (0 <= i_movement d <= 5)%Z.

Definition _update_bed_state (self : state) (d : draws) : state :=
  if occupancy self then
    let weight := (weight self + u_weight d)%Q in
    let weight := max 50 (min 150 weight) in
    let position_angle := (position_angle self + u_angle d)%Q in
    let position_angle := max 0 (min 70 position_angle) in
    let movement_level := i_movement d in
    let bed_exit_risk :=
      if (3 <? movement_level)%Z && Qltb (r_risk d) 0.3 then "high"
      else if (1 <? movement_level)%Z then "medium"
      else "low" in
    {| weight := weight; position_angle := position_angle;
       occupancy := occupancy self; movement_level := movement_level;
       bed_exit_risk := bed_exit_risk |}
  else
    if Qltb (r_occupied d) 0.05 then
      {| weight := u_new_weight d;
         position_angle := position_angle self;
         occupancy := true; movement_level := movement_level self;
         bed_exit_risk := bed_exit_risk self |}
    else self.

Definition in_range (s : state) : Prop :=
  (50 <= weight s <= 150 /\ 0 <= position_angle s <= 70)%Q.

(** The [random] calls of [generate_device_data] itself, in source
    order. *)
Record emit_draws := {
  c_rails_up : bool;      (* choice([True, False]) *)
  r_call_light : Q;       (* random() *)
  c_call_light : bool;    (* choice([True, False]), read when r < 0.1 *)
  u_room_temperature : Q; (* uniform(20, 24) *)
  u_humidity : Q          (* uniform(40, 60) *)
}.

Definition emit_draws_ok (e : emit_draws) : Prop :=
  (0 <= r_call_light e < 1 /\
   20 <= u_room_temperature e <= 24 /\
   40 <= u_humidity e <= 60)%Q.

Definition generate_device_data (cfg : DeviceConfig) (self : state)
  (d : draws) (now uuid : string) (e : emit_draws) : state * dict :=
  let self := _update_bed_state self d in
  let base_data := generate_base_data cfg now uuid in
  let bed_data :=
    [ ("weight", VFloat (round (weight self) 1));
      ("position_angle", VFloat (round (position_angle self) 1));
      ("occupancy", VBool (occupancy self));
      ("movement_level", VInt (movement_level self));
      ("bed_exit_risk", VStr (bed_exit_risk self));
      ("rails_up", VBool (c_rails_up e));
      ("call_light",
       VBool (if Qltb (r_call_light e) 0.1 then c_call_light e else false));
      ("room_temperature", VFloat (round (u_room_temperature e) 1));
      ("humidity", VFloat (round (u_humidity e) 1)) ] in
  (self, merge base_data bed_data).

End PatientBedSimulator.

Module VitalSignsSimulator.

Record state := {
  heart_rate : Z;
  blood_pressure_sys : Z;
  blood_pressure_dia : Z;
  oxygen_saturation : Q;
  respiratory_rate : Z;
  temperature : Q
}.

Definition init : state :=
  {| heart_rate := 75; blood_pressure_sys := 120;
     blood_pressure_dia := 80; oxygen_saturation := 98;
     respiratory_rate := 16; temperature := 36.5 |}.

(** The [random] calls of [_update_vitals], in source order. *)
Record draws := {
  i_heart : Z;   (* randint(-3, 3) *)
  i_sys : Z;     (* randint(-5, 5) *)
  i_dia : Z;     (* randint(-3, 3) *)
  u_oxygen : Q;  (* uniform(-1, 1) *)
  i_resp : Z;    (* randint(-1, 1) *)
  u_temp : Q     (* uniform(-0.2, 0.2) *)
}.

Definition draws_ok (d : draws) : Prop :=
  (-3 <= i_heart d <= 3 /\ -5 <= i_sys d <= 5 /\ -3 <= i_dia d <= 3 /\
   -1 <= i_resp d <= 1)%Z /\
  (-1 <= u_oxygen d <= 1 /\ -0.2 <= u_temp d <= 0.2)%Q.

Definition _update_vitals (self : state) (d : draws) : state :=
  let heart_rate := (heart_rate self + i_heart d)%Z in
  let heart_rate := Z.max 45 (Z.min 150 heart_rate) in
  let blood_pressure_sys := (blood_pressure_sys self + i_sys d)%Z in
  let blood_pressure_sys := Z.max 90 (Z.min 180 blood_pressure_sys) in
  let blood_pressure_dia := (blood_pressure_dia self + i_dia d)%Z in
  let blood_pressure_dia := Z.max 50 (Z.min 110 blood_pressure_dia) in
  let oxygen_saturation := (oxygen_saturation self + u_oxygen d)%Q in
  let oxygen_saturation := max 85 (min 100 oxygen_saturation) in
  let respiratory_rate := (respiratory_rate self + i_resp d)%Z in
  let respiratory_rate := Z.max 8 (Z.min 30 respiratory_rate) in
  let temperature := (temperature self + u_temp d)%Q in
  let temperature := max 35 (min 40 temperature) in
  {| heart_rate := heart_rate;
     blood_pressure_sys := blood_pressure_sys;
     blood_pressure_dia := blood_pressure_dia;
     oxygen_saturation := oxygen_saturation;
     respiratory_rate := respiratory_rate;
     temperature := temperature |}.

Definition _generate_alerts (self : state) : list string :=
  let alerts := [] in
  let alerts :=
    if (100 <? heart_rate self)%Z then alerts ++ ["TACHYCARDIA"]
    else if (heart_rate self <? 60)%Z then alerts ++ ["BRADYCARDIA"]
    else alerts in
  let alerts :=
    if (140 <? blood_pressure_sys self)%Z then alerts ++ ["HYPERTENSION"]
    else if (blood_pressure_sys self <? 100)%Z
         then alerts ++ ["HYPOTENSION"]
    else alerts in
  let alerts := if Qltb (oxygen_saturation self) 90
                then alerts ++ ["LOW_OXYGEN"] else alerts in
  let alerts := if Qltb 38 (temperature self)
                then alerts ++ ["FEVER"] else alerts in
  alerts.

Definition in_range (s : state) : Prop :=
  (45 <= heart_rate s <= 150 /\
   90 <= blood_pressure_sys s <= 180 /\
   50 <= blood_pressure_dia s <= 110 /\
   8 <= respiratory_rate s <= 30)%Z /\
  (85 <= oxygen_saturation s <= 100 /\
   35 <= temperature s <= 40)%Q.

(** The [random.choice] of [generate_device_data]: the index drawn in
    the list of rhythms. *)
Record emit_draws := {
  c_ecg_rhythm : nat
}.

Definition emit_draws_ok (e : emit_draws) : Prop :=
  (c_ecg_rhythm e < 3)%nat.

Definition generate_device_data (cfg : DeviceConfig) (self : state)
  (d : draws) (now uuid : string) (e : emit_draws) : state * dict :=
  let self := _update_vitals self d in
  let base_data := generate_base_data cfg now uuid in
  let vitals_data :=
    [ ("heart_rate", VInt (heart_rate self));
      ("blood_pressure",
       VDict [ ("systolic", VInt (blood_pressure_sys self));
               ("diastolic", VInt (blood_pressure_dia self)) ]);
      ("oxygen_saturation", VFloat (round (oxygen_saturation self) 1));
      ("respiratory_rate", VInt (respiratory_rate self));
      ("temperature", VFloat (round (temperature self) 1));
      ("ecg_rhythm",
       VStr (nth (c_ecg_rhythm e)
               ["normal"; "irregular"; "atrial_fib"] "normal"));
      ("alerts", VList (map VStr (_generate_alerts self))) ] in
  (self, merge base_data vitals_data).

End VitalSignsSimulator.

(** *** Simulators of any of the three classes *)

(** The subclass part of a simulator object. *)
Inductive device : Type :=
| PumpDevice (s : InfusionPumpSimulator.state)
| BedDevice (s : PatientBedSimulator.state)
| VitalsDevice (s : VitalSignsSimulator.state).

(** What one turn of [_run] reads from the clock, from [uuid] and from
    [random]; only the draws of the simulator's own class are read. *)
Record tick_inputs := {
  now : string;
  uuid : string;
  pump_draws : InfusionPumpSimulator.draws;
  pump_emit : InfusionPumpSimulator.emit_draws;
  bed_draws : PatientBedSimulator.draws;
  bed_emit : PatientBedSimulator.emit_draws;
  vitals_draws : VitalSignsSimulator.draws;
  vitals_emit : VitalSignsSimulator.emit_draws
}.

(** [generate_device_data], dispatched on the class. *)
Definition device_generate (cfg : DeviceConfig) (dev : device)
  (i : tick_inputs) : device * dict :=
  match dev with
  | PumpDevice s =>
      let '(s', data) :=
        InfusionPumpSimulator.generate_device_data cfg s (pump_draws i)
          (now i) (uuid i) (pump_emit i) in
      (PumpDevice s', data)
  | BedDevice s =>
      let '(s', data) :=
        PatientBedSimulator.generate_device_data cfg s (bed_draws i)
          (now i) (uuid i) (bed_emit i) in
      (BedDevice s', data)
  | VitalsDevice s =>
      let '(s', data) :=
        VitalSignsSimulator.generate_device_data cfg s (vitals_draws i)
          (now i) (uuid i) (vitals_emit i) in
      (VitalsDevice s', data)
  end.


(** The line printed by [start_all] and by [stop_all], and the lines of
    the simulators. *)
Inductive manager_log : Type :=
| FromSimulator (l : log)
| LogStartedAll (n : nat)
| LogStoppedAll.



Section Manager.
Context {W : Type}.

Record Simulator := {
  base : BaseDeviceSimulator W;
  dev : device
}.

Definition with_base (sim : Simulator) (b : BaseDeviceSimulator W)
  : Simulator := {| base := b; dev := dev sim |}.

(** One turn of the [while self.running] loop of [_run], up to its
    [time.sleep]. *)
Definition _run_turn (sim : Simulator) (i : tick_inputs) (w : W)
  : Simulator * W * list log :=
  if cfg_enabled (config (base sim)) then
    let '(dev', data) := device_generate (config (base sim)) (dev sim) i in
    let '(b, w', out) := send_data (base sim) data w in
    ({| base := b; dev := dev' |}, w', out)
  else (sim, w, []).


(** [DeviceSimulatorManager]: [simulators] is the dict from device id to
    simulator, in insertion order. *)
Record DeviceSimulatorManager := {
  simulators : list (string * Simulator);
  data_callbacks : list (callback W)
}.

Definition manager_init : DeviceSimulatorManager :=
  {| simulators := []; data_callbacks := [] |}.

(** [d.get(k)] and [d[k] = v] on the dict of simulators. *)
Fixpoint lookup (d : list (string * Simulator)) (k : string)
  : option Simulator :=
  match d with
  | [] => None
  | (k', v) :: d' => if String.eqb k' k then Some v else lookup d' k
  end.

Fixpoint store (d : list (string * Simulator)) (k : string)
  (v : Simulator) : list (string * Simulator) :=
  match d with
  | [] => [(k, v)]
  | (k', v') :: d' =>
      if String.eqb k' k then (k', v) :: d' else (k', v') :: store d' k v
  end.

(** The constructor that [add_simulator] picks for [device_type]; [None]
    stands for the branch that raises [ValueError]. *)
Definition new_device (device_type : string) : option device :=
  if String.eqb device_type "infusion_pump"
  then Some (PumpDevice InfusionPumpSimulator.init)
  else if String.eqb device_type "patient_bed"
  then Some (BedDevice PatientBedSimulator.init)
  else if String.eqb device_type "vital_signs"
  then Some (VitalsDevice VitalSignsSimulator.init)
  else None.

Inductive added : Type :=
| Added (m : DeviceSimulatorManager) (simulator : Simulator)
| UnknownDeviceType (device_type : string).

Definition add_simulator (m : DeviceSimulatorManager)
  (device_type : string) (cfg : DeviceConfig) : added :=
  match new_device device_type with
  | None => UnknownDeviceType device_type
  | Some d =>
      let simulator := {| base := __init__ cfg; dev := d |} in
      let simulator :=
        fold_left (fun sim cb => with_base sim (add_callback (base sim) cb))
          (data_callbacks m) simulator in
      Added {| simulators := store (simulators m) (device_id cfg) simulator;
               data_callbacks := data_callbacks m |}
            simulator
  end.

Definition add_data_callback (m : DeviceSimulatorManager)
  (cb : callback W) : DeviceSimulatorManager :=
  {| simulators :=
       map (fun kv =>
              (fst kv, with_base (snd kv) (add_callback (base (snd kv)) cb)))
           (simulators m);
     data_callbacks := data_callbacks m ++ [cb] |}.

(** The [for simulator in self.simulators.values(): simulator.start()]
    loop; [fresh] numbers the threads it starts. *)
Fixpoint start_each (fresh : nat) (d : list (string * Simulator))
  : list (string * Simulator) * list Thread * list log :=
  match d with
  | [] => ([], [], [])
  | (k, sim) :: rest =>
      let '(b, ts, out) := start fresh (base sim) in
      let '(rest', ts', out') :=
        start_each (fresh + List.length ts) rest in
      ((k, with_base sim b) :: rest', ts ++ ts', out ++ out')
  end.

Definition start_all (fresh : nat) (m : DeviceSimulatorManager)
  : DeviceSimulatorManager * list Thread * list manager_log :=
  let '(d, ts, out) := start_each fresh (simulators m) in
  ({| simulators := d; data_callbacks := data_callbacks m |}, ts,
   map FromSimulator out ++ [LogStartedAll (List.length (simulators m))]).

(** The loop of [stop_all], called from the thread [current]: an
    exception of a [stop] ends it. *)
Fixpoint stop_each (current : nat) (d : list (string * Simulator))
  : list (string * Simulator) * list log * result unit :=
  match d with
  | [] => ([], [], Ok tt)
  | (k, sim) :: rest =>
      match stop current (base sim) with
      | (b, out, Ok _) =>
          let '(rest', out', r) := stop_each current rest in
          ((k, with_base sim b) :: rest', out ++ out', r)
      | (b, out, Raise e) =>
          ((k, with_base sim b) :: rest, out, Raise e)
      end
  end.

Definition stop_all (current : nat) (m : DeviceSimulatorManager)
  : DeviceSimulatorManager * list manager_log * result unit :=
  match stop_each current (simulators m) with
  | (d, out, Ok _) =>
      ({| simulators := d; data_callbacks := data_callbacks m |},
       map FromSimulator out ++ [LogStoppedAll], Ok tt)
  | (d, out, Raise e) =>
      ({| simulators := d; data_callbacks := data_callbacks m |},
       map FromSimulator out, Raise e)
  end.

Definition get_simulator (m : DeviceSimulatorManager) (device_id : string)
  : option Simulator := lookup (simulators m) device_id.

(** [get_all_data]: [h[-1]] of every non-empty history. *)
Definition get_all_data (m : DeviceSimulatorManager) : list dict :=
  flat_map (fun kv =>
              match rev (data_history (base (snd kv))) with
              | [] => []
              | latest :: _ => [latest]
              end)
           (simulators m).

(** Building a manager: the two registration calls, in any order. *)
Inductive registration : Type :=
| AddSimulator (device_type : string) (cfg : DeviceConfig)
| AddDataCallback (cb : callback W).

Definition register (m : DeviceSimulatorManager) (r : registration)
  : DeviceSimulatorManager :=
  match r with
  | AddSimulator device_type cfg =>
      match add_simulator m device_type cfg with
      | Added m' _ => m'
      | UnknownDeviceType _ => m
      end
  | AddDataCallback cb => add_data_callback m cb
  end.

Definition registered (rs : list registration) : DeviceSimulatorManager :=
  fold_left register rs manager_init.

(** What [add_simulator] and [add_data_callback] keep true of a
    manager. *)
Definition well_formed (m : DeviceSimulatorManager) : Prop :=
  Forall (fun kv =>
            callbacks (base (snd kv)) = data_callbacks m /\
            fst kv = device_id (config (base (snd kv))))
         (simulators m) /\
  NoDup (map fst (simulators m)).

(** No live thread of a runner in [d] is the calling thread. *)
Definition outside (current : nat) (d : list (string * Simulator))
  : Prop :=
  Forall (fun kv =>
            forall t, thread (base (snd kv)) = Some t ->
                      alive t = true -> ident t <> current) d.

End Manager.
Arguments Simulator W : clear implicits.
Arguments DeviceSimulatorManager W : clear implicits.
Arguments registration W : clear implicits.

End DeviceSimulator.

(** ** modules/data_sink.py *)

Module DataSink.
Import Py.

(** *** The environment of the sinks *)

(** What [print] writes, one constructor per call site. *)
Inductive stdout_line : Type :=
| PrintSimple (device_type device_id timestamp : value)
| PrintDetailed (timestamp device_type device_id location : value)
| PrintPump (flow_rate pressure : value)
| PrintBed (weight position_angle : value)
| PrintVitals (heart_rate systolic diastolic : value)
| PrintJson (data : dict)
| PrintApiSent (n : nat)
| PrintApiError (status_code : Z) (text : string)
| PrintApiFailed (e : exn)
| PrintWriteError (sink_name : string) (e : exn).

(** One line of an output file. *)
Inductive file_line : Type :=
| TextLine (s : string)
| CsvHeader (fieldnames : list string)
| CsvRow (cells : list value).

(** Standard output and the file system (path to lines). *)
Record world := {
  stdout : list stdout_line;
  fs : list (string * list file_line)
}.

Fixpoint read_file (files : list (string * list file_line)) (path : string)
  : option (list file_line) :=
  match files with
  | [] => None
  | (p, c) :: rest => if String.eqb p path then Some c
                      else read_file rest path
  end.

Definition exists_ (files : list (string * list file_line))
  (path : string) : bool :=
  match read_file files path with Some _ => true | None => false end.

(** [open(path, 'a')] followed by writes of [lines], for a [path] whose
    directory exists: the file is created when absent. *)
Fixpoint append_file (files : list (string * list file_line))
  (path : string) (lines : list file_line)
  : list (string * list file_line) :=
  match files with
  | [] => [(path, lines)]
  | (p, c) :: rest =>
      if String.eqb p path then (p, c ++ lines) :: rest
      else (p, c) :: append_file rest path lines
  end.

(** A row handed to [cursor.execute] for insertion. *)
Record row := {
  table : string;
  params : list value
}.

(** The sqlite3 connection: rows made durable by [commit], and rows of
    the open transaction. *)
Record Connection := {
  committed : list row;
  pending : list row
}.

(** sqlite3 binds [None], numbers and strings only; the integers are
    those of 64 bits, as all that the simulators produce are. *)
Definition bindable (v : value) : bool :=
  match v with
  | VList _ | VDict _ => false
  | _ => true
  end.

Record request := {
  url : string;
  json : value;
  timeout : Z
}.

Record response := {
  status_code : Z;
  text : string
}.

(** The [requests.Session]: the remote end answers the n-th request of
    the session, or the transport fails; [posted] is what was sent. *)
Record Session := {
  headers : list (string * string);
  remote : nat -> request -> result response;
  posted : list request
}.

Definition post (s : Session) (rq : request) : Session * result response :=
  ({| headers := headers s; remote := remote s;
      posted := posted s ++ [rq] |},
   remote s (List.length (posted s)) rq).

(** *** The sink objects *)

Record APIFields := {
  api_url : string;
  auth_token : option string;
  batch_size : Z;
  batch_queue : list dict;
  session : Session
}.

(** The subclass part of a sink object. *)
Inductive sink_impl : Type :=
| IBase
| IConsole (format_type : string)
| IFile (output_dir : string) (format : string)
| IDatabase (conn : Connection)
| IAPI (api : APIFields).

Record DataSink := {
  name : string;
  enabled : bool;
  impl : sink_impl
}.

(** *** Statements that act on a sink object and on the world, and that
    may raise.  What was done before an exception stays done. *)

Record ctx := {
  self : DataSink;
  env : world
}.

Definition M (A : Type) : Type := ctx -> ctx * result A.

Definition ret {A} (a : A) : M A := fun c => (c, Ok a).
Definition raise {A} (e : exn) : M A := fun c => (c, Raise e).
Definition mbind {A B} (m : M A) (k : A -> M B) : M B :=
  fun c => match m c with
           | (c', Ok a) => k a c'
           | (c', Raise e) => (c', Raise e)
           end.
Definition lift {A} (r : result A) : M A := fun c => (c, r).

Local Notation "x <- m ;; k" := (mbind m (fun x => k))
  (at level 61, m at next level, right associativity).
Local Notation "m ;;; k" := (mbind m (fun _ => k))
  (at level 61, right associativity).

Definition print (l : stdout_line) : M unit :=
  fun c => ({| self := self c;
               env := {| stdout := stdout (env c) ++ [l];
                         fs := fs (env c) |} |}, Ok tt).

Definition set_impl (i : sink_impl) : M unit :=
  fun c => ({| self := {| name := name (self c);
                          enabled := enabled (self c); impl := i |};
               env := env c |}, Ok tt).

Definition file_exists (path : string) : M bool :=
  fun c => (c, Ok (exists_ (fs (env c)) path)).

Definition write_lines (path : string) (lines : list file_line) : M unit :=
  fun c => ({| self := self c;
               env := {| stdout := stdout (env c);
                         fs := append_file (fs (env c)) path lines |} |},
            Ok tt).

(** A statement leaves the name and the enabled flag of the sink as they
    were. *)
Definition keeps {A} (m : M A) : Prop :=
  forall c,
    name (self (fst (m c))) = name (self c) /\
    enabled (self (fst (m c))) = enabled (self c).

(** The context [c] with [out] for its standard output. *)
Definition with_stdout (c : ctx) (out : list stdout_line) : ctx :=
  {| self := self c;
     env := {| stdout := out; fs := fs (env c) |} |}.

(** A statement that reads nothing of standard output and only appends
    to it: run from any output [out], it does what it does from an empty
    one, with [out] in front of what it prints. *)
Definition frames {A} (m : M A) : Prop :=
  forall c out,
    m (with_stdout c out)
    = (with_stdout (fst (m (with_stdout c [])))
         (out ++ stdout (env (fst (m (with_stdout c []))))),
       snd (m (with_stdout c []))).

(** A statement that leaves the file system as it was. *)
Definition leaves_files {A} (m : M A) : Prop :=
  forall c, fs (env (fst (m c))) = fs (env c).

Definition is_str (v : value) (s : string) : bool :=
  match v with
  | VStr s' => String.eqb s' s
  | _ => false
  end.

Definition get_self : M DataSink := fun c => (c, Ok (self c)).

(** The base class: [DataSink(name)], whose [write] is abstract. *)
Definition __init__ (name : string) : DataSink :=
  {| name := name; enabled := true; impl := IBase |}.

Definition write (data : dict) : M unit := raise NotImplementedError.

Definition item (data : dict) (k : string) : M value :=
  lift (getitem data k).


Module ConsoleDataSink.

Definition __init__ (format_type : string) : DataSink :=
  {| name := "console"; enabled := true; impl := IConsole format_type |}.

Definition format_type (s : DataSink) : string :=
  match impl s with IConsole f => f | _ => "" end.

Definition write (data : dict) : M unit :=
  s <- get_self ;;
  if negb (enabled s) then ret tt
  else if String.eqb (format_type s) "simple" then
    dt <- item data "device_type" ;;
    id <- item data "device_id" ;;
    ts <- item data "timestamp" ;;
    print (PrintSimple dt id ts)
  else if String.eqb (format_type s) "detailed" then
    ts <- item data "timestamp" ;;
    dt <- item data "device_type" ;;
    id <- item data "device_id" ;;
    loc <- item data "location" ;;
    print (PrintDetailed ts dt id loc) ;;;
    dt <- item data "device_type" ;;
    if is_str dt "infusion_pump" then
      print (PrintPump (get_default data "flow_rate" (VStr "N/A"))
                       (get_default data "pressure" (VStr "N/A")))
    else
      dt <- item data "device_type" ;;
      if is_str dt "patient_bed" then
        print (PrintBed (get_default data "weight" (VStr "N/A"))
                        (get_default data "position_angle" (VStr "N/A")))
      else
        dt <- item data "device_type" ;;
        if is_str dt "vital_signs" then
          let hr := get_default data "heart_rate" (VStr "N/A") in
          sys <- lift (value_get
                         (get_default data "blood_pressure" (VDict []))
                         "systolic" (VStr "N/A")) ;;
          dia <- lift (value_get
                         (get_default data "blood_pressure" (VDict []))
                         "diastolic" (VStr "N/A")) ;;
          print (PrintVitals hr sys dia)
        else ret tt
  else if String.eqb (format_type s) "json" then
    print (PrintJson data)
  else ret tt.

End ConsoleDataSink.

Module FileDataSink.

Definition __init__ (output_dir format : string) : DataSink :=
  {| name := "file"; enabled := true; impl := IFile output_dir format |}.

Definition output_dir (s : DataSink) : string :=
  match impl s with IFile d _ => d | _ => "" end.

Definition format (s : DataSink) : string :=
  match impl s with IFile _ f => f | _ => "" end.


Section Rendering.
(** What an f-string substitutes for a value, and [json.dumps]. *)
Variable format_value : value -> string.
Variable json_dumps : value -> string.

(** [self.output_dir / f"{device_type}_data{ext}"], for a device type
    whose rendering is a [plain_name]: the file of that name in the
    output directory, which [__init__] has created. *)
Definition data_path (s : DataSink) (device_type : value)
  (ext : string) : string :=
  (output_dir s ++ "/" ++ format_value device_type ++ "_data" ++ ext)
    %string.

Definition new_key (parent_key sep k : string) : string :=
  if String.eqb parent_key "" then k
  else (parent_key ++ sep ++ k)%string.

(** [_flatten_dict(d, parent_key, sep)] is
    [flatten (VDict d) parent_key sep]: the loop over the items of
    [d], each item contributing the items of its own flattening. *)
Fixpoint flatten (v : value) (key sep : string) {struct v} : dict :=
  match v with
  | VDict d =>
      dict_of_items
        ((fix items (l : list (string * value)) : list (string * value) :=
            match l with
            | [] => []
            | (k, v') :: rest =>
                flatten v' (new_key key sep k) sep ++ items rest
            end) d)
  | VList _ => [(key, VStr (json_dumps v))]
  | _ => [(key, v)]
  end.

Definition _flatten_dict (d : dict) (parent_key sep : string) : dict :=
  flatten (VDict d) parent_key sep.

Definition _write_json (data : dict) (device_type : value) : M unit :=
  s <- get_self ;;
  let filename := data_path s device_type ".jsonl" in
  write_lines filename [TextLine (json_dumps (VDict data))].



Definition _write_csv (data : dict) (device_type : value) : M unit :=
  s <- get_self ;;
  let filename := data_path s device_type ".csv" in
  let flat_data := _flatten_dict data "" "_" in
  file_exists <- file_exists filename ;;
  if negb file_exists then
    write_lines filename
      [CsvHeader (map fst flat_data); CsvRow (map snd flat_data)]
  else
    write_lines filename [CsvRow (map snd flat_data)].

Definition write (data : dict) : M unit :=
  s <- get_self ;;
  if negb (enabled s) then ret tt
  else
    device_type <- item data "device_type" ;;
    if String.eqb (format s) "json" then _write_json data device_type
    else if String.eqb (format s) "csv" then _write_csv data device_type
    else ret tt.

End Rendering.

End FileDataSink.

Module DatabaseDataSink.

Definition empty_db : Connection := {| committed := []; pending := [] |}.

Definition __init__ : DataSink :=
  {| name := "database"; enabled := true; impl := IDatabase empty_db |}.

Definition conn : M Connection :=
  fun c => match impl (self c) with
           | IDatabase cn => (c, Ok cn)
           | _ => (c, Raise (AttributeError "conn"))
           end.

(** [cursor.execute('INSERT INTO <table> ... VALUES (?, ...)', params)] *)
Definition execute (table : string) (params : list value) : M unit :=
  cn <- conn ;;
  if forallb bindable params then
    set_impl (IDatabase
                {| committed := committed cn;
                   pending := pending cn
                                ++ [{| table := table;
                                       params := params |}] |})
  else raise (InterfaceError "Error binding parameter").

(** [self.conn.commit()] *)
Definition commit : M unit :=
  cn <- conn ;;
  set_impl (IDatabase {| committed := committed cn ++ pending cn;
                         pending := [] |}).

Section Rendering.
Variable json_dumps : value -> string.

(** The body runs under [with self.lock]: no other writer is
    interleaved with it, and the lock is released on every exit. *)
Definition write (data : dict) : M unit :=
  s <- get_self ;;
  if negb (enabled s) then ret tt
  else
    device_id <- item data "device_id" ;;
    device_type <- item data "device_type" ;;
    location <- item data "location" ;;
    timestamp <- item data "timestamp" ;;
    session_id <- item data "session_id" ;;
    execute "device_data"
      [device_id; device_type; location; timestamp; session_id;
       VStr (json_dumps (VDict data))] ;;;
    device_type <- item data "device_type" ;;
    (if is_str device_type "infusion_pump" then
       device_id <- item data "device_id" ;;
       timestamp <- item data "timestamp" ;;
       flow_rate <- item data "flow_rate" ;;
       target_flow_rate <- item data "target_flow_rate" ;;
       pressure <- item data "pressure" ;;
       battery_level <- item data "battery_level" ;;
       volume_infused <- item data "volume_infused" ;;
       volume_remaining <- item data "volume_remaining" ;;
       status <- item data "status" ;;
       alarms <- item data "alarms" ;;
       execute "infusion_pump_data"
         [device_id; timestamp; flow_rate; target_flow_rate; pressure;
          battery_level; volume_infused; volume_remaining; status;
          VStr (json_dumps alarms)]
     else if is_str device_type "patient_bed" then
       device_id <- item data "device_id" ;;
       timestamp <- item data "timestamp" ;;
       weight <- item data "weight" ;;
       position_angle <- item data "position_angle" ;;
       occupancy <- item data "occupancy" ;;
       movement_level <- item data "movement_level" ;;
       bed_exit_risk <- item data "bed_exit_risk" ;;
       execute "patient_bed_data"
         [device_id; timestamp; weight; position_angle; occupancy;
          movement_level; bed_exit_risk]
     else if is_str device_type "vital_signs" then
       device_id <- item data "device_id" ;;
       timestamp <- item data "timestamp" ;;
       heart_rate <- item data "heart_rate" ;;
       bp <- item data "blood_pressure" ;;
       systolic <- lift (value_getitem bp "systolic") ;;
       bp <- item data "blood_pressure" ;;
       diastolic <- lift (value_getitem bp "diastolic") ;;
       oxygen_saturation <- item data "oxygen_saturation" ;;
       respiratory_rate <- item data "respiratory_rate" ;;
       temperature <- item data "temperature" ;;
       execute "vital_signs_data"
         [device_id; timestamp; heart_rate; systolic; diastolic;
          oxygen_saturation; respiratory_rate; temperature]
     else ret tt) ;;;
    commit.

End Rendering.

(** The connection of a database sink. *)
Definition conn_of (c : ctx) : Connection :=
  match impl (self c) with
  | IDatabase cn => cn
  | _ => empty_db
  end.

(** The sink and the world of [c], with the connection [cn]. *)
Definition with_conn (c : ctx) (cn : Connection) : ctx :=
  {| self := {| name := name (self c); enabled := enabled (self c);
                impl := IDatabase cn |};
     env := env c |}.

(** A statement that only adds rows to the open transaction: between [lo]
    and [hi] of them when it returns, at most [r] when it raises. *)
Definition inserts {A} (lo hi r : nat) (m : M A) : Prop :=
  forall c cn,
    impl (self c) = IDatabase cn ->
    exists rows,
      fst (m c)
      = with_conn c {| committed := committed cn;
                       pending := pending cn ++ rows |} /\
      match snd (m c) with
      | Ok _ => (lo <= List.length rows <= hi)%nat
      | Raise _ => (List.length rows <= r)%nat
      end.

(** A statement that ends with the commit: when it returns, the rows that
    were open and between [lo] and [hi] new ones have become durable and
    the transaction is empty; when it raises, nothing has become durable
    and at most [r] new rows are left open. *)
Definition finishes {A} (lo hi r : nat) (m : M A) : Prop :=
  forall c cn,
    impl (self c) = IDatabase cn ->
    exists cn',
      fst (m c) = with_conn c cn' /\
      match snd (m c) with
      | Ok _ =>
          pending cn' = [] /\
          exists rows,
            committed cn' = committed cn ++ pending cn ++ rows /\
            (lo <= List.length rows <= hi)%nat
      | Raise _ =>
          committed cn' = committed cn /\
          exists rows,
            pending cn' = pending cn ++ rows /\
            (List.length rows <= r)%nat
      end.

End DatabaseDataSink.

Module APIDataSink.

Definition __init__ (remote : nat -> request -> result response)
  (api_url : string) (auth_token : option string) (batch_size : Z)
  : DataSink :=
  {| name := "api"; enabled := true;
     impl := IAPI
       {| api_url := api_url; auth_token := auth_token;
          batch_size := batch_size; batch_queue := [];
          session :=
            {| headers :=
                 match auth_token with
                 | Some t =>
                     if String.eqb t "" then []
                     else [("Authorization", ("Bearer " ++ t)%string)]
                 | None => []
                 end;
               remote := remote; posted := [] |} |} |}.

Definition api : M APIFields :=
  fun c => match impl (self c) with
           | IAPI a => (c, Ok a)
           | _ => (c, Raise (AttributeError "batch_queue"))
           end.

(** [self.batch_queue.put(data)] *)
Definition put (data : dict) : M unit :=
  a <- api ;;
  set_impl (IAPI {| api_url := api_url a; auth_token := auth_token a;
                    batch_size := batch_size a;
                    batch_queue := batch_queue a ++ [data];
                    session := session a |}).

Definition write (data : dict) : M unit :=
  s <- get_self ;;
  if negb (enabled s) then ret tt
  else put data.

(** [self.session.post(url, json=..., timeout=...)] *)
Definition session_post (rq : request) : M response :=
  a <- api ;;
  let '(s', r) := post (session a) rq in
  set_impl (IAPI {| api_url := api_url a; auth_token := auth_token a;
                    batch_size := batch_size a;
                    batch_queue := batch_queue a;
                    session := s' |}) ;;;
  lift r.

(** [try: body except Exception as e: handler(e)] *)
Definition try_except {A} (body : M A) (handler : exn -> M A) : M A :=
  fun c => match body c with
           | (c', Ok a) => (c', Ok a)
           | (c', Raise e) => handler e c'
           end.

(** The request that [_send_batch] builds for a batch:
    [len(batch) == 1] holds exactly of a one-element list, whose
    [batch[0]] is that element. *)
Definition batch_request (api_url : string) (batch : list dict)
  : request :=
  match batch with
  | [b0] => {| url := (api_url ++ "/devices/data")%string;
               json := VDict b0; timeout := 5 |}
  | _ => {| url := (api_url ++ "/devices/data/batch")%string;
            json := VDict [("data", VList (map VDict batch))];
            timeout := 10 |}
  end.

(** What [_send_batch] prints for the outcome of its request. *)
Definition report (batch : list dict) (r : result response)
  : stdout_line :=
  match r with
  | Ok response =>
      if Z.eqb (status_code response) 200
         || Z.eqb (status_code response) 201
      then PrintApiSent (List.length batch)
      else PrintApiError (status_code response) (text response)
  | Raise e => PrintApiFailed e
  end.

Definition _send_batch (batch : list dict) : M unit :=
  try_except
    (a <- api ;;
     response <- session_post (batch_request (api_url a) batch) ;;
     if Z.eqb (status_code response) 200
        || Z.eqb (status_code response) 201
     then print (PrintApiSent (List.length batch))
     else print (PrintApiError (status_code response) (text response)))
    (fun e => print (PrintApiFailed e)).

(** [self.batch_queue.get(timeout=1)]: the oldest queued record, or
    [queue.Empty] (here [None]) when nothing has arrived by the end of
    the wait. *)
Definition get : M (option dict) :=
  a <- api ;;
  match batch_queue a with
  | data :: rest =>
      set_impl (IAPI {| api_url := api_url a; auth_token := auth_token a;
                        batch_size := batch_size a;
                        batch_queue := rest;
                        session := session a |}) ;;;
      ret (Some data)
  | [] => ret None
  end.

(** One turn of the [while True] loop of [_process_batches]; [batch] is
    the loop's local list, returned as it stands at the end of the
    turn. *)
Definition _process_batches_turn (batch : list dict) : M (list dict) :=
  r <- get ;;
  match r with
  | Some data =>
      let batch := batch ++ [data] in
      a <- api ;;
      if (batch_size a <=? Z.of_nat (List.length batch))%Z then
        _send_batch batch ;;;
        ret []
      else ret batch
  | None =>
      match batch with
      | _ :: _ =>
          _send_batch batch ;;;
          ret []
      | [] => ret batch
      end
  end.

(** The producers and the worker thread of one API sink, interleaved:
    a producer calls [write], or the worker completes one turn of its
    loop. *)
Inductive action : Type :=
| Write (data : dict)
| Turn.

(** The sink object with its environment, and the worker's [batch]. *)
Definition dispatcher : Type := ctx * list dict.

Definition step (st : dispatcher) (a : action) : dispatcher :=
  match a with
  | Write data => (fst (write data (fst st)), snd st)
  | Turn =>
      match _process_batches_turn (snd st) (fst st) with
      | (c, Ok batch) => (c, batch)
      | (c, Raise _) => (c, snd st)
      end
  end.

Definition run (st : dispatcher) (sch : list action) : dispatcher :=
  fold_left step sch st.

Definition queue_of (c : ctx) : list dict :=
  match impl (self c) with
  | IAPI a => batch_queue a
  | _ => []
  end.

Definition posted_of (c : ctx) : list request :=
  match impl (self c) with
  | IAPI a => posted (session a)
  | _ => []
  end.

(** No turn of the schedule waits in vain: whenever the worker calls
    [get], a record is already queued. *)
Fixpoint gapless (st : dispatcher) (sch : list action) : bool :=
  match sch with
  | [] => true
  | a :: sch' =>
      match a with
      | Write _ => true
      | Turn => match queue_of (fst st) with [] => false | _ => true end
      end && gapless (step st a) sch'
  end.

Fixpoint writes (sch : list action) : list dict :=
  match sch with
  | [] => []
  | Write data :: sch' => data :: writes sch'
  | Turn :: sch' => writes sch'
  end.

Fixpoint turns (sch : list action) : nat :=
  match sch with
  | [] => 0
  | Write _ :: sch' => turns sch'
  | Turn :: sch' => S (turns sch')
  end.

(** The sink object and the world once [_send_batch] has posted [rq]
    on the session of [a] and printed [l]. *)
Definition after_post (c : ctx) (a : APIFields) (rq : request)
  (l : stdout_line) : ctx :=
  {| self :=
       {| name := name (self c); enabled := enabled (self c);
          impl := IAPI
            {| api_url := api_url a; auth_token := auth_token a;
               batch_size := batch_size a;
               batch_queue := batch_queue a;
               session :=
                 {| headers := headers (session a);
                    remote := remote (session a);
                    posted := posted (session a) ++ [rq] |} |} |};
     env := {| stdout := stdout (env c) ++ [l]; fs := fs (env c) |} |}.

(** What the receiving end reads back from a request: the records it
    carries. *)
Definition undict (v : value) : dict :=
  match v with
  | VDict d => d
  | _ => []
  end.

Definition records_of (rq : request) : list dict :=
  if Z.eqb (timeout rq) 5 then [undict (json rq)]
  else match json rq with
       | VDict [(_, VList l)] => map undict l
       | _ => []
       end.

(** **** The dispatcher seen through its three lists

    Which requests are posted, and when, depends only on the queue,
    on the worker's batch and on the two constants [api_url] and
    [batch_size]; the proofs below follow the dispatcher through this
    view. *)
Record view := {
  v_queue : list dict;
  v_batch : list dict;
  v_posted : list request
}.

Definition view_of (st : dispatcher) : view :=
  {| v_queue := queue_of (fst st); v_batch := snd st;
     v_posted := posted_of (fst st) |}.

(** An enabled API sink with the given constants. *)
Definition api_sink (u : string) (size : Z) (c : ctx) : Prop :=
  enabled (self c) = true /\
  exists a, impl (self c) = IAPI a /\ api_url a = u /\
            batch_size a = size.

Section View.
Variable u : string.
Variable size : Z.

Definition vstep (v : view) (a : action) : view :=
  match a with
  | Write data =>
      {| v_queue := v_queue v ++ [data]; v_batch := v_batch v;
         v_posted := v_posted v |}
  | Turn =>
      match v_queue v with
      | data :: rest =>
          let batch := v_batch v ++ [data] in
          if (size <=? Z.of_nat (List.length batch))%Z then
            {| v_queue := rest; v_batch := [];
               v_posted := v_posted v ++ [batch_request u batch] |}
          else
            {| v_queue := rest; v_batch := batch;
               v_posted := v_posted v |}
      | [] =>
          match v_batch v with
          | _ :: _ =>
              {| v_queue := []; v_batch := [];
                 v_posted :=
                   v_posted v ++ [batch_request u (v_batch v)] |}
          | [] => v
          end
      end
  end.

Definition vrun (v : view) (sch : list action) : view :=
  fold_left vstep sch v.

Fixpoint vgapless (v : view) (sch : list action) : bool :=
  match sch with
  | [] => true
  | a :: sch' =>
      match a with
      | Write _ => true
      | Turn => match v_queue v with [] => false | _ => true end
      end && vgapless (vstep v a) sch'
  end.

(** More records at the back of the queue. *)
Definition enq (v : view) (ds : list dict) : view :=
  {| v_queue := v_queue v ++ ds; v_batch := v_batch v;
     v_posted := v_posted v |}.

(** Every record that the dispatcher has posted or still holds, oldest
    first. *)
Definition held (v : view) : list dict :=
  flat_map records_of (v_posted v) ++ v_batch v ++ v_queue v.

End View.

End APIDataSink.

Module DataSinkManager.

Definition add_sink (sinks : list DataSink) (sink : DataSink)
  : list DataSink := sinks ++ [sink].

Fixpoint set_enabled (sinks : list DataSink) (n : string) (b : bool)
  : list DataSink :=
  match sinks with
  | [] => []
  | sink :: rest =>
      if String.eqb (name sink) n
      then {| name := name sink; enabled := b; impl := impl sink |}
           :: rest
      else sink :: set_enabled rest n b
  end.

Definition enable_sink (sinks : list DataSink) (n : string) :=
  set_enabled sinks n true.
Definition disable_sink (sinks : list DataSink) (n : string) :=
  set_enabled sinks n false.

(** What [enable_sink] and [disable_sink] print. *)
Inductive manager_line : Type :=
| PrintEnabled (name : string)
| PrintDisabled (name : string)
| PrintNotFound (name : string).

(** The line printed by the loop of [enable_sink] ([b] true) and of
    [disable_sink] ([b] false), which returns at the first sink of that
    name. *)
Fixpoint set_enabled_line (sinks : list DataSink) (n : string) (b : bool)
  : manager_line :=
  match sinks with
  | [] => PrintNotFound n
  | sink :: rest =>
      if String.eqb (name sink) n
      then if b then PrintEnabled n else PrintDisabled n
      else set_enabled_line rest n b
  end.

Section Rendering.
Variable format_value : value -> string.
Variable json_dumps : value -> string.

(** [sink.write(data)], dispatched on the class of [sink]. *)
Definition sink_write (data : dict) : M unit :=
  fun c =>
    match impl (self c) with
    | IBase => DataSink.write data c
    | IConsole _ => ConsoleDataSink.write data c
    | IFile _ _ => FileDataSink.write format_value json_dumps data c
    | IDatabase _ => DatabaseDataSink.write json_dumps data c
    | IAPI _ => APIDataSink.write data c
    end.

(** The registration order with the flags: what [write_to_all]
    reads of the sinks before calling them. *)
Definition flags (sinks : list DataSink) : list (string * bool) :=
  map (fun s => (name s, enabled s)) sinks.

(** One call of [sink.write], as [write_to_all] makes it. *)
Definition call : Type := string * dict.

(** The calls owed for one record: one per enabled sink, in
    registration order. *)
Definition expected_calls (sinks : list DataSink) (data : dict)
  : list call :=
  map (fun s => (name s, data)) (filter enabled sinks).

(** [write_to_all]: the sinks and the world afterwards, and the calls
    of [sink.write] that were made, in order. *)
Fixpoint write_to_all (sinks : list DataSink) (data : dict) (w : world)
  : list DataSink * world * list call :=
  match sinks with
  | [] => ([], w, [])
  | sink :: rest =>
      let '(sink', w', calls) :=
        if enabled sink then
          match sink_write data {| self := sink; env := w |} with
          | (c, Ok _) => (self c, env c, [(name sink, data)])
          | (c, Raise e) =>
              (self c,
               {| stdout := stdout (env c)
                              ++ [PrintWriteError (name sink) e];
                  fs := fs (env c) |},
               [(name sink, data)])
          end
        else (sink, w, []) in
      let '(rest', w'', calls') := write_to_all rest data w' in
      (sink' :: rest', w'', calls ++ calls')
  end.

(** [write_to_all] called once per record of [rs], in order. *)
Fixpoint write_records (sinks : list DataSink) (rs : list dict)
  (w : world) : list DataSink * world * list call :=
  match rs with
  | [] => (sinks, w, [])
  | r :: rs' =>
      let '(sinks1, w1, calls1) := write_to_all sinks r w in
      let '(sinks2, w2, calls2) := write_records sinks1 rs' w1 in
      (sinks2, w2, calls1 ++ calls2)
  end.

End Rendering.

End DataSinkManager.

End DataSink.

(** ** modules/simulation_runner.py *)

Module SimulationRunner.
Import Py DeviceSimulator DataSink.

(** The two counters of [self.stats].  The keys of
    [messages_per_device_type] are device types of the configuration,
    strings, in insertion order; its values are integers. *)
Record Stats := {
  total_messages : Z;
  messages_per_device_type : list (string * Z)
}.

(** The part of the runner that [data_callback] reaches: [self.stats],
    the sinks of [self.sink_manager], and what the sinks act on. *)
Record SimulationRunner := {
  stats : Stats;
  sink_manager : list DataSink;
  io : world
}.

Fixpoint get_count (d : list (string * Z)) (k : string) : option Z :=
  match d with
  | [] => None
  | (k', n) :: d' => if String.eqb k' k then Some n else get_count d' k
  end.

Fixpoint set_count (d : list (string * Z)) (k : string) (n : Z)
  : list (string * Z) :=
  match d with
  | [] => [(k, n)]
  | (k', n') :: d' =>
      if String.eqb k' k then (k', n) :: d' else (k', n') :: set_count d' k n
  end.

Definition sum_counts (d : list (string * Z)) : Z :=
  fold_right Z.add 0%Z (map snd d).

Section Rendering.
Variable format_value : value -> string.
Variable json_dumps : value -> string.

(** [d[device_type] += 1]: a list or a dict is unhashable, and no other
    value that is not a string equals a key. *)
Definition increment (d : list (string * Z)) (device_type : value)
  : result (list (string * Z)) :=
  match device_type with
  | VStr k =>
      match get_count d k with
      | Some n => Ok (set_count d k (n + 1)%Z)
      | None => Raise (KeyError k)
      end
  | VList _ | VDict _ => Raise (TypeError "unhashable type")
  | _ => Raise (KeyError (format_value device_type))
  end.

(** [data_callback], the closure that [setup_data_flow] subscribes. *)
Definition data_callback : callback SimulationRunner :=
  fun data self =>
    let total := (total_messages (stats self) + 1)%Z in
    let self1 :=
      {| stats := {| total_messages := total;
                     messages_per_device_type :=
                       messages_per_device_type (stats self) |};
         sink_manager := sink_manager self; io := io self |} in
    match getitem data "device_type" with
    | Raise e => (self1, Some e)
    | Ok device_type =>
        match increment (messages_per_device_type (stats self1))
                device_type with
        | Raise e => (self1, Some e)
        | Ok counts =>
            let '(sinks, w, _) :=
              DataSinkManager.write_to_all format_value json_dumps
                (sink_manager self1) data (io self1) in
            ({| stats := {| total_messages := total;
                            messages_per_device_type := counts |};
                sink_manager := sinks; io := w |}, None)
        end
    end.

(** [data_callback] called with the records of [rs], one after the
    other. *)
Fixpoint deliver (rs : list dict) (self : SimulationRunner)
  : SimulationRunner :=
  match rs with
  | [] => self
  | r :: rs' => deliver rs' (fst (data_callback r self))
  end.

(** The device type of a record is one that [setup_devices] has given a
    counter. *)
Definition counted (d : list (string * Z)) (r : dict) : bool :=
  match get r "device_type" with
  | Some (VStr k) =>
      match get_count d k with Some _ => true | None => false end
  | _ => false
  end.

End Rendering.

End SimulationRunner.

(** * Sample inputs *)

Module Samples.
Import Py DeviceSimulator.
Local Open Scope Q_scope.

Definition pump_cfg : DeviceConfig :=
  {| device_id := "pump_001"; device_type := "infusion_pump";
     location := "Room_101"; update_interval := 2; cfg_enabled := true |}.

Definition pump_draws : list InfusionPumpSimulator.draws :=
  [ {| InfusionPumpSimulator.u_flow := 0.1;
       InfusionPumpSimulator.u_pressure := -1.5;
       InfusionPumpSimulator.u_battery := 0.03 |};
    {| InfusionPumpSimulator.u_flow := -0.2;
       InfusionPumpSimulator.u_pressure := 2;
       InfusionPumpSimulator.u_battery := 0.05 |} ].

Definition bed_draws : list PatientBedSimulator.draws :=
  [ {| PatientBedSimulator.u_weight := 0.5;
       PatientBedSimulator.u_angle := -5;
       PatientBedSimulator.i_movement := 4;
       PatientBedSimulator.r_risk := 0.1;
       PatientBedSimulator.r_occupied := 0.5;
       PatientBedSimulator.u_new_weight := 80 |} ].

Definition vitals_draws : list VitalSignsSimulator.draws :=
  [ {| VitalSignsSimulator.i_heart := 3;
       VitalSignsSimulator.i_sys := -5;
       VitalSignsSimulator.i_dia := 0;
       VitalSignsSimulator.u_oxygen := 1;
       VitalSignsSimulator.i_resp := -1;
       VitalSignsSimulator.u_temp := 0.2 |} ].

Definition empty_bed : PatientBedSimulator.state :=
  {| PatientBedSimulator.weight := 75.0;
     PatientBedSimulator.position_angle := 30.0;
     PatientBedSimulator.occupancy := false;
     PatientBedSimulator.movement_level := 2;
     PatientBedSimulator.bed_exit_risk := "low" |}.

Definition stay_empty : PatientBedSimulator.draws :=
  {| PatientBedSimulator.u_weight := 0.5;
     PatientBedSimulator.u_angle := -5;
     PatientBedSimulator.i_movement := 4;
     PatientBedSimulator.r_risk := 0.1;
     PatientBedSimulator.r_occupied := 0.5;
     PatientBedSimulator.u_new_weight := 80 |}.

(** A runner that was started by thread 0 and then stopped. *)
Definition stopped_runner : BaseDeviceSimulator unit :=
  {| config := pump_cfg; running := false;
     thread := Some {| ident := 1; alive := false |};
     data_history := []; callbacks := [] |}.

Definition running_runner : BaseDeviceSimulator unit :=
  {| config := pump_cfg; running := true;
     thread := Some {| ident := 1; alive := true |};
     data_history := []; callbacks := [] |}.

(** An infusion-pump record as [generate_device_data] builds it, and the
    same record without its [flow_rate]. *)
Definition pump_record : dict :=
  [ ("device_id", VStr "pump_001");
    ("device_type", VStr "infusion_pump");
    ("location", VStr "Room_101");
    ("timestamp", VStr "2024-01-01T00:00:00");
    ("session_id", VStr "abc123");
    ("flow_rate", VFloat 5.2);
    ("target_flow_rate", VFloat 5.0);
    ("pressure", VFloat 25.8);
    ("battery_level", VFloat 85.5);
    ("volume_infused", VFloat 125.0);
    ("volume_remaining", VFloat 375.0);
    ("status", VStr "running");
    ("alarms", VList [VStr "LOW_BATTERY"]) ].

Definition pump_record_no_flow : dict :=
  [ ("device_id", VStr "pump_001");
    ("device_type", VStr "infusion_pump");
    ("location", VStr "Room_101");
    ("timestamp", VStr "2024-01-01T00:00:00");
    ("session_id", VStr "abc123");
    ("target_flow_rate", VFloat 5.0);
    ("pressure", VFloat 25.8);
    ("battery_level", VFloat 85.5);
    ("volume_infused", VFloat 125.0);
    ("volume_remaining", VFloat 375.0);
    ("status", VStr "running");
    ("alarms", VList [VStr "LOW_BATTERY"]) ].

Definition empty_world : DataSink.world :=
  {| DataSink.stdout := []; DataSink.fs := [] |}.

(** A rendering of values, for running the sinks on sample records. *)
Definition show (v : value) : string :=
  match v with
  | VStr s => s
  | VNone => "None"
  | VBool true => "True"
  | VBool false => "False"
  | _ => "?"
  end.

Definition disabled_console : DataSink.DataSink :=
  {| DataSink.name := "console"; DataSink.enabled := false;
     DataSink.impl := DataSink.IConsole "detailed" |}.

Definition sink_A : DataSink.DataSink := DataSink.__init__ "A".
Definition sink_B : DataSink.DataSink :=
  DataSink.ConsoleDataSink.__init__ "simple".
Definition sink_C : DataSink.DataSink :=
  DataSink.FileDataSink.__init__ "out" "json".

(** Seven records, told apart by their session. *)
Definition rec (n : Z) : dict :=
  [ ("device_id", VStr "pump_001");
    ("device_type", VStr "infusion_pump");
    ("session_id", VInt n) ].

Definition always_created : nat -> DataSink.request
                            -> result DataSink.response :=
  fun _ _ => Ok {| DataSink.status_code := 201; DataSink.text := "" |}.

(** Seven writes with the worker's turns interleaved, the worker never
    finding the queue empty. *)
Definition burst : list DataSink.APIDataSink.action :=
  [ DataSink.APIDataSink.Write (rec 1); DataSink.APIDataSink.Turn;
    DataSink.APIDataSink.Write (rec 2); DataSink.APIDataSink.Write (rec 3);
    DataSink.APIDataSink.Turn; DataSink.APIDataSink.Turn;
    DataSink.APIDataSink.Write (rec 4); DataSink.APIDataSink.Write (rec 5);
    DataSink.APIDataSink.Write (rec 6); DataSink.APIDataSink.Write (rec 7);
    DataSink.APIDataSink.Turn; DataSink.APIDataSink.Turn;
    DataSink.APIDataSink.Turn; DataSink.APIDataSink.Turn ].

Definition api_ctx (batch_size : Z) : DataSink.ctx :=
  {| DataSink.self :=
       DataSink.APIDataSink.__init__ always_created "http://api" None
         batch_size;
     DataSink.env := empty_world |}.

Definition numbered (n : nat) : dict := [("n", VInt (Z.of_nat n))].

Definition vitals_record : dict :=
  [ ("device_id", VStr "vitals_001");
    ("device_type", VStr "vital_signs");
    ("heart_rate", VInt 75);
    ("blood_pressure",
     VDict [("systolic", VInt 120); ("diastolic", VInt 80)]);
    ("alerts", VList []) ].

Definition pump_at_limits : InfusionPumpSimulator.state :=
  {| InfusionPumpSimulator.flow_rate := 10;
     InfusionPumpSimulator.pressure := 50;
     InfusionPumpSimulator.battery_level := 0.02;
     InfusionPumpSimulator.volume_infused := 0;
     InfusionPumpSimulator.status := "running";
     InfusionPumpSimulator.alarms := [] |}.

Definition push_up : InfusionPumpSimulator.draws :=
  {| InfusionPumpSimulator.u_flow := 0.2;
     InfusionPumpSimulator.u_pressure := 2;
     InfusionPumpSimulator.u_battery := 0.05 |}.

Definition pump_emit_draws : InfusionPumpSimulator.emit_draws :=
  {| InfusionPumpSimulator.u_temperature := 22.5;
     InfusionPumpSimulator.i_pump_cycles := 1234 |}.

Definition bed_emit_draws : PatientBedSimulator.emit_draws :=
  {| PatientBedSimulator.c_rails_up := true;
     PatientBedSimulator.r_call_light := 0.05;
     PatientBedSimulator.c_call_light := true;
     PatientBedSimulator.u_room_temperature := 21;
     PatientBedSimulator.u_humidity := 45 |}.

Definition vitals_emit_draws : VitalSignsSimulator.emit_draws :=
  {| VitalSignsSimulator.c_ecg_rhythm := 1 |}.

Definition one_pump_draw : InfusionPumpSimulator.draws :=
  {| InfusionPumpSimulator.u_flow := 0.1;
     InfusionPumpSimulator.u_pressure := -1.5;
     InfusionPumpSimulator.u_battery := 0.03 |}.

Definition one_vitals_draw : VitalSignsSimulator.draws :=
  {| VitalSignsSimulator.i_heart := 3;
     VitalSignsSimulator.i_sys := -5;
     VitalSignsSimulator.i_dia := 0;
     VitalSignsSimulator.u_oxygen := 1;
     VitalSignsSimulator.i_resp := -1;
     VitalSignsSimulator.u_temp := 0.2 |}.

Definition inputs : tick_inputs :=
  {| now := "2024-01-01T00:00:00";
     uuid := "0123456789abcdef";
     DeviceSimulator.pump_draws := one_pump_draw;
     pump_emit := pump_emit_draws;
     DeviceSimulator.bed_draws := stay_empty;
     bed_emit := bed_emit_draws;
     DeviceSimulator.vitals_draws := one_vitals_draw;
     vitals_emit := vitals_emit_draws |}.

Definition vitals_cfg : DeviceConfig :=
  {| device_id := "vitals_001"; device_type := "vital_signs";
     location := "Room_102"; update_interval := 1; cfg_enabled := true |}.

Definition paused_cfg : DeviceConfig :=
  {| device_id := "bed_001"; device_type := "patient_bed";
     location := "Room_103"; update_interval := 2; cfg_enabled := false |}.

Definition paused_bed : Simulator unit :=
  {| base := {| config := paused_cfg; running := true;
                thread := Some {| ident := 1; alive := true |};
                data_history := []; callbacks := [] |};
     dev := BedDevice PatientBedSimulator.init |}.

Definition running_pump : Simulator unit :=
  {| base := running_runner;
     dev := PumpDevice InfusionPumpSimulator.init |}.

Definition count_up : callback nat := fun _ n => (S n, None).

Definition two_devices : list (registration nat) :=
  [ AddSimulator "infusion_pump" pump_cfg;
    AddDataCallback count_up;
    AddSimulator "vital_signs" vitals_cfg ].

Definition small_registry : DeviceSimulatorManager unit :=
  {| simulators := [("pump_001", running_pump); ("bed_001", paused_bed)];
     data_callbacks := [] |}.

Definition file_json : DataSink.DataSink :=
  DataSink.FileDataSink.__init__ "out" "json".
Definition file_csv : DataSink.DataSink :=
  DataSink.FileDataSink.__init__ "out" "csv".


Definition fresh_runner : SimulationRunner.SimulationRunner :=
  {| SimulationRunner.stats :=
       {| SimulationRunner.total_messages := 0;
          SimulationRunner.messages_per_device_type :=
            [("infusion_pump", 0%Z); ("vital_signs", 0%Z)] |};
     SimulationRunner.sink_manager := [sink_B; sink_C];
     SimulationRunner.io := empty_world |}.

(** A running pump that [setup_data_flow] has connected to the sinks. *)
Definition wired_pump : Simulator SimulationRunner.SimulationRunner :=
  {| base := {| config := pump_cfg; running := true;
                thread := Some {| ident := 1; alive := true |};
                data_history := [];
                callbacks := [SimulationRunner.data_callback show show] |};
     dev := PumpDevice InfusionPumpSimulator.init |}.

(** An API sink, and a pump whose update interval is negative. *)
Definition sink_D : DataSink.DataSink :=
  DataSink.APIDataSink.__init__ always_created "http://api" None 1.



End Samples.

(** * Verification *)

Import Py.

(** ** Clamping *)

Section Clamp.
Local Open Scope Q_scope.

Lemma Qltb_true (a b : Q) : Qltb a b = true -> a < b.
Proof.
  unfold Qltb. intros H. apply negb_true_iff in H.
  destruct (Qlt_le_dec a b) as [Hlt | Hle]; [exact Hlt|].
  apply Qle_bool_iff in Hle. congruence.
Qed.

Lemma Qltb_false (a b : Q) : Qltb a b = false -> b <= a.
Proof.
  unfold Qltb. intros H. apply negb_false_iff in H.
  now apply Qle_bool_iff.
Qed.

Lemma Qltb_spec (a b : Q) : BoolSpec (a < b) (b <= a) (Qltb a b).
Proof.
  destruct (Qltb a b) eqn:E; constructor;
    [now apply Qltb_true | now apply Qltb_false].
Qed.

Lemma max_lower (lo x : Q) : lo <= max lo x.
Proof. unfold max. destruct (Qltb_spec lo x); lra. Qed.

Lemma max_upper (lo hi x : Q) : lo <= hi -> x <= hi -> max lo x <= hi.
Proof. unfold max. intros. destruct (Qltb_spec lo x); lra. Qed.

Lemma min_upper (hi x : Q) : min hi x <= hi.
Proof. unfold min. destruct (Qltb_spec x hi); lra. Qed.

(** [max(lo, min(hi, x))] lands in [[lo, hi]] whatever [x] is. *)
Lemma clamp_range (lo hi x : Q) :
  lo <= hi -> lo <= max lo (min hi x) <= hi.
Proof.
  intros H. split; [apply max_lower|].
  apply max_upper; [exact H | apply min_upper].
Qed.

(** Inside the range the clamp is the identity. *)
Lemma clamp_id (lo hi x : Q) :
  lo < x -> x < hi -> max lo (min hi x) = x.
Proof.
  intros H1 H2. unfold max, min.
  destruct (Qltb_spec x hi); [|lra].
  destruct (Qltb_spec lo x); [reflexivity | lra].
Qed.

End Clamp.

(** ** State machines driven by draws *)

Section Ticks.
Import DeviceSimulator.
Context {S D : Type} (step : S -> D -> S).
Variable I : S -> Prop.
Variable P : D -> Prop.
Variable R : S * S -> Prop.
Hypothesis step_keeps : forall s d, I s -> P d -> I (step s d).
Hypothesis step_gives : forall s d, I s -> P d -> R (s, step s d).

Lemma ticks_Forall (ds : list D) :
  forall s, I s -> Forall P ds -> Forall R (ticks step s ds).
Proof.
  induction ds as [|d ds IH]; intros s Hs Hds; simpl.
  - constructor.
  - inversion Hds as [|? ? Hd Hrest]; subst.
    constructor; [now apply step_gives|].
    apply IH; [now apply step_keeps | exact Hrest].
Qed.

Lemma ticks_length (ds : list D) :
  forall s, List.length (ticks step s ds) = List.length ds.
Proof. induction ds; intros; simpl; [reflexivity | now rewrite IHds]. Qed.

End Ticks.

Section PumpFacts.
Import DeviceSimulator DeviceSimulator.InfusionPumpSimulator.
Local Open Scope Q_scope.

Lemma pump_update_in_range cfg s d :
  in_range s -> draws_ok d -> in_range (_update_pump_state cfg s d).
Proof.
  intros (Hf & Hp & Hb) (Hdf & Hdp & Hdb).
  unfold in_range, _update_pump_state; simpl.
  repeat split;
    try (apply clamp_range; lra); try apply max_lower.
  apply max_upper; lra.
Qed.

Lemma pump_update_battery cfg s d :
  0 <= battery_level s -> 0.01 <= u_battery d ->
  battery_level (_update_pump_state cfg s d) <= battery_level s.
Proof.
  intros Hb Hd. unfold _update_pump_state; simpl.
  apply max_upper; lra.
Qed.

End PumpFacts.

Section BedFacts.
Import DeviceSimulator DeviceSimulator.PatientBedSimulator.
Local Open Scope Q_scope.

Lemma bed_update_in_range s d :
  in_range s -> draws_ok d -> in_range (_update_bed_state s d).
Proof.
  intros (Hw & Ha) ((Hdw & Hda & Hr & Ho & Hn) & Hm).
  unfold in_range, _update_bed_state.
  destruct (occupancy s); simpl.
  - split; apply clamp_range; lra.
  - destruct (Qltb (r_occupied d) 0.05); simpl; lra.
Qed.

End BedFacts.

Section VitalsFacts.
Import DeviceSimulator DeviceSimulator.VitalSignsSimulator.

Lemma vitals_update_in_range s d : in_range (_update_vitals s d).
Proof.
  unfold in_range, _update_vitals; simpl.
  split; [lia|]. split; apply clamp_range; lra.
Qed.

End VitalsFacts.

(** C1. For each of the three device state machines, from any initial state
    whose clamped fields are within their declared ranges and for any
    sequence of random draws (each within the range of its [random] call),
    the state after every call of the update step has every clamped field
    within its declared range: pump flow_rate in [0,10], pressure in [10,50],
    battery in [0,100]; bed weight in [50,150], position_angle in [0,70];
    vitals heart_rate in [45,150], systolic in [90,180], diastolic in
    [50,110], oxygen_saturation in [85,100], respiratory_rate in [8,30],
    temperature in [35,40]. *)
Theorem clamped_fields_stay_in_range :
  (forall cfg s ds,
      DeviceSimulator.InfusionPumpSimulator.in_range s ->
      Forall DeviceSimulator.InfusionPumpSimulator.draws_ok ds ->
      Forall (fun p => DeviceSimulator.InfusionPumpSimulator.in_range (snd p))
        (DeviceSimulator.ticks
           (DeviceSimulator.InfusionPumpSimulator._update_pump_state cfg)
           s ds)) /\
  (forall s ds,
      DeviceSimulator.PatientBedSimulator.in_range s ->
      Forall DeviceSimulator.PatientBedSimulator.draws_ok ds ->
      Forall (fun p => DeviceSimulator.PatientBedSimulator.in_range (snd p))
        (DeviceSimulator.ticks
           DeviceSimulator.PatientBedSimulator._update_bed_state s ds)) /\
  (forall s ds,
      DeviceSimulator.VitalSignsSimulator.in_range s ->
      Forall DeviceSimulator.VitalSignsSimulator.draws_ok ds ->
      Forall (fun p => DeviceSimulator.VitalSignsSimulator.in_range (snd p))
        (DeviceSimulator.ticks
           DeviceSimulator.VitalSignsSimulator._update_vitals s ds)).
Proof.
  split; [|split].
  - intros cfg s ds Hs Hds.
    apply ticks_Forall
      with (I := DeviceSimulator.InfusionPumpSimulator.in_range)
           (P := DeviceSimulator.InfusionPumpSimulator.draws_ok);
      auto using pump_update_in_range.
    intros; simpl; now apply pump_update_in_range.
  - intros s ds Hs Hds.
    apply ticks_Forall
      with (I := DeviceSimulator.PatientBedSimulator.in_range)
           (P := DeviceSimulator.PatientBedSimulator.draws_ok);
      auto using bed_update_in_range.
    intros; simpl; now apply bed_update_in_range.
  - intros s ds Hs Hds.
    apply ticks_Forall
      with (I := DeviceSimulator.VitalSignsSimulator.in_range)
           (P := DeviceSimulator.VitalSignsSimulator.draws_ok);
      auto using vitals_update_in_range.
    intros; simpl; now apply vitals_update_in_range.
Qed.

Section DeviceExamples.
Import DeviceSimulator Samples.
Local Open Scope Q_scope.

Lemma pump_init_in_range :
  InfusionPumpSimulator.in_range InfusionPumpSimulator.init.
Proof. unfold InfusionPumpSimulator.in_range; simpl; lra. Defined.

Lemma pump_draws_ok :
  Forall InfusionPumpSimulator.draws_ok pump_draws.
Proof.
  repeat constructor; unfold InfusionPumpSimulator.draws_ok; simpl; lra.
Defined.

Lemma bed_init_in_range :
  PatientBedSimulator.in_range PatientBedSimulator.init.
Proof. unfold PatientBedSimulator.in_range; simpl; lra. Defined.

Lemma bed_draws_ok : Forall PatientBedSimulator.draws_ok bed_draws.
Proof.
  repeat constructor; simpl; try lra; try lia.
Defined.

Lemma vitals_init_in_range :
  VitalSignsSimulator.in_range VitalSignsSimulator.init.
Proof.
  unfold VitalSignsSimulator.in_range; simpl.
  split; [lia | lra].
Defined.

Lemma vitals_draws_ok :
  Forall VitalSignsSimulator.draws_ok vitals_draws.
Proof.
  repeat constructor; simpl; try lra; try lia.
Defined.

End DeviceExamples.

Lemma clamped_fields_stay_in_range_witness :
  Forall (fun p => DeviceSimulator.InfusionPumpSimulator.in_range (snd p))
    (DeviceSimulator.ticks
       (DeviceSimulator.InfusionPumpSimulator._update_pump_state
          Samples.pump_cfg)
       DeviceSimulator.InfusionPumpSimulator.init Samples.pump_draws) /\
  Forall (fun p => DeviceSimulator.PatientBedSimulator.in_range (snd p))
    (DeviceSimulator.ticks
       DeviceSimulator.PatientBedSimulator._update_bed_state
       DeviceSimulator.PatientBedSimulator.init Samples.bed_draws) /\
  Forall (fun p => DeviceSimulator.VitalSignsSimulator.in_range (snd p))
    (DeviceSimulator.ticks
       DeviceSimulator.VitalSignsSimulator._update_vitals
       DeviceSimulator.VitalSignsSimulator.init Samples.vitals_draws).
Proof.
  destruct clamped_fields_stay_in_range as (Hp & Hb & Hv).
  split; [|split].
  - apply Hp; [exact pump_init_in_range | exact pump_draws_ok].
  - apply Hb; [exact bed_init_in_range | exact bed_draws_ok].
  - apply Hv; [exact vitals_init_in_range | exact vitals_draws_ok].
Defined.

(** C7. For the infusion pump, from any initial battery level in [0,100] and
    for any sequence of random draws, the battery level after each tick is
    at most the level before that tick, and never below 0. *)
Theorem battery_never_increases :
  forall cfg s ds,
    (0 <= DeviceSimulator.InfusionPumpSimulator.battery_level s <= 100)%Q ->
    Forall DeviceSimulator.InfusionPumpSimulator.draws_ok ds ->
    Forall
      (fun p =>
         (DeviceSimulator.InfusionPumpSimulator.battery_level (snd p)
          <= DeviceSimulator.InfusionPumpSimulator.battery_level (fst p)
          /\ 0 <= DeviceSimulator.InfusionPumpSimulator.battery_level (snd p))
           %Q)
      (DeviceSimulator.ticks
         (DeviceSimulator.InfusionPumpSimulator._update_pump_state cfg) s ds).
Proof.
  intros cfg s ds Hs Hds.
  apply ticks_Forall
    with (I := fun s =>
                 (0 <= DeviceSimulator.InfusionPumpSimulator.battery_level s)
                   %Q)
         (P := DeviceSimulator.InfusionPumpSimulator.draws_ok);
    [ | | tauto | exact Hds ].
  - intros s0 d _ _. apply max_lower.
  - intros s0 d H0 (_ & _ & Hd). split.
    + apply (pump_update_battery cfg s0 d); tauto.
    + apply max_lower.
Qed.

Lemma battery_never_increases_witness :
  Forall
    (fun p =>
       (DeviceSimulator.InfusionPumpSimulator.battery_level (snd p)
        <= DeviceSimulator.InfusionPumpSimulator.battery_level (fst p)
        /\ 0 <= DeviceSimulator.InfusionPumpSimulator.battery_level (snd p))
         %Q)
    (DeviceSimulator.ticks
       (DeviceSimulator.InfusionPumpSimulator._update_pump_state
          Samples.pump_cfg)
       DeviceSimulator.InfusionPumpSimulator.init Samples.pump_draws).
Proof.
  apply battery_never_increases; [simpl; lra | exact pump_draws_ok].
Defined.

(** C8. For the patient bed, on a tick where occupancy is false: if the
    occupancy draw fails (is not below 0.05) the whole state is unchanged by
    the update, over any number of such ticks; if it succeeds, occupancy
    becomes true and the weight is the value resampled in [60,120], the other
    fields being kept.  So the weight changes only on the transition. *)
Theorem unoccupied_bed_weight_frame :
  forall s d,
    DeviceSimulator.PatientBedSimulator.occupancy s = false ->
    DeviceSimulator.PatientBedSimulator.draws_ok d ->
    let s' := DeviceSimulator.PatientBedSimulator._update_bed_state s d in
    ((0.05 <= DeviceSimulator.PatientBedSimulator.r_occupied d)%Q ->
     s' = s) /\
    ((DeviceSimulator.PatientBedSimulator.r_occupied d < 0.05)%Q ->
     s' = {| DeviceSimulator.PatientBedSimulator.weight :=
               DeviceSimulator.PatientBedSimulator.u_new_weight d;
             DeviceSimulator.PatientBedSimulator.position_angle :=
               DeviceSimulator.PatientBedSimulator.position_angle s;
             DeviceSimulator.PatientBedSimulator.occupancy := true;
             DeviceSimulator.PatientBedSimulator.movement_level :=
               DeviceSimulator.PatientBedSimulator.movement_level s;
             DeviceSimulator.PatientBedSimulator.bed_exit_risk :=
               DeviceSimulator.PatientBedSimulator.bed_exit_risk s |} /\
     (60 <= DeviceSimulator.PatientBedSimulator.weight s' <= 120)%Q) /\
    (DeviceSimulator.PatientBedSimulator.weight s'
     <> DeviceSimulator.PatientBedSimulator.weight s ->
     DeviceSimulator.PatientBedSimulator.occupancy s' = true) /\
    (forall ds,
        Forall (fun d0 =>
                  (0.05 <= DeviceSimulator.PatientBedSimulator.r_occupied d0)
                    %Q) ds ->
        Forall (fun p => snd p = s)
          (DeviceSimulator.ticks
             DeviceSimulator.PatientBedSimulator._update_bed_state s ds)).
Proof.
  intros s d Hocc ((_ & _ & _ & _ & Hn) & _) s'. subst s'.
  unfold DeviceSimulator.PatientBedSimulator._update_bed_state.
  rewrite Hocc.
  repeat split.
  - intros H. destruct (Qltb_spec
                          (DeviceSimulator.PatientBedSimulator.r_occupied d)
                          0.05); [lra | reflexivity].
  - destruct (Qltb_spec
                (DeviceSimulator.PatientBedSimulator.r_occupied d) 0.05);
      [reflexivity | lra].
  - destruct (Qltb_spec
                (DeviceSimulator.PatientBedSimulator.r_occupied d) 0.05);
      [simpl; lra | lra].
  - destruct (Qltb_spec
                (DeviceSimulator.PatientBedSimulator.r_occupied d) 0.05);
      [simpl; lra | lra].
  - destruct (Qltb
                (DeviceSimulator.PatientBedSimulator.r_occupied d) 0.05);
      [reflexivity | intros H; now elim H].
  - intros ds Hds.
    apply (ticks_Forall
             DeviceSimulator.PatientBedSimulator._update_bed_state
             (fun s0 => s0 = s)
             (fun d0 =>
                (0.05 <= DeviceSimulator.PatientBedSimulator.r_occupied d0)
                  %Q));
      [ | | reflexivity | exact Hds ].
    + intros s0 d0 -> Hd0.
      unfold DeviceSimulator.PatientBedSimulator._update_bed_state.
      rewrite Hocc.
      destruct (Qltb_spec
                  (DeviceSimulator.PatientBedSimulator.r_occupied d0) 0.05);
        [lra | reflexivity].
    + intros s0 d0 -> Hd0. simpl.
      unfold DeviceSimulator.PatientBedSimulator._update_bed_state.
      rewrite Hocc.
      destruct (Qltb_spec
                  (DeviceSimulator.PatientBedSimulator.r_occupied d0) 0.05);
        [lra | reflexivity].
Qed.

Lemma unoccupied_bed_weight_frame_witness :
  DeviceSimulator.PatientBedSimulator._update_bed_state
    Samples.empty_bed Samples.stay_empty = Samples.empty_bed.
Proof.
  apply (unoccupied_bed_weight_frame Samples.empty_bed Samples.stay_empty).
  - reflexivity.
  - repeat split; simpl; try lra; try lia.
  - simpl; lra.
Defined.

(** ** The history buffer *)

Section History.
Import DeviceSimulator.
Context {W : Type}.

Lemma send_data_history (self : BaseDeviceSimulator W) data w :
  data_history (fst (fst (send_data self data w)))
  = let h := data_history self ++ [data] in
    if (100 <? List.length h)%nat then tl h else h.
Proof.
  unfold send_data.
  destruct (notify (callbacks self) data w) as [w' out]. reflexivity.
Qed.

Lemma send_all_cons (self : BaseDeviceSimulator W) r rs w :
  fst (fst (send_all self (r :: rs) w))
  = fst (fst (send_all (fst (fst (send_data self r w))) rs
                       (snd (fst (send_data self r w))))).
Proof.
  simpl. destruct (send_data self r w) as [[self1 w1] out1]. simpl.
  destruct (send_all self1 rs w1) as [[self2 w2] out2]. reflexivity.
Qed.

(** Bounded by 100 before, the buffer afterwards is the last 100 of what
    it held followed by what was sent. *)
Lemma send_all_history (rs : list dict) :
  forall (self : BaseDeviceSimulator W) w,
    (List.length (data_history self) <= 100)%nat ->
    data_history (fst (fst (send_all self rs w)))
    = skipn (List.length (data_history self ++ rs) - 100)
            (data_history self ++ rs).
Proof.
  induction rs as [|r rs IH]; intros self w Hlen.
  - simpl. rewrite app_nil_r.
    replace (List.length (data_history self) - 100)%nat with 0%nat by lia.
    reflexivity.
  - rewrite send_all_cons, IH; rewrite send_data_history; cbv zeta.
    + destruct (Nat.ltb_spec 100
                  (List.length (data_history self ++ [r]))) as [Hgt | Hle].
      * rewrite length_app in Hgt. simpl in Hgt.
        destruct (data_history self) as [|a h] eqn:Eh;
          [simpl in Hgt; lia|].
        simpl in Hlen, Hgt. simpl tl.
        rewrite <- app_assoc. simpl app.
        rewrite !length_app. simpl List.length.
        rewrite !length_app. simpl List.length.
        replace (S (List.length h + S (List.length rs)) - 100)%nat
          with (S (List.length h + S (List.length rs) - 100))%nat by lia.
        reflexivity.
      * rewrite <- app_assoc. reflexivity.
    + destruct (Nat.ltb_spec 100
                  (List.length (data_history self ++ [r]))) as [Hgt | Hle];
        [|exact Hle].
      rewrite length_app in Hgt. simpl in Hgt.
      destruct (data_history self) as [|a h]; [simpl in Hgt; lia|].
      simpl in *. rewrite length_app. simpl. lia.
Qed.

Lemma with_callbacks_history cfg (cbs : list (callback W)) :
  data_history (with_callbacks cfg cbs) = [].
Proof.
  unfold with_callbacks.
  assert (H : forall self : BaseDeviceSimulator W,
             data_history (fold_left add_callback cbs self)
             = data_history self).
  { induction cbs as [|cb cbs IH]; intros self; simpl;
      [reflexivity | now rewrite IH]. }
  now rewrite H.
Qed.

End History.

(** C2. For every device simulator, whatever its subscribers, after N records
    have gone through [send_data] the history buffer holds the last
    min(N,100) of them in emission order: all N when N <= 100, and exactly the
    100 most recent when N > 100. *)
Theorem history_keeps_last_100 :
  forall (W : Type) cfg (cbs : list (DeviceSimulator.callback W))
         (rs : list dict) (w : W),
    let h := DeviceSimulator.data_history
               (fst (fst (DeviceSimulator.send_all
                            (DeviceSimulator.with_callbacks cfg cbs) rs w))) in
    h = skipn (List.length rs - 100) rs /\
    List.length h = Nat.min (List.length rs) 100 /\
    ((List.length rs <= 100)%nat -> h = rs) /\
    ((100 < List.length rs)%nat ->
     List.length h = 100%nat /\
     forall i, (i < 100)%nat ->
               nth_error h i = nth_error rs (List.length rs - 100 + i)).
Proof.
  intros W cfg cbs rs w h.
  assert (E : h = skipn (List.length rs - 100) rs).
  { subst h. rewrite send_all_history;
      rewrite with_callbacks_history; simpl; [reflexivity | lia]. }
  split; [exact E|].
  assert (L : List.length h = Nat.min (List.length rs) 100).
  { rewrite E, length_skipn. lia. }
  split; [exact L|]. split.
  - intros Hle. rewrite E.
    replace (List.length rs - 100)%nat with 0%nat by lia. reflexivity.
  - intros Hgt. split; [lia|].
    intros i Hi. rewrite E. apply nth_error_skipn.
Qed.

Lemma history_keeps_last_100_witness :
  DeviceSimulator.data_history
    (fst (fst (DeviceSimulator.send_all
                 (DeviceSimulator.with_callbacks Samples.pump_cfg [])
                 [ [("n", VInt 1)]; [("n", VInt 2)] ] tt)))
  = [ [("n", VInt 1)]; [("n", VInt 2)] ].
Proof.
  apply (history_keeps_last_100 unit Samples.pump_cfg []
           [ [("n", VInt 1)]; [("n", VInt 2)] ] tt).
  simpl. lia.
Defined.

(** ** Runner lifecycle *)

Section Lifecycle.
Import DeviceSimulator.
Context {W : Type}.

Lemma stop_when_stopped cur (self : BaseDeviceSimulator W) :
  stopped self ->
  stop cur self
  = (self,
     [LogStopped (device_type (config self)) (device_id (config self))],
     Ok tt).
Proof.
  intros (Hrun & Hth). unfold stop.
  destruct self as [cfg run th hist cbs]. simpl in *. subst run.
  destruct Hth as [-> | (t & -> & Ht)]; simpl; [reflexivity|].
  unfold join. rewrite Ht. reflexivity.
Qed.

Lemma stop_gives_stopped cur (self self' : BaseDeviceSimulator W) out :
  stop cur self = (self', out, Ok tt) ->
  stopped self' /\ config self' = config self /\
  out = [LogStopped (device_type (config self)) (device_id (config self))].
Proof.
  unfold stop, stopped. destruct self as [cfg run th hist cbs]. simpl.
  destruct th as [t|]; simpl.
  - unfold join. destruct (alive t) eqn:Ht.
    + destruct (Nat.eqb (ident t) cur); [discriminate|].
      intros H; inversion H; subst; simpl. repeat split.
      right. eexists; split; reflexivity.
    + intros H; inversion H; subst; simpl. repeat split.
      right. exists t. split; [reflexivity | exact Ht].
  - intros H; inversion H; subst; simpl. repeat split. now left.
Qed.

Lemma start_gives_running fresh (self : BaseDeviceSimulator W) :
  running (fst (fst (start fresh self))) = true.
Proof.
  unfold start. destruct (running self) eqn:E; simpl; [exact E|reflexivity].
Qed.

End Lifecycle.

(** C9. Lifecycle operations are idempotent.  [stop] on a runner that is
    stopped (never started, or started and stopped) does not raise and
    returns the runner unchanged, printing its one line; a second [stop]
    after a [stop] that returned gives the same runner again.  [start] on a
    running runner returns the runner unchanged and starts no thread; a
    second [start] after a [start] starts no thread. *)
Theorem lifecycle_idempotent :
  forall (W : Type) (self : DeviceSimulator.BaseDeviceSimulator W),
    (forall cur,
        DeviceSimulator.stopped self ->
        DeviceSimulator.stop cur self
        = (self,
           [DeviceSimulator.LogStopped
              (DeviceSimulator.device_type (DeviceSimulator.config self))
              (DeviceSimulator.device_id (DeviceSimulator.config self))],
           Ok tt))
    /\
    (forall cur cur' self' out,
        DeviceSimulator.stop cur self = (self', out, Ok tt) ->
        DeviceSimulator.stop cur' self' = (self', out, Ok tt)) /\
    (forall fresh,
        DeviceSimulator.running self = true ->
        DeviceSimulator.start fresh self = (self, [], [])) /\
    (forall fresh fresh',
        DeviceSimulator.start fresh'
          (fst (fst (DeviceSimulator.start fresh self)))
        = (fst (fst (DeviceSimulator.start fresh self)), [], [])).
Proof.
  intros W self. repeat split.
  - intros cur H. now apply stop_when_stopped.
  - intros cur cur' self' out H.
    destruct (stop_gives_stopped _ _ _ _ H) as (Hs & Hc & ->).
    rewrite (stop_when_stopped cur' self' Hs), Hc. reflexivity.
  - intros fresh H. unfold DeviceSimulator.start. now rewrite H.
  - intros fresh fresh'.
    pose proof (start_gives_running fresh self) as H.
    unfold DeviceSimulator.start at 1. now rewrite H.
Qed.

Lemma lifecycle_idempotent_witness :
  DeviceSimulator.stop 0%nat Samples.stopped_runner
  = (Samples.stopped_runner,
     [DeviceSimulator.LogStopped "infusion_pump" "pump_001"], Ok tt) /\
  DeviceSimulator.start 2%nat Samples.running_runner
  = (Samples.running_runner, [], []).
Proof.
  destruct (lifecycle_idempotent unit Samples.stopped_runner)
    as (Hstop & _).
  destruct (lifecycle_idempotent unit Samples.running_runner)
    as (_ & _ & Hstart & _).
  split.
  - apply Hstop. split; [reflexivity|].
    right. eexists. split; reflexivity.
  - apply Hstart. reflexivity.
Defined.

(** ** Sinks *)

Section SinkFacts.
Import DataSink.
Variable format_value : value -> string.
Variable json_dumps : value -> string.

Lemma console_disabled sink data w :
  enabled sink = false ->
  ConsoleDataSink.write data {| self := sink; env := w |}
  = ({| self := sink; env := w |}, Ok tt).
Proof.
  intros H. unfold ConsoleDataSink.write, mbind, get_self. simpl.
  now rewrite H.
Qed.

Lemma file_disabled sink data w :
  enabled sink = false ->
  FileDataSink.write format_value json_dumps data
    {| self := sink; env := w |}
  = ({| self := sink; env := w |}, Ok tt).
Proof.
  intros H. unfold FileDataSink.write, mbind, get_self. simpl.
  now rewrite H.
Qed.

Lemma database_disabled sink data w :
  enabled sink = false ->
  DatabaseDataSink.write json_dumps data {| self := sink; env := w |}
  = ({| self := sink; env := w |}, Ok tt).
Proof.
  intros H. unfold DatabaseDataSink.write, mbind, get_self. simpl.
  now rewrite H.
Qed.

Lemma api_disabled sink data w :
  enabled sink = false ->
  APIDataSink.write data {| self := sink; env := w |}
  = ({| self := sink; env := w |}, Ok tt).
Proof.
  intros H. unfold APIDataSink.write, mbind, get_self. simpl.
  now rewrite H.
Qed.

End SinkFacts.

(** C10. For each of the four sink classes (console, file, database, API),
    [write] called directly on a sink whose enabled flag is false returns
    normally and changes nothing: nothing is printed, no file is written, the
    database connection and the queue are as before. *)
Theorem disabled_sink_write_has_no_effect :
  forall format_value json_dumps (sink : DataSink.DataSink) data w,
    DataSink.enabled sink = false ->
    DataSink.impl sink <> DataSink.IBase ->
    DataSink.DataSinkManager.sink_write format_value json_dumps data
      {| DataSink.self := sink; DataSink.env := w |}
    = ({| DataSink.self := sink; DataSink.env := w |}, Ok tt).
Proof.
  intros fv jd sink data w Hoff Hcls.
  unfold DataSink.DataSinkManager.sink_write. simpl.
  destruct (DataSink.impl sink) eqn:E.
  - now elim Hcls.
  - now apply console_disabled.
  - now apply file_disabled.
  - now apply database_disabled.
  - now apply api_disabled.
Qed.

Lemma disabled_sink_write_has_no_effect_witness :
  DataSink.DataSinkManager.sink_write Samples.show Samples.show
    Samples.pump_record
    {| DataSink.self := Samples.disabled_console;
       DataSink.env := Samples.empty_world |}
  = ({| DataSink.self := Samples.disabled_console;
        DataSink.env := Samples.empty_world |}, Ok tt).
Proof.
  apply disabled_sink_write_has_no_effect.
  - reflexivity.
  - discriminate.
Defined.

(** C6 (the code departs from it).  On an infusion-pump record that lacks
    [flow_rate], the console sink prints the placeholder ["N/A"] and the
    file and API sinks accept the record, but the database sink raises
    [KeyError] on [data['flow_rate']], after it has inserted the row of the
    common table into the open transaction and before any commit. *)
Theorem database_write_raises_on_missing_field :
  forall format_value json_dumps remote,
    DataSink.DatabaseDataSink.write json_dumps Samples.pump_record_no_flow
      {| DataSink.self := DataSink.DatabaseDataSink.__init__;
         DataSink.env := Samples.empty_world |}
    = ({| DataSink.self :=
            {| DataSink.name := "database"; DataSink.enabled := true;
               DataSink.impl :=
                 DataSink.IDatabase
                   {| DataSink.committed := [];
                      DataSink.pending :=
                        [ {| DataSink.table := "device_data";
                             DataSink.params :=
                               [ VStr "pump_001"; VStr "infusion_pump";
                                 VStr "Room_101";
                                 VStr "2024-01-01T00:00:00"; VStr "abc123";
                                 VStr (json_dumps
                                         (VDict Samples.pump_record_no_flow))
                               ] |} ] |} |};
          DataSink.env := Samples.empty_world |},
       Raise (KeyError "flow_rate")) /\
    DataSink.ConsoleDataSink.write Samples.pump_record_no_flow
      {| DataSink.self := DataSink.ConsoleDataSink.__init__ "detailed";
         DataSink.env := Samples.empty_world |}
    = ({| DataSink.self := DataSink.ConsoleDataSink.__init__ "detailed";
          DataSink.env :=
            {| DataSink.stdout :=
                 [ DataSink.PrintDetailed (VStr "2024-01-01T00:00:00")
                     (VStr "infusion_pump") (VStr "pump_001")
                     (VStr "Room_101");
                   DataSink.PrintPump (VStr "N/A") (VFloat 25.8) ];
               DataSink.fs := [] |} |}, Ok tt) /\
    snd (DataSink.FileDataSink.write format_value json_dumps
           Samples.pump_record_no_flow
           {| DataSink.self := DataSink.FileDataSink.__init__ "out" "csv";
              DataSink.env := Samples.empty_world |}) = Ok tt /\
    snd (DataSink.APIDataSink.write Samples.pump_record_no_flow
           {| DataSink.self :=
                DataSink.APIDataSink.__init__ remote "http://api" None 1;
              DataSink.env := Samples.empty_world |}) = Ok tt.
Proof.
  intros fv jd remote. repeat split; reflexivity.
Qed.

(** ** The sink registry *)

Section Keeps.
Import DataSink.

Lemma keeps_ret {A} (a : A) : keeps (ret a).
Proof. intros c; now split. Qed.

Lemma keeps_raise {A} e : keeps (@raise A e).
Proof. intros c; now split. Qed.

Lemma keeps_lift {A} (r : result A) : keeps (lift r).
Proof. intros c; now split. Qed.

Lemma keeps_get_self : keeps get_self.
Proof. intros c; now split. Qed.

Lemma keeps_print l : keeps (print l).
Proof. intros c; now split. Qed.

Lemma keeps_set_impl i : keeps (set_impl i).
Proof. intros c; now split. Qed.

Lemma keeps_file_exists p : keeps (file_exists p).
Proof. intros c; now split. Qed.

Lemma keeps_write_lines p ls : keeps (write_lines p ls).
Proof. intros c; now split. Qed.

Lemma keeps_bind {A B} (m : M A) (k : A -> M B) :
  keeps m -> (forall a, keeps (k a)) -> keeps (mbind m k).
Proof.
  intros Hm Hk c. unfold mbind.
  specialize (Hm c). destruct (m c) as [c' [a|e]]; simpl in *.
  - destruct (Hk a c') as [H1 H2]. destruct Hm as [H3 H4].
    split; congruence.
  - exact Hm.
Qed.

Lemma keeps_try {A} (m : M A) (h : exn -> M A) :
  keeps m -> (forall e, keeps (h e)) ->
  keeps (APIDataSink.try_except m h).
Proof.
  intros Hm Hh c. unfold APIDataSink.try_except.
  specialize (Hm c). destruct (m c) as [c' [a|e]]; simpl in *.
  - exact Hm.
  - destruct (Hh e c') as [H1 H2]. destruct Hm as [H3 H4].
    split; congruence.
Qed.

Lemma keeps_conn : keeps DatabaseDataSink.conn.
Proof.
  intros c. unfold DatabaseDataSink.conn.
  destruct (impl (self c)); now split.
Qed.

Lemma keeps_api : keeps APIDataSink.api.
Proof.
  intros c. unfold APIDataSink.api.
  destruct (impl (self c)); now split.
Qed.

End Keeps.

Create HintDb keeps.

#[local] Hint Resolve keeps_ret keeps_raise keeps_lift keeps_get_self
  keeps_print keeps_set_impl keeps_file_exists keeps_write_lines
  keeps_conn keeps_api : keeps.

Ltac keeps_step :=
  match goal with
  | |- DataSink.keeps (DataSink.mbind _ _) =>
      apply keeps_bind; [|intros]
  | |- DataSink.keeps (DataSink.APIDataSink.try_except _ _) =>
      apply keeps_try; [|intros]
  | |- DataSink.keeps (if ?b then _ else _) => destruct b
  | |- DataSink.keeps (match ?x with _ => _ end) => destruct x
  | |- DataSink.keeps _ => solve [auto with keeps]
  end.

Section Registry.
Import DataSink DataSink.DataSinkManager.
Variable format_value : value -> string.
Variable json_dumps : value -> string.

Lemma keeps_console data : keeps (ConsoleDataSink.write data).
Proof.
  unfold ConsoleDataSink.write, item. repeat keeps_step.
Qed.

Lemma keeps_file data :
  keeps (FileDataSink.write format_value json_dumps data).
Proof.
  unfold FileDataSink.write, FileDataSink._write_json,
    FileDataSink._write_csv, item.
  repeat keeps_step.
Qed.

Lemma keeps_execute t ps : keeps (DatabaseDataSink.execute t ps).
Proof. unfold DatabaseDataSink.execute. repeat keeps_step. Qed.

Lemma keeps_commit : keeps DatabaseDataSink.commit.
Proof. unfold DatabaseDataSink.commit. repeat keeps_step. Qed.

Lemma keeps_database data :
  keeps (DatabaseDataSink.write json_dumps data).
Proof.
  unfold DatabaseDataSink.write, item.
  repeat first [ apply keeps_execute | apply keeps_commit | keeps_step ].
Qed.

Lemma keeps_api_write data : keeps (APIDataSink.write data).
Proof.
  unfold APIDataSink.write, APIDataSink.put. repeat keeps_step.
Qed.

Lemma keeps_sink_write data :
  keeps (sink_write format_value json_dumps data).
Proof.
  intros c. unfold sink_write.
  destruct (impl (self c)).
  - now split.
  - apply keeps_console.
  - apply keeps_file.
  - apply keeps_database.
  - apply keeps_api_write.
Qed.

End Registry.

Section Fanout.
Import DataSink DataSink.DataSinkManager.
Variable format_value : value -> string.
Variable json_dumps : value -> string.

Local Abbreviation write_to_all :=
  (write_to_all format_value json_dumps).
Local Abbreviation write_records :=
  (write_records format_value json_dumps).
Local Abbreviation sink_write := (sink_write format_value json_dumps).

Lemma write_to_all_cons sink rest data w :
  write_to_all (sink :: rest) data w
  = let '(sink', w', calls) :=
      if enabled sink then
        match sink_write data {| self := sink; env := w |} with
        | (c, Ok _) => (self c, env c, [(name sink, data)])
        | (c, Raise e) =>
            (self c,
             {| stdout := stdout (env c)
                            ++ [PrintWriteError (name sink) e];
                fs := fs (env c) |},
             [(name sink, data)])
        end
      else (sink, w, []) in
    let '(rest', w'', calls') := write_to_all rest data w' in
    (sink' :: rest', w'', calls ++ calls').
Proof. reflexivity. Qed.

Lemma write_to_all_calls sinks data :
  forall w, snd (write_to_all sinks data w) = expected_calls sinks data.
Proof.
  induction sinks as [|sink rest IH]; intros w; [reflexivity|].
  rewrite write_to_all_cons. unfold expected_calls. simpl filter.
  destruct (enabled sink).
  - destruct (sink_write data {| self := sink; env := w |})
      as [c [[]|e]];
      match goal with
      | |- context [write_to_all rest data ?w1] =>
          specialize (IH w1); destruct (write_to_all rest data w1)
            as [[rest' w''] calls']
      end; simpl in *; now rewrite IH.
  - specialize (IH w).
    destruct (write_to_all rest data w) as [[rest' w''] calls'].
    simpl in *. now rewrite IH.
Qed.

Lemma write_to_all_flags sinks data :
  forall w, flags (fst (fst (write_to_all sinks data w))) = flags sinks.
Proof.
  induction sinks as [|sink rest IH]; intros w; [reflexivity|].
  rewrite write_to_all_cons.
  destruct (enabled sink) eqn:Een.
  - pose proof (keeps_sink_write format_value json_dumps data
                  {| self := sink; env := w |}) as [Hn He].
    simpl in Hn, He.
    destruct (sink_write data {| self := sink; env := w |})
      as [c [[]|e]];
      match goal with
      | |- context [write_to_all rest data ?w1] =>
          specialize (IH w1); destruct (write_to_all rest data w1)
            as [[rest' w''] calls']
      end; simpl in *; rewrite IH, Hn, He; reflexivity.
  - specialize (IH w).
    destruct (write_to_all rest data w) as [[rest' w''] calls'].
    simpl in *. rewrite IH, Een. reflexivity.
Qed.

Lemma expected_calls_flags a : forall b data,
  flags a = flags b -> expected_calls a data = expected_calls b data.
Proof.
  unfold expected_calls.
  induction a as [|x a IH]; intros [|y b] data H; try discriminate;
    [reflexivity|].
  simpl in H. inversion H as [[Hn He Hrest]].
  simpl. rewrite He. destruct (enabled y); simpl;
    rewrite (IH b data Hrest); [rewrite Hn|]; reflexivity.
Qed.

Lemma write_records_calls rs : forall sinks w,
  snd (write_records sinks rs w) = flat_map (expected_calls sinks) rs.
Proof.
  induction rs as [|r rs IH]; intros sinks w; [reflexivity|].
  simpl.
  pose proof (write_to_all_calls sinks r w) as Hc.
  pose proof (write_to_all_flags sinks r w) as Hf.
  destruct (write_to_all sinks r w) as [[sinks1 w1] calls1].
  specialize (IH sinks1 w1).
  destruct (write_records sinks1 rs w1) as [[sinks2 w2] calls2].
  simpl in *. rewrite Hc, IH. f_equal.
  apply flat_map_ext. intros data. now apply expected_calls_flags.
Qed.

End Fanout.

(** ** Standard output is written, never read *)

Section Frames.
Import DataSink.

Lemma with_stdout_id c : with_stdout c (stdout (env c)) = c.
Proof. destruct c as [s [out files]]. reflexivity. Qed.

Lemma with_stdout_twice c a b :
  with_stdout (with_stdout c a) b = with_stdout c b.
Proof. reflexivity. Qed.

Lemma frames_ret {A} (a : A) : frames (ret a).
Proof. intros c out. unfold ret, with_stdout. cbn. now rewrite app_nil_r. Qed.

Lemma frames_raise {A} e : frames (@raise A e).
Proof.
  intros c out. unfold raise, with_stdout. cbn. now rewrite app_nil_r.
Qed.

Lemma frames_lift {A} (r : result A) : frames (lift r).
Proof. intros c out. unfold lift, with_stdout. cbn. now rewrite app_nil_r. Qed.

Lemma frames_get_self : frames get_self.
Proof.
  intros c out. unfold get_self, with_stdout. cbn. now rewrite app_nil_r.
Qed.

Lemma frames_print l : frames (print l).
Proof. intros c out. reflexivity. Qed.

Lemma frames_set_impl i : frames (set_impl i).
Proof.
  intros c out. unfold set_impl, with_stdout. cbn. now rewrite app_nil_r.
Qed.

Lemma frames_file_exists p : frames (file_exists p).
Proof.
  intros c out. unfold file_exists, with_stdout. cbn. now rewrite app_nil_r.
Qed.

Lemma frames_write_lines p ls : frames (write_lines p ls).
Proof.
  intros c out. unfold write_lines, with_stdout. cbn. now rewrite app_nil_r.
Qed.

Lemma frames_conn : frames DatabaseDataSink.conn.
Proof.
  intros c out. unfold DatabaseDataSink.conn, with_stdout. cbn.
  destruct (impl (self c)); cbn; now rewrite app_nil_r.
Qed.

Lemma frames_api : frames APIDataSink.api.
Proof.
  intros c out. unfold APIDataSink.api, with_stdout. cbn.
  destruct (impl (self c)); cbn; now rewrite app_nil_r.
Qed.

Lemma frames_bind {A B} (m : M A) (k : A -> M B) :
  frames m -> (forall a, frames (k a)) -> frames (mbind m k).
Proof.
  intros Hm Hk c out. unfold mbind. rewrite (Hm c out).
  destruct (m (with_stdout c [])) as [c1 [a|e]]; cbn [fst snd].
  - pose proof (Hk a c1 (stdout (env c1))) as H2.
    rewrite with_stdout_id in H2.
    rewrite (Hk a c1 (out ++ stdout (env c1))), H2.
    destruct (k a (with_stdout c1 [])) as [c2 r2]. cbn [fst snd].
    unfold with_stdout. cbn. now rewrite app_assoc.
  - reflexivity.
Qed.


Lemma files_ret {A} (a : A) : leaves_files (ret a).
Proof. intros c; reflexivity. Qed.

Lemma files_raise {A} e : leaves_files (@raise A e).
Proof. intros c; reflexivity. Qed.

Lemma files_lift {A} (r : result A) : leaves_files (lift r).
Proof. intros c; reflexivity. Qed.

Lemma files_get_self : leaves_files get_self.
Proof. intros c; reflexivity. Qed.

Lemma files_print l : leaves_files (print l).
Proof. intros c; reflexivity. Qed.

Lemma files_set_impl i : leaves_files (set_impl i).
Proof. intros c; reflexivity. Qed.

Lemma files_conn : leaves_files DatabaseDataSink.conn.
Proof.
  intros c. unfold DatabaseDataSink.conn. now destruct (impl (self c)).
Qed.

Lemma files_api : leaves_files APIDataSink.api.
Proof. intros c. unfold APIDataSink.api. now destruct (impl (self c)). Qed.

Lemma files_bind {A B} (m : M A) (k : A -> M B) :
  leaves_files m -> (forall a, leaves_files (k a)) ->
  leaves_files (mbind m k).
Proof.
  intros Hm Hk c. unfold mbind. specialize (Hm c).
  destruct (m c) as [c' [a|e]]; simpl in *.
  - now rewrite (Hk a c').
  - exact Hm.
Qed.

End Frames.

Create HintDb frames.

#[local] Hint Resolve frames_ret frames_raise frames_lift frames_get_self
  frames_print frames_set_impl frames_file_exists frames_write_lines
  frames_conn frames_api : frames.

Create HintDb files.

#[local] Hint Resolve files_ret files_raise files_lift files_get_self
  files_print files_set_impl files_conn files_api : files.

Ltac frames_step :=
  match goal with
  | |- DataSink.frames (DataSink.mbind _ _) =>
      apply frames_bind; [|intros]
  | |- DataSink.frames (if ?b then _ else _) => destruct b
  | |- DataSink.frames (match ?x with _ => _ end) => destruct x
  | |- DataSink.frames _ => solve [auto with frames]
  end.

Ltac files_step :=
  match goal with
  | |- DataSink.leaves_files (DataSink.mbind _ _) =>
      apply files_bind; [|intros]
  | |- DataSink.leaves_files (if ?b then _ else _) => destruct b
  | |- DataSink.leaves_files (match ?x with _ => _ end) => destruct x
  | |- DataSink.leaves_files _ => solve [auto with files]
  end.

Section SinkFrames.
Import DataSink DataSink.DataSinkManager.
Variable format_value : value -> string.
Variable json_dumps : value -> string.

Lemma frames_console data : frames (ConsoleDataSink.write data).
Proof. unfold ConsoleDataSink.write, item. repeat frames_step. Qed.

Lemma frames_file data :
  frames (FileDataSink.write format_value json_dumps data).
Proof.
  unfold FileDataSink.write, FileDataSink._write_json,
    FileDataSink._write_csv, item.
  repeat frames_step.
Qed.

Lemma frames_execute t ps : frames (DatabaseDataSink.execute t ps).
Proof. unfold DatabaseDataSink.execute. repeat frames_step. Qed.

Lemma frames_commit : frames DatabaseDataSink.commit.
Proof. unfold DatabaseDataSink.commit. repeat frames_step. Qed.

Lemma frames_database data :
  frames (DatabaseDataSink.write json_dumps data).
Proof.
  unfold DatabaseDataSink.write, item.
  repeat first [ apply frames_execute | apply frames_commit | frames_step ].
Qed.

Lemma frames_api_write data : frames (APIDataSink.write data).
Proof. unfold APIDataSink.write, APIDataSink.put. repeat frames_step. Qed.

Lemma frames_sink_write data :
  frames (sink_write format_value json_dumps data).
Proof.
  intros c out. unfold sink_write.
  change (impl (self (with_stdout c out))) with (impl (self c)).
  change (impl (self (with_stdout c []))) with (impl (self c)).
  destruct (impl (self c)).
  - unfold write, raise, with_stdout. cbn. now rewrite app_nil_r.
  - apply frames_console.
  - apply frames_file.
  - apply frames_database.
  - apply frames_api_write.
Qed.

Lemma files_console data : leaves_files (ConsoleDataSink.write data).
Proof. unfold ConsoleDataSink.write, item. repeat files_step. Qed.

Lemma files_execute t ps : leaves_files (DatabaseDataSink.execute t ps).
Proof. unfold DatabaseDataSink.execute. repeat files_step. Qed.

Lemma files_commit : leaves_files DatabaseDataSink.commit.
Proof. unfold DatabaseDataSink.commit. repeat files_step. Qed.

Lemma files_database data :
  leaves_files (DatabaseDataSink.write json_dumps data).
Proof.
  unfold DatabaseDataSink.write, item.
  repeat first [ apply files_execute | apply files_commit | files_step ].
Qed.

Lemma files_api_write data : leaves_files (APIDataSink.write data).
Proof. unfold APIDataSink.write, APIDataSink.put. repeat files_step. Qed.

(** A file sink whose write raises has written nothing. *)
Lemma file_write_raises data c e :
  snd (FileDataSink.write format_value json_dumps data c) = Raise e ->
  fst (FileDataSink.write format_value json_dumps data c) = c.
Proof.
  unfold FileDataSink.write, mbind, get_self, item, lift, ret.
  destruct (enabled (self c)); cbn [negb]; [|discriminate].
  destruct (getitem data "device_type") as [dt|e']; [|reflexivity].
  destruct (String.eqb (FileDataSink.format (self c)) "json");
    [discriminate|].
  destruct (String.eqb (FileDataSink.format (self c)) "csv");
    [|discriminate].
  unfold FileDataSink._write_csv, mbind, get_self, file_exists, write_lines.
  cbn. destruct (exists_ _ _); discriminate.
Qed.

(** Whatever its class, a sink whose write raises has left the files as
    they were. *)
Lemma sink_write_raises_files data c e :
  snd (sink_write format_value json_dumps data c) = Raise e ->
  fs (env (fst (sink_write format_value json_dumps data c))) = fs (env c).
Proof.
  unfold sink_write. destruct (impl (self c)); intros H.
  - reflexivity.
  - apply files_console.
  - now rewrite (file_write_raises data c e H).
  - apply files_database.
  - apply files_api_write.
Qed.

Local Abbreviation write_to_all :=
  (write_to_all format_value json_dumps).
Local Abbreviation write_records :=
  (write_records format_value json_dumps).
Local Abbreviation sink_write := (sink_write format_value json_dumps).

Lemma write_to_all_app l1 : forall l2 data w,
  write_to_all (l1 ++ l2) data w
  = let '(l1', w1, calls1) := write_to_all l1 data w in
    let '(l2', w2, calls2) := write_to_all l2 data w1 in
    (l1' ++ l2', w2, calls1 ++ calls2).
Proof.
  induction l1 as [|x l1 IH]; intros l2 data w.
  - cbn. now destruct (write_to_all l2 data w) as [[l2' w2] calls2].
  - cbn [app]. rewrite !write_to_all_cons.
    destruct (if enabled x then _ else _) as [[x' w'] calls].
    rewrite IH.
    destruct (write_to_all l1 data w') as [[l1' w1] calls1].
    destruct (write_to_all l2 data w1) as [[l2' w2] calls2].
    cbn. now rewrite app_assoc.
Qed.

(** [write_to_all] reads nothing of standard output either. *)
Lemma write_to_all_stdout sinks data : forall files out,
  write_to_all sinks data {| stdout := out; fs := files |}
  = let '(sinks', w', calls) :=
      write_to_all sinks data {| stdout := []; fs := files |} in
    (sinks', {| stdout := out ++ stdout w'; fs := fs w' |}, calls).
Proof.
  induction sinks as [|x sinks IH]; intros files out.
  - cbn. now rewrite app_nil_r.
  - rewrite !write_to_all_cons.
    destruct (enabled x).
    + pose proof (frames_sink_write data
                    {| self := x; env := {| stdout := []; fs := files |} |}
                    out) as Hf.
      unfold with_stdout in Hf. cbn [self env fs] in Hf. rewrite Hf.
      destruct (DataSinkManager.sink_write format_value json_dumps data
                  {| self := x; env := {| stdout := []; fs := files |} |})
        as [c r].
      cbn [fst snd]. destruct r as [[]|e]; cbn [self env stdout fs].
      * rewrite (IH (fs (env c)) (out ++ stdout (env c))).
        destruct (env c) as [o f] eqn:Ec. cbn [stdout fs].
        rewrite (IH f o).
        destruct (write_to_all sinks data {| stdout := []; fs := f |})
          as [[s' w'] calls']. cbn. now rewrite app_assoc.
      * rewrite (IH (fs (env c))
                   ((out ++ stdout (env c)) ++ [PrintWriteError (name x) e])).
        rewrite (IH (fs (env c))
                   (stdout (env c) ++ [PrintWriteError (name x) e])).
        destruct (write_to_all sinks data
                    {| stdout := []; fs := fs (env c) |})
          as [[s' w'] calls']. cbn. now rewrite <- !app_assoc.
    + rewrite (IH files out).
      destruct (write_to_all sinks data {| stdout := []; fs := files |})
        as [[s' w'] calls']. reflexivity.
Qed.

End SinkFrames.

Section Isolation.
Import DataSink DataSink.DataSinkManager.
Variable format_value : value -> string.
Variable json_dumps : value -> string.

Local Abbreviation write_to_all :=
  (write_to_all format_value json_dumps).
Local Abbreviation write_records :=
  (write_records format_value json_dumps).
Local Abbreviation sink_write := (sink_write format_value json_dumps).

(** Two worlds with the same files: [write_to_all] leaves the same sinks
    and the same files, makes the same calls and prints the same lines. *)
Lemma write_to_all_same_files sinks data w w' :
  fs w = fs w' ->
  exists sinks1 files lines calls,
    write_to_all sinks data w
    = (sinks1, {| stdout := stdout w ++ lines; fs := files |}, calls) /\
    write_to_all sinks data w'
    = (sinks1, {| stdout := stdout w' ++ lines; fs := files |}, calls).
Proof.
  intros Hfs. destruct w as [out files], w' as [out' files'].
  cbn in Hfs. subst files'.
  rewrite (write_to_all_stdout format_value json_dumps sinks data files out),
    (write_to_all_stdout format_value json_dumps sinks data files out').
  destruct (write_to_all sinks data {| stdout := []; fs := files |})
    as [[s1 w1] calls].
  exists s1, (fs w1), (stdout w1), calls. now split.
Qed.

Lemma write_to_all_raising A sinks data w c e :
  enabled A = true ->
  sink_write data {| self := A; env := w |} = (c, Raise e) ->
  let '(sinks1, w1, calls1) := write_to_all (A :: sinks) data w in
  let '(sinks0, w0, calls0) := write_to_all sinks data w in
  sinks1 = self c :: sinks0 /\
  fs w1 = fs w0 /\
  calls1 = (name A, data) :: calls0 /\
  exists mine theirs,
    stdout (env c) = stdout w ++ mine /\
    stdout w0 = stdout w ++ theirs /\
    stdout w1
    = stdout w ++ mine ++ [PrintWriteError (name A) e] ++ theirs.
Proof.
  intros Hen Hw. rewrite write_to_all_cons, Hen, Hw.
  pose proof (sink_write_raises_files format_value json_dumps data
                {| self := A; env := w |} e) as Hfs.
  rewrite Hw in Hfs. cbn [fst snd self env] in Hfs.
  specialize (Hfs eq_refl).
  pose proof (frames_sink_write format_value json_dumps data
                {| self := A; env := w |} (stdout w)) as Hfr.
  rewrite with_stdout_id, Hw in Hfr.
  injection Hfr as Hc _.
  set (c0 := fst (DataSinkManager.sink_write format_value json_dumps data
                    (with_stdout {| self := A; env := w |} []))) in *.
  assert (Hout : stdout (env c) = stdout w ++ stdout (env c0))
    by (rewrite Hc; reflexivity).
  destruct (write_to_all_same_files sinks data w
              {| stdout := stdout (env c) ++ [PrintWriteError (name A) e];
                 fs := fs (env c) |}) as (s1 & files & lines & calls & E0 & E1).
  { cbn. now rewrite Hfs. }
  rewrite E0, E1. cbn [stdout fs].
  repeat split.
  exists (stdout (env c0)), lines. repeat split; [exact Hout|].
  rewrite Hout, <- !app_assoc. reflexivity.
Qed.

(** A sink whose [write] raises on every record of a run, in every state
    [P] it goes through, changes nothing for the sinks registered after
    it, record after record. *)
Lemma write_records_after_raising (P : DataSink -> Prop) rs :
  (forall A d w,
      P A -> In d rs ->
      enabled A = true /\
      exists c e,
        sink_write d {| self := A; env := w |} = (c, Raise e) /\
        P (self c)) ->
  forall A sinks w w',
    P A -> fs w = fs w' ->
    let '(sinks1, w1, _) := write_records (A :: sinks) rs w' in
    let '(sinks2, w2, _) := write_records sinks rs w in
    fs w1 = fs w2 /\ exists A', P A' /\ sinks1 = A' :: sinks2.
Proof.
  induction rs as [|r rs IH]; intros H A sinks w w' HP Hfs.
  - cbn. split; [now symmetry|]. now exists A.
  - cbn [DataSinkManager.write_records].
    destruct (H A r w' HP (or_introl eq_refl)) as (Hen & c & e & Hw & HP').
    rewrite write_to_all_cons, Hen, Hw.
    pose proof (sink_write_raises_files format_value json_dumps r
                  {| self := A; env := w' |} e) as Hc.
    rewrite Hw in Hc. cbn [fst snd self env] in Hc.
    specialize (Hc eq_refl).
    destruct (write_to_all_same_files sinks r w
                {| stdout := stdout (env c) ++ [PrintWriteError (name A) e];
                   fs := fs (env c) |})
      as (s1 & files & lines & calls & E0 & E1).
    { cbn. congruence. }
    rewrite E0, E1.
    assert (H' : forall A0 d w0,
               P A0 -> In d rs ->
               enabled A0 = true /\
               exists c0 e0,
                 sink_write d {| self := A0; env := w0 |} = (c0, Raise e0) /\
                 P (self c0)).
    { intros A0 d w0 HA Hin. apply H; [exact HA | now right]. }
    specialize (IH H' (self c) s1
                  {| stdout := stdout w ++ lines; fs := files |}
                  {| stdout := (stdout (env c)
                                ++ [PrintWriteError (name A) e]) ++ lines;
                     fs := files |} HP' eq_refl).
    destruct (DataSinkManager.write_records format_value json_dumps
                (self c :: s1) rs _) as [[sinks1 w1] calls1].
    destruct (DataSinkManager.write_records format_value json_dumps
                s1 rs _) as [[sinks2 w2] calls2].
    exact IH.
Qed.

Lemma write_to_all_at pre A post data w :
  let '(pre', w1, _) := write_to_all pre data w in
  let '(c, r) := sink_write data {| self := A; env := w1 |} in
  let w2 := match r with
            | Ok _ => env c
            | Raise e =>
                {| stdout := stdout (env c)
                               ++ [PrintWriteError (name A) e];
                   fs := fs (env c) |}
            end in
  (enabled A = true ->
   let '(post', w3, _) := write_to_all post data w2 in
   fst (write_to_all (pre ++ A :: post) data w)
   = (pre' ++ self c :: post', w3)) /\
  (enabled A = false ->
   let '(post', w3, _) := write_to_all post data w1 in
   fst (write_to_all (pre ++ A :: post) data w)
   = (pre' ++ A :: post', w3)).
Proof.
  rewrite write_to_all_app.
  destruct (write_to_all pre data w) as [[pre' w1] calls1].
  rewrite write_to_all_cons.
  destruct (DataSinkManager.sink_write format_value json_dumps data
              {| self := A; env := w1 |}) as [c r].
  split; intros Hen; rewrite Hen.
  - destruct r as [[]|e];
      match goal with
      | |- context [write_to_all post data ?w2] =>
          destruct (write_to_all post data w2) as [[post' w3] calls3]
      end; reflexivity.
  - destruct (write_to_all post data w1) as [[post' w3] calls3].
    reflexivity.
Qed.

End Isolation.

Section Delivery.
Import DataSink DataSink.DataSinkManager.
Variable format_value : value -> string.
Variable json_dumps : value -> string.

Local Abbreviation write_to_all :=
  (write_to_all format_value json_dumps).

Lemma write_to_all_length sinks data w :
  List.length (fst (fst (write_to_all sinks data w))) = List.length sinks.
Proof.
  pose proof (write_to_all_flags format_value json_dumps sinks data w) as H.
  apply (f_equal (@List.length _)) in H. unfold flags in H.
  now rewrite !length_map in H.
Qed.

(** An enabled API sink, wherever it is registered, has the record at the
    end of its queue afterwards. *)
Lemma write_to_all_enqueues pre A post a data w :
  enabled A = true -> impl A = IAPI a ->
  exists pre' post' w',
    fst (write_to_all (pre ++ A :: post) data w)
    = (pre'
       ++ {| name := name A; enabled := true;
             impl := IAPI {| api_url := api_url a;
                             auth_token := auth_token a;
                             batch_size := batch_size a;
                             batch_queue := batch_queue a ++ [data];
                             session := session a |} |}
       :: post', w') /\
    List.length pre' = List.length pre.
Proof.
  intros Hen Hi.
  pose proof (write_to_all_at format_value json_dumps pre A post data w)
    as H.
  pose proof (write_to_all_length pre data w) as Hl.
  destruct (write_to_all pre data w) as [[pre' w1] calls1].
  cbn [fst] in Hl.
  assert (E : DataSinkManager.sink_write format_value json_dumps data
                {| self := A; env := w1 |}
              = ({| self :=
                      {| name := name A; enabled := true;
                         impl := IAPI {| api_url := api_url a;
                                         auth_token := auth_token a;
                                         batch_size := batch_size a;
                                         batch_queue := batch_queue a
                                                        ++ [data];
                                         session := session a |} |};
                    env := w1 |}, Ok tt)).
  { unfold DataSinkManager.sink_write. cbn [self]. rewrite Hi.
    unfold APIDataSink.write, APIDataSink.put, APIDataSink.api, mbind,
      get_self, set_impl.
    cbn [self env]. rewrite Hen. cbn [negb self env].
    rewrite ?Hi. cbn [self env]. now rewrite ?Hen. }
  rewrite E in H. cbn [self env] in H.
  destruct H as [H _]. specialize (H Hen).
  destruct (write_to_all post data w1) as [[post' w3] calls3].
  exists pre', post', w3. split; [exact H | exact Hl].
Qed.

End Delivery.

(** C5. For every record and every ordered list of registered sinks,
    [write_to_all] calls [write] once on each sink whose enabled flag is true,
    in registration order, and on no disabled sink; over a run of records,
    every enabled sink is called with every record, in the order of the
    records.  When the write of the first sink raises, the exception is
    caught and logged, and the remaining sinks are served exactly as if the
    first had returned.

    The calls are not only counted: each enabled sink, wherever it is
    registered, receives the record, in that its state afterwards and the
    environment handed to the next sink are those that its own [write]
    leaves, started from the environment left by the sinks before it; a
    disabled sink is left as it was.  A sink whose write raises does not
    touch what the others get: the sinks after it end in the states, and
    the files with the contents, that they would have without that sink,
    and standard output differs only by the lines of the failing sink and
    the logged error.  Over a run of records, a sink whose write raises on
    every record leaves the sinks after it, and the files, as the run
    without it leaves them.  For one class as an instance: an enabled API
    sink, wherever it is registered, has the record at the end of its
    queue afterwards. *)
Theorem write_to_all_serves_every_enabled_sink :
  forall format_value json_dumps (sinks : list DataSink.DataSink),
    (forall data w,
        snd (DataSink.DataSinkManager.write_to_all
               format_value json_dumps sinks data w)
        = map (fun s => (DataSink.name s, data))
              (filter DataSink.enabled sinks)) /\
    (forall rs w,
        snd (DataSink.DataSinkManager.write_records
               format_value json_dumps sinks rs w)
        = flat_map
            (fun data => map (fun s => (DataSink.name s, data))
                             (filter DataSink.enabled sinks)) rs) /\
    (forall A data w c e,
        DataSink.enabled A = true ->
        DataSink.DataSinkManager.sink_write format_value json_dumps data
          {| DataSink.self := A; DataSink.env := w |} = (c, Raise e) ->
        DataSink.DataSinkManager.write_to_all
          format_value json_dumps (A :: sinks) data w
        = let '(sinks', w', calls) :=
            DataSink.DataSinkManager.write_to_all
              format_value json_dumps sinks data
              {| DataSink.stdout :=
                   DataSink.stdout (DataSink.env c)
                     ++ [DataSink.PrintWriteError (DataSink.name A) e];
                 DataSink.fs := DataSink.fs (DataSink.env c) |} in
          (DataSink.self c :: sinks', w', (DataSink.name A, data) :: calls))
    /\
    (forall pre A post data w,
        sinks = pre ++ A :: post ->
        let '(pre', w1, _) :=
          DataSink.DataSinkManager.write_to_all
            format_value json_dumps pre data w in
        let '(c, r) :=
          DataSink.DataSinkManager.sink_write format_value json_dumps data
            {| DataSink.self := A; DataSink.env := w1 |} in
        let w2 :=
          match r with
          | Ok _ => DataSink.env c
          | Raise e =>
              {| DataSink.stdout :=
                   DataSink.stdout (DataSink.env c)
                     ++ [DataSink.PrintWriteError (DataSink.name A) e];
                 DataSink.fs := DataSink.fs (DataSink.env c) |}
          end in
        (DataSink.enabled A = true ->
         let '(post', w3, _) :=
           DataSink.DataSinkManager.write_to_all
             format_value json_dumps post data w2 in
         fst (DataSink.DataSinkManager.write_to_all
                format_value json_dumps sinks data w)
         = (pre' ++ DataSink.self c :: post', w3)) /\
        (DataSink.enabled A = false ->
         let '(post', w3, _) :=
           DataSink.DataSinkManager.write_to_all
             format_value json_dumps post data w1 in
         fst (DataSink.DataSinkManager.write_to_all
                format_value json_dumps sinks data w)
         = (pre' ++ A :: post', w3))) /\
    (forall A data w c e,
        DataSink.enabled A = true ->
        DataSink.DataSinkManager.sink_write format_value json_dumps data
          {| DataSink.self := A; DataSink.env := w |} = (c, Raise e) ->
        let '(sinks1, w1, calls1) :=
          DataSink.DataSinkManager.write_to_all
            format_value json_dumps (A :: sinks) data w in
        let '(sinks0, w0, calls0) :=
          DataSink.DataSinkManager.write_to_all
            format_value json_dumps sinks data w in
        sinks1 = DataSink.self c :: sinks0 /\
        DataSink.fs w1 = DataSink.fs w0 /\
        calls1 = (DataSink.name A, data) :: calls0 /\
        exists mine theirs,
          DataSink.stdout (DataSink.env c) = DataSink.stdout w ++ mine /\
          DataSink.stdout w0 = DataSink.stdout w ++ theirs /\
          DataSink.stdout w1
          = DataSink.stdout w ++ mine
            ++ [DataSink.PrintWriteError (DataSink.name A) e] ++ theirs) /\
    (forall (P : DataSink.DataSink -> Prop) A rs w,
        P A ->
        (forall A' d w',
            P A' -> In d rs ->
            DataSink.enabled A' = true /\
            exists c e,
              DataSink.DataSinkManager.sink_write format_value json_dumps d
                {| DataSink.self := A'; DataSink.env := w' |}
              = (c, Raise e) /\
              P (DataSink.self c)) ->
        let '(sinks1, w1, _) :=
          DataSink.DataSinkManager.write_records
            format_value json_dumps (A :: sinks) rs w in
        let '(sinks0, w0, _) :=
          DataSink.DataSinkManager.write_records
            format_value json_dumps sinks rs w in
        DataSink.fs w1 = DataSink.fs w0 /\
        exists A', P A' /\ sinks1 = A' :: sinks0) /\
    (forall pre A post a data w,
        sinks = pre ++ A :: post ->
        DataSink.enabled A = true ->
        DataSink.impl A = DataSink.IAPI a ->
        exists pre' post' w',
          fst (DataSink.DataSinkManager.write_to_all
                 format_value json_dumps sinks data w)
          = (pre'
             ++ {| DataSink.name := DataSink.name A;
                   DataSink.enabled := true;
                   DataSink.impl :=
                     DataSink.IAPI
                       {| DataSink.api_url := DataSink.api_url a;
                          DataSink.auth_token := DataSink.auth_token a;
                          DataSink.batch_size := DataSink.batch_size a;
                          DataSink.batch_queue :=
                            DataSink.batch_queue a ++ [data];
                          DataSink.session := DataSink.session a |} |}
             :: post', w') /\
          List.length pre' = List.length pre).
Proof.
  intros fv jd sinks. split; [|split; [|split; [|split; [|split; [|split]]]]].
  - intros data w. apply write_to_all_calls.
  - intros rs w. apply write_records_calls.
  - intros A data w c e Hen Hw.
    rewrite write_to_all_cons, Hen, Hw. reflexivity.
  - intros pre A post data w ->. apply write_to_all_at.
  - intros A data w c e Hen Hw. now apply write_to_all_raising.
  - intros P A rs w HP H.
    now apply (write_records_after_raising fv jd P rs H A sinks w w).
  - intros pre A post a data w -> Hen Hi.
    now apply write_to_all_enqueues.
Qed.

Lemma write_to_all_serves_every_enabled_sink_witness :
  DataSink.DataSinkManager.write_to_all Samples.show Samples.show
    [Samples.sink_A; Samples.sink_B; Samples.sink_C; Samples.sink_D]
    Samples.pump_record Samples.empty_world
  = ([Samples.sink_A; Samples.sink_B; Samples.sink_C;
      {| DataSink.name := "api"; DataSink.enabled := true;
         DataSink.impl :=
           DataSink.IAPI
             {| DataSink.api_url := "http://api";
                DataSink.auth_token := None;
                DataSink.batch_size := 1;
                DataSink.batch_queue := [Samples.pump_record];
                DataSink.session :=
                  {| DataSink.headers := [];
                     DataSink.remote := Samples.always_created;
                     DataSink.posted := [] |} |} |}],
     {| DataSink.stdout :=
          [ DataSink.PrintWriteError "A" NotImplementedError;
            DataSink.PrintSimple (VStr "infusion_pump") (VStr "pump_001")
              (VStr "2024-01-01T00:00:00") ];
        DataSink.fs :=
          [ ("out/infusion_pump_data.jsonl",
             [DataSink.TextLine
                (Samples.show (VDict Samples.pump_record))]) ] |},
     [ ("A", Samples.pump_record); ("console", Samples.pump_record);
       ("file", Samples.pump_record); ("api", Samples.pump_record) ]).
Proof.
  destruct (write_to_all_serves_every_enabled_sink Samples.show Samples.show
              [Samples.sink_B; Samples.sink_C; Samples.sink_D])
    as (_ & _ & H & _).
  rewrite (H Samples.sink_A Samples.pump_record Samples.empty_world
             {| DataSink.self := Samples.sink_A;
                DataSink.env := Samples.empty_world |}
             NotImplementedError eq_refl eq_refl).
  reflexivity.
Defined.

(** ** The batching dispatcher *)

Section Dispatcher.
Import DataSink DataSink.APIDataSink.
Arguments batch_request : simpl never.

Lemma send_batch_eq c a batch :
  impl (self c) = IAPI a ->
  _send_batch batch c
  = (after_post c a (batch_request (api_url a) batch)
       (report batch
          (remote (session a) (List.length (posted (session a)))
             (batch_request (api_url a) batch))),
     Ok tt).
Proof.
  intros H.
  cbv beta iota zeta delta
    [_send_batch try_except mbind api session_post post set_impl lift
     print after_post report].
  repeat (rewrite H; cbn).
  destruct (remote (session a) (List.length (posted (session a)))
              (batch_request (api_url a) batch)) as [resp|e]; cbn;
    [|reflexivity].
  destruct (Z.eqb (status_code resp) 200 || Z.eqb (status_code resp) 201);
    reflexivity.
Qed.

(** A turn of the worker returns, leaves the sink an API sink with the
    same constants and flag, and is the turn of the view. *)
Lemma turn_spec c a batch :
  impl (self c) = IAPI a ->
  exists c' batch' a',
    _process_batches_turn batch c = (c', Ok batch') /\
    impl (self c') = IAPI a' /\
    api_url a' = api_url a /\ batch_size a' = batch_size a /\
    enabled (self c') = enabled (self c) /\
    view_of (c', batch')
    = vstep (api_url a) (batch_size a) (view_of (c, batch)) Turn.
Proof.
  intros Himpl.
  unfold view_of, queue_of, posted_of; simpl fst; simpl snd.
  cbv beta iota zeta delta
    [_process_batches_turn get mbind APIDataSink.api set_impl ret].
  rewrite Himpl. cbn.
  destruct (batch_queue a) as [|d q] eqn:Eq; cbn.
  - destruct batch as [|b0 batch]; cbn.
    + exists c, [], a. rewrite Himpl, Eq. now repeat split.
    + rewrite (send_batch_eq c a _ Himpl).
      do 3 eexists. split; [reflexivity|]. cbn.
      split; [reflexivity|]. rewrite Eq. now repeat split.
  - destruct (batch_size a <=? Z.of_nat (List.length (batch ++ [d])))%Z.
    + erewrite send_batch_eq by reflexivity.
      do 3 eexists. split; [reflexivity|]. cbn.
      split; [reflexivity|]. now repeat split.
    + do 3 eexists. split; [reflexivity|]. cbn.
      split; [reflexivity|]. now repeat split.
Qed.

(** Each step of the dispatcher is the step of its view. *)
Lemma step_view u size st a :
  api_sink u size (fst st) ->
  api_sink u size (fst (step st a)) /\
  view_of (step st a) = vstep u size (view_of st) a.
Proof.
  destruct st as [c batch]. intros (Hen & api & Himpl & Hu & Hs).
  simpl fst in *.
  destruct a as [data|].
  - unfold step, view_of, queue_of, posted_of, api_sink;
      simpl fst; simpl snd.
    cbv beta iota zeta delta
      [write put mbind get_self APIDataSink.api set_impl].
    cbn. rewrite Hen. cbn. rewrite Himpl. cbn.
    split; [|reflexivity].
    split; [exact Hen | eexists; split; [reflexivity|]; cbn; now split].
  - destruct (turn_spec c api batch Himpl)
      as (c' & b' & a' & E & Hi & Hu' & Hs' & Hen' & V).
    unfold step. simpl fst; simpl snd. rewrite E. simpl fst.
    split.
    + split; [congruence|]. exists a'. repeat split; congruence.
    + rewrite V, Hu, Hs. reflexivity.
Qed.

Lemma run_view u size sch : forall st,
  api_sink u size (fst st) ->
  api_sink u size (fst (run st sch)) /\
  view_of (run st sch) = vrun u size (view_of st) sch.
Proof.
  induction sch as [|a sch IH]; intros st H; [now split|].
  destruct (step_view u size st a H) as [H1 E1].
  destruct (IH (step st a) H1) as [H2 E2].
  simpl. split; [exact H2|]. now rewrite E2, E1.
Qed.

Lemma gapless_view u size sch : forall st,
  api_sink u size (fst st) ->
  gapless st sch = vgapless u size (view_of st) sch.
Proof.
  induction sch as [|a sch IH]; intros st H; [reflexivity|].
  destruct (step_view u size st a H) as [H1 E1].
  simpl. now rewrite (IH _ H1), E1.
Qed.

(** A turn that finds a record does not look past the head of the
    queue. *)
Lemma vstep_turn_enq u size v ds :
  v_queue v <> [] ->
  vstep u size (enq v ds) Turn = enq (vstep u size v Turn) ds.
Proof.
  destruct v as [[|d q] b p]; intros H; [now elim H|].
  unfold enq, vstep; simpl.
  destruct (size <=? Z.of_nat (List.length (b ++ [d])))%Z; reflexivity.
Qed.

Lemma enq_nil v : enq v [] = v.
Proof. destruct v; unfold enq; simpl. now rewrite app_nil_r. Qed.

Lemma enq_write u size v d ds :
  enq (vstep u size v (Write d)) ds = enq v (d :: ds).
Proof. unfold enq; simpl. now rewrite <- app_assoc. Qed.

(** Without gaps, only what was written and how many turns were taken
    matter: the schedule ends where it would with every record queued
    beforehand. *)
Lemma vrun_gapless u size sch : forall v,
  vgapless u size v sch = true ->
  vrun u size v sch
  = vrun u size (enq v (writes sch)) (repeat Turn (turns sch)).
Proof.
  induction sch as [|a sch IH]; intros v H.
  - simpl. now rewrite enq_nil.
  - simpl in H. apply andb_true_iff in H as [Ha H].
    destruct a as [d|].
    + change (vrun u size v (Write d :: sch))
        with (vrun u size (vstep u size v (Write d)) sch).
      rewrite (IH _ H). simpl writes. simpl turns.
      now rewrite enq_write.
    + change (vrun u size v (Turn :: sch))
        with (vrun u size (vstep u size v Turn) sch).
      rewrite (IH _ H). simpl writes. simpl turns. simpl repeat.
      change (vrun u size (enq v (writes sch))
                (Turn :: repeat Turn (turns sch)))
        with (vrun u size (vstep u size (enq v (writes sch)) Turn)
                (repeat Turn (turns sch))).
      rewrite vstep_turn_enq; [reflexivity|].
      destruct (v_queue v); [discriminate | discriminate].
Qed.

(** With nothing queued and nothing batched, turns change nothing. *)
Lemma vrun_idle u size p k :
  vrun u size {| v_queue := []; v_batch := []; v_posted := p |}
    (repeat Turn k)
  = {| v_queue := []; v_batch := []; v_posted := p |}.
Proof. induction k; simpl; [reflexivity | exact IHk]. Qed.

Lemma run_app st sch1 sch2 :
  run st (sch1 ++ sch2) = run (run st sch1) sch2.
Proof. apply fold_left_app. Qed.

Lemma init_api_sink remote u token size w :
  api_sink u size
    {| self := APIDataSink.__init__ remote u token size; env := w |}.
Proof. split; [reflexivity|]. eexists; now repeat split. Qed.

End Dispatcher.

(** C3. With batch_size = 3, let records R1..R7 be written and dequeued in
    any interleaving in which the worker never finds the queue empty, and let
    the queue then stay empty past the timeout.  By the end of the burst the
    two full batches [R1,R2,R3] and [R4,R5,R6] have been posted, in this order,
    and R7 waits in the batch; the first idle turn posts R7 alone, and later
    idle turns post nothing.  So exactly three requests are sent, carrying
    the seven records once each and in the order of their enqueueing. *)
Theorem seven_records_three_sends :
  forall remote u token w R1 R2 R3 R4 R5 R6 R7 burst k,
    let st0 :=
      ({| DataSink.self := DataSink.APIDataSink.__init__ remote u token 3;
          DataSink.env := w |}, []) in
    let full (a b c : dict) :=
      {| DataSink.url := (u ++ "/devices/data/batch")%string;
         DataSink.json := VDict [("data", VList [VDict a; VDict b; VDict c])];
         DataSink.timeout := 10 |} in
    let single (a : dict) :=
      {| DataSink.url := (u ++ "/devices/data")%string;
         DataSink.json := VDict a;
         DataSink.timeout := 5 |} in
    DataSink.APIDataSink.writes burst = [R1; R2; R3; R4; R5; R6; R7] ->
    DataSink.APIDataSink.turns burst = 7%nat ->
    DataSink.APIDataSink.gapless st0 burst = true ->
    (DataSink.APIDataSink.posted_of
       (fst (DataSink.APIDataSink.run st0 burst))
     = [full R1 R2 R3; full R4 R5 R6] /\
     snd (DataSink.APIDataSink.run st0 burst) = [R7]) /\
    (let st := DataSink.APIDataSink.run st0
                 (burst ++ repeat DataSink.APIDataSink.Turn (S k)) in
     DataSink.APIDataSink.posted_of (fst st)
     = [full R1 R2 R3; full R4 R5 R6; single R7] /\
     snd st = [] /\
     DataSink.APIDataSink.queue_of (fst st) = []).
Proof.
  intros remote u token w R1 R2 R3 R4 R5 R6 R7 burst k st0 full single
         Hw Ht Hgap.
  assert (H0 : DataSink.APIDataSink.api_sink u 3 (fst st0))
    by apply init_api_sink.
  rewrite (gapless_view u 3 burst st0 H0) in Hgap.
  destruct (run_view u 3 burst st0 H0) as [H1 V1].
  rewrite (vrun_gapless u 3 burst _ Hgap), Hw, Ht in V1.
  assert (E1 : DataSink.APIDataSink.view_of
                 (DataSink.APIDataSink.run st0 burst)
               = {| DataSink.APIDataSink.v_queue := [];
                    DataSink.APIDataSink.v_batch := [R7];
                    DataSink.APIDataSink.v_posted :=
                      [full R1 R2 R3; full R4 R5 R6] |})
    by (rewrite V1; reflexivity).
  split.
  - split.
    + exact (f_equal DataSink.APIDataSink.v_posted E1).
    + exact (f_equal DataSink.APIDataSink.v_batch E1).
  - intros st. subst st. rewrite run_app.
    destruct (run_view u 3 (repeat DataSink.APIDataSink.Turn (S k))
                (DataSink.APIDataSink.run st0 burst) H1) as [_ V2].
    rewrite E1 in V2.
    change (repeat DataSink.APIDataSink.Turn (S k))
      with (DataSink.APIDataSink.Turn
              :: repeat DataSink.APIDataSink.Turn k) in V2 at 2.
    assert (E2 : DataSink.APIDataSink.view_of
                   (DataSink.APIDataSink.run
                      (DataSink.APIDataSink.run st0 burst)
                      (repeat DataSink.APIDataSink.Turn (S k)))
                 = {| DataSink.APIDataSink.v_queue := [];
                      DataSink.APIDataSink.v_batch := [];
                      DataSink.APIDataSink.v_posted :=
                        [full R1 R2 R3; full R4 R5 R6; single R7] |}).
    { rewrite V2.
      exact (vrun_idle u 3 [full R1 R2 R3; full R4 R5 R6; single R7] k). }
    repeat split.
    + exact (f_equal DataSink.APIDataSink.v_posted E2).
    + exact (f_equal DataSink.APIDataSink.v_batch E2).
    + exact (f_equal DataSink.APIDataSink.v_queue E2).
Qed.

Lemma seven_records_three_sends_witness :
  DataSink.APIDataSink.posted_of
    (fst (DataSink.APIDataSink.run (Samples.api_ctx 3, [])
            (Samples.burst ++ [DataSink.APIDataSink.Turn])))
  = [ {| DataSink.url := "http://api/devices/data/batch";
         DataSink.json :=
           VDict [("data", VList [VDict (Samples.rec 1);
                                  VDict (Samples.rec 2);
                                  VDict (Samples.rec 3)])];
         DataSink.timeout := 10 |};
      {| DataSink.url := "http://api/devices/data/batch";
         DataSink.json :=
           VDict [("data", VList [VDict (Samples.rec 4);
                                  VDict (Samples.rec 5);
                                  VDict (Samples.rec 6)])];
         DataSink.timeout := 10 |};
      {| DataSink.url := "http://api/devices/data";
         DataSink.json := VDict (Samples.rec 7);
         DataSink.timeout := 5 |} ].
Proof.
  exact (proj1 (proj2
    (seven_records_three_sends Samples.always_created "http://api" None
       Samples.empty_world
       (Samples.rec 1) (Samples.rec 2) (Samples.rec 3) (Samples.rec 4)
       (Samples.rec 5) (Samples.rec 6) (Samples.rec 7)
       Samples.burst 0%nat eq_refl eq_refl eq_refl))).
Defined.

(** C4. A batch of exactly one record is posted as that record to
    [<api_url>/devices/data] with timeout 5; a batch of two or more is posted
    as [{"data": [records]}] to [<api_url>/devices/data/batch] with timeout
    10.  In both cases one request is made and [_send_batch] returns
    normally.  The outcome counts as sent exactly when the status is 200 or
    201; any other status and any transport error is only printed.  When a
    turn of the worker sends, it posts once, its batch is empty afterwards
    whatever the outcome, and nothing is put back on the queue. *)
Theorem send_batch_endpoints_and_failure :
  forall (c : DataSink.ctx) (a : DataSink.APIFields),
    DataSink.impl (DataSink.self c) = DataSink.IAPI a ->
    let answer rq :=
      DataSink.remote (DataSink.session a)
        (List.length (DataSink.posted (DataSink.session a))) rq in
    (forall r,
        let rq := {| DataSink.url :=
                       (DataSink.api_url a ++ "/devices/data")%string;
                     DataSink.json := VDict r;
                     DataSink.timeout := 5 |} in
        DataSink.APIDataSink._send_batch [r] c
        = (DataSink.APIDataSink.after_post c a rq
             (DataSink.APIDataSink.report [r] (answer rq)), Ok tt)) /\
    (forall r1 r2 rest,
        let batch := r1 :: r2 :: rest in
        let rq := {| DataSink.url :=
                       (DataSink.api_url a ++ "/devices/data/batch")%string;
                     DataSink.json :=
                       VDict [("data", VList (map VDict batch))];
                     DataSink.timeout := 10 |} in
        DataSink.APIDataSink._send_batch batch c
        = (DataSink.APIDataSink.after_post c a rq
             (DataSink.APIDataSink.report batch (answer rq)), Ok tt)) /\
    (forall batch resp,
        DataSink.APIDataSink.report batch (Ok resp)
        = DataSink.PrintApiSent (List.length batch)
        <-> (DataSink.status_code resp = 200
             \/ DataSink.status_code resp = 201)%Z) /\
    (forall batch resp,
        DataSink.status_code resp <> 200%Z ->
        DataSink.status_code resp <> 201%Z ->
        DataSink.APIDataSink.report batch (Ok resp)
        = DataSink.PrintApiError (DataSink.status_code resp)
            (DataSink.text resp)) /\
    (forall batch e,
        DataSink.APIDataSink.report batch (Raise e)
        = DataSink.PrintApiFailed e) /\
    (forall batch,
        exists c' batch',
          DataSink.APIDataSink._process_batches_turn batch c
          = (c', Ok batch') /\
          (DataSink.APIDataSink.posted_of c'
           <> DataSink.APIDataSink.posted_of c ->
           batch' = [] /\
           DataSink.APIDataSink.queue_of c'
           = tl (DataSink.APIDataSink.queue_of c) /\
           exists sent,
             sent <> [] /\
             DataSink.APIDataSink.posted_of c'
             = DataSink.APIDataSink.posted_of c
                 ++ [DataSink.APIDataSink.batch_request
                       (DataSink.api_url a) sent])).
Proof.
  intros c a Himpl answer. repeat apply conj.
  - intros r rq. apply (send_batch_eq c a [r] Himpl).
  - intros r1 r2 rest batch rq. apply (send_batch_eq c a batch Himpl).
  - intros batch resp. unfold DataSink.APIDataSink.report.
    destruct (Z.eqb_spec (DataSink.status_code resp) 200) as [E|N]; simpl.
    + split; [now left | reflexivity].
    + destruct (Z.eqb_spec (DataSink.status_code resp) 201) as [E|N'].
      * split; [now right | reflexivity].
      * split; [discriminate | intros [E|E]; contradiction].
  - intros batch resp N N'. unfold DataSink.APIDataSink.report.
    destruct (Z.eqb_spec (DataSink.status_code resp) 200);
      [contradiction|].
    destruct (Z.eqb_spec (DataSink.status_code resp) 201);
      [contradiction | reflexivity].
  - reflexivity.
  - intros batch.
    destruct (turn_spec c a batch Himpl)
      as (c' & b' & a' & E & _ & _ & _ & _ & V).
    exists c', b'. split; [exact E|].
    pose proof (f_equal DataSink.APIDataSink.v_posted V) as Vp.
    pose proof (f_equal DataSink.APIDataSink.v_batch V) as Vb.
    pose proof (f_equal DataSink.APIDataSink.v_queue V) as Vq.
    change (DataSink.APIDataSink.posted_of c'
            = DataSink.APIDataSink.v_posted
                (DataSink.APIDataSink.vstep (DataSink.api_url a)
                   (DataSink.batch_size a)
                   (DataSink.APIDataSink.view_of (c, batch))
                   DataSink.APIDataSink.Turn)) in Vp.
    change (b' = DataSink.APIDataSink.v_batch
                   (DataSink.APIDataSink.vstep (DataSink.api_url a)
                      (DataSink.batch_size a)
                      (DataSink.APIDataSink.view_of (c, batch))
                      DataSink.APIDataSink.Turn)) in Vb.
    change (DataSink.APIDataSink.queue_of c'
            = DataSink.APIDataSink.v_queue
                (DataSink.APIDataSink.vstep (DataSink.api_url a)
                   (DataSink.batch_size a)
                   (DataSink.APIDataSink.view_of (c, batch))
                   DataSink.APIDataSink.Turn)) in Vq.
    rewrite Vp, Vb, Vq. clear Vp Vb Vq V E.
    unfold DataSink.APIDataSink.vstep, DataSink.APIDataSink.view_of.
    simpl fst; simpl snd; cbn [DataSink.APIDataSink.v_queue
                                 DataSink.APIDataSink.v_batch
                                 DataSink.APIDataSink.v_posted].
    destruct (DataSink.APIDataSink.queue_of c) as [|d q].
    + destruct batch as [|b0 batch]; cbn.
      * intros H; now elim H.
      * intros _. repeat split. exists (b0 :: batch).
        split; [discriminate | reflexivity].
    + destruct (DataSink.batch_size a
                <=? Z.of_nat (List.length (batch ++ [d])))%Z; cbn.
      * intros _. repeat split. exists (batch ++ [d]).
        split; [now destruct batch | reflexivity].
      * intros H; now elim H.
Qed.

Lemma send_batch_endpoints_and_failure_witness :
  DataSink.APIDataSink._send_batch [Samples.rec 1] (Samples.api_ctx 3)
  = (DataSink.APIDataSink.after_post (Samples.api_ctx 3)
       {| DataSink.api_url := "http://api"; DataSink.auth_token := None;
          DataSink.batch_size := 3; DataSink.batch_queue := [];
          DataSink.session :=
            {| DataSink.headers := [];
               DataSink.remote := Samples.always_created;
               DataSink.posted := [] |} |}
       {| DataSink.url := "http://api/devices/data";
          DataSink.json := VDict (Samples.rec 1);
          DataSink.timeout := 5 |}
       (DataSink.PrintApiSent 1), Ok tt).
Proof.
  exact (proj1
    (send_batch_endpoints_and_failure (Samples.api_ctx 3) _ eq_refl)
    (Samples.rec 1)).
Defined.


(** ** The model at work on sample inputs *)

Example history_after_101_records :
  DeviceSimulator.data_history
    (fst (fst (DeviceSimulator.send_all
                 (DeviceSimulator.with_callbacks Samples.pump_cfg [])
                 (map Samples.numbered (seq 1 101)) tt)))
  = map Samples.numbered (seq 2 100).
Proof. vm_compute. reflexivity. Qed.

Example pump_clamped_at_its_limits :
  let s := DeviceSimulator.InfusionPumpSimulator._update_pump_state
             Samples.pump_cfg Samples.pump_at_limits Samples.push_up in
  DeviceSimulator.InfusionPumpSimulator.flow_rate s = 10%Q /\
  DeviceSimulator.InfusionPumpSimulator.pressure s = 50%Q /\
  DeviceSimulator.InfusionPumpSimulator.battery_level s = 0%Q /\
  DeviceSimulator.InfusionPumpSimulator.alarms s
  = ["LOW_BATTERY"; "HIGH_PRESSURE"].
Proof. repeat split. Qed.

Example enabled_console_prints :
  DataSink.ConsoleDataSink.write Samples.pump_record
    {| DataSink.self := DataSink.ConsoleDataSink.__init__ "simple";
       DataSink.env := Samples.empty_world |}
  = ({| DataSink.self := DataSink.ConsoleDataSink.__init__ "simple";
        DataSink.env :=
          {| DataSink.stdout :=
               [DataSink.PrintSimple (VStr "infusion_pump")
                  (VStr "pump_001") (VStr "2024-01-01T00:00:00")];
             DataSink.fs := [] |} |}, Ok tt).
Proof. reflexivity. Qed.

Example database_commits_both_rows :
  forall json_dumps,
    let c := fst (DataSink.DatabaseDataSink.write json_dumps
                    Samples.pump_record
                    {| DataSink.self := DataSink.DatabaseDataSink.__init__;
                       DataSink.env := Samples.empty_world |}) in
    match DataSink.impl (DataSink.self c) with
    | DataSink.IDatabase cn =>
        map DataSink.table (DataSink.committed cn)
        = ["device_data"; "infusion_pump_data"] /\
        DataSink.pending cn = []
    | _ => False
    end.
Proof. intros jd. simpl. split; reflexivity. Qed.

Example flatten_vitals_record :
  map fst (DataSink.FileDataSink._flatten_dict Samples.show
             Samples.vitals_record "" "_")
  = [ "device_id"; "device_type"; "heart_rate";
      "blood_pressure_systolic"; "blood_pressure_diastolic"; "alerts" ].
Proof. reflexivity. Qed.

Example csv_header_written_once :
  let sink := DataSink.FileDataSink.__init__ "out" "csv" in
  let c1 := fst (DataSink.FileDataSink.write Samples.show Samples.show
                   Samples.vitals_record
                   {| DataSink.self := sink;
                      DataSink.env := Samples.empty_world |}) in
  let c2 := fst (DataSink.FileDataSink.write Samples.show Samples.show
                   Samples.vitals_record c1) in
  map (fun l => match l with
                | DataSink.CsvHeader _ => "header"
                | DataSink.CsvRow _ => "row"
                | DataSink.TextLine _ => "text"
                end)
      (match DataSink.read_file (DataSink.fs (DataSink.env c2))
               "out/vital_signs_data.csv" with
       | Some ls => ls
       | None => []
       end)
  = ["header"; "row"; "row"].
Proof. reflexivity. Qed.

Example batch_size_one_sends_each_record :
  DataSink.APIDataSink.posted_of
    (fst (DataSink.APIDataSink.run (Samples.api_ctx 1, [])
            [ DataSink.APIDataSink.Write (Samples.rec 1);
              DataSink.APIDataSink.Turn;
              DataSink.APIDataSink.Write (Samples.rec 2);
              DataSink.APIDataSink.Turn ]))
  = [ {| DataSink.url := "http://api/devices/data";
         DataSink.json := VDict (Samples.rec 1); DataSink.timeout := 5 |};
      {| DataSink.url := "http://api/devices/data";
         DataSink.json := VDict (Samples.rec 2); DataSink.timeout := 5 |} ].
Proof. reflexivity. Qed.

(** * Further properties of the code *)

(** ** Rounding *)

Section Rounding.
Local Open Scope Q_scope.

Lemma round_half_even_cases q :
  round_half_even q = Qfloor q \/ round_half_even q = (Qfloor q + 1)%Z.
Proof.
  unfold round_half_even.
  destruct (Qltb _ _); [now left|].
  destruct (Qltb _ _); [now right|].
  destruct (Z.even _); [now left | now right].
Qed.

Lemma round_half_even_ge (k : Z) q :
  inject_Z k <= q -> (k <= round_half_even q)%Z.
Proof.
  intros H. apply Qfloor_resp_le in H. rewrite Qfloor_Z in H.
  destruct (round_half_even_cases q) as [-> | ->]; lia.
Qed.

Lemma round_half_even_le (k : Z) q :
  q <= inject_Z k -> (round_half_even q <= k)%Z.
Proof.
  intros H. pose proof (Qfloor_resp_le _ _ H) as Hf. rewrite Qfloor_Z in Hf.
  destruct (Z.eq_dec (Qfloor q) k) as [E | N].
  - unfold round_half_even.
    pose proof (Qfloor_le q) as Hl. rewrite E in *.
    destruct (Qltb_spec (q - inject_Z k) (1 # 2)); [lia | lra].
  - destruct (round_half_even_cases q) as [-> | ->]; lia.
Qed.

Lemma scale_pos n : 0 < inject_Z (10 ^ Z.of_nat n).
Proof.
  change 0 with (inject_Z 0). rewrite <- Zlt_Qlt.
  apply Z.pow_pos_nonneg; lia.
Qed.

(** Rounding keeps a value between two bounds that are themselves
    multiples of the rounding step. *)
Lemma round_between (ka kb : Z) n x :
  let scale := inject_Z (10 ^ Z.of_nat n) in
  inject_Z ka / scale <= x <= inject_Z kb / scale ->
  inject_Z ka / scale <= round x n <= inject_Z kb / scale.
Proof.
  intros scale [Ha Hb]. pose proof (scale_pos n) as Hs. fold scale in Hs.
  unfold round. fold scale.
  split.
  - apply Qle_shift_div_l; [exact Hs|].
    setoid_replace (inject_Z ka / scale * scale) with (inject_Z ka)
      by (field; lra).
    rewrite <- Zle_Qle. apply round_half_even_ge.
    setoid_replace (inject_Z ka) with (inject_Z ka / scale * scale)
      by (field; lra).
    apply Qmult_le_compat_r; lra.
  - apply Qle_shift_div_r; [exact Hs|].
    setoid_replace (inject_Z kb / scale * scale) with (inject_Z kb)
      by (field; lra).
    rewrite <- Zle_Qle. apply round_half_even_le.
    setoid_replace (inject_Z kb) with (inject_Z kb / scale * scale)
      by (field; lra).
    apply Qmult_le_compat_r; lra.
Qed.

Lemma round_range (lo hi : Q) (ka kb : Z) n x :
  lo == inject_Z ka / inject_Z (10 ^ Z.of_nat n) ->
  hi == inject_Z kb / inject_Z (10 ^ Z.of_nat n) ->
  lo <= x <= hi -> lo <= round x n <= hi.
Proof.
  intros El Eh H. rewrite El, Eh in *. now apply round_between.
Qed.

End Rounding.

(** ** Emitted records *)

Section Emitted.
Import DeviceSimulator.
Local Open Scope Q_scope.

Lemma pump_record_shape cfg s d now uuid e :
  snd (InfusionPumpSimulator.generate_device_data cfg s d now uuid e)
  = let s' := InfusionPumpSimulator._update_pump_state cfg s d in
    [ ("device_id", VStr (device_id cfg));
      ("device_type", VStr (device_type cfg));
      ("location", VStr (location cfg));
      ("timestamp", VStr now);
      ("session_id", VStr (substring 0 8 uuid));
      ("flow_rate", VFloat (round (InfusionPumpSimulator.flow_rate s') 2));
      ("target_flow_rate", VFloat 5.0);
      ("pressure", VFloat (round (InfusionPumpSimulator.pressure s') 1));
      ("battery_level",
       VFloat (round (InfusionPumpSimulator.battery_level s') 1));
      ("volume_infused",
       VFloat (round (InfusionPumpSimulator.volume_infused s') 2));
      ("volume_remaining",
       VFloat (round (500 - InfusionPumpSimulator.volume_infused s') 2));
      ("status", VStr (InfusionPumpSimulator.status s'));
      ("alarms", VList (map VStr (InfusionPumpSimulator.alarms s')));
      ("temperature",
       VFloat (round (InfusionPumpSimulator.u_temperature e) 1));
      ("pump_cycles", VInt (InfusionPumpSimulator.i_pump_cycles e)) ].
Proof. reflexivity. Qed.

Lemma bed_record_shape cfg s d now uuid e :
  snd (PatientBedSimulator.generate_device_data cfg s d now uuid e)
  = let s' := PatientBedSimulator._update_bed_state s d in
    [ ("device_id", VStr (device_id cfg));
      ("device_type", VStr (device_type cfg));
      ("location", VStr (location cfg));
      ("timestamp", VStr now);
      ("session_id", VStr (substring 0 8 uuid));
      ("weight", VFloat (round (PatientBedSimulator.weight s') 1));
      ("position_angle",
       VFloat (round (PatientBedSimulator.position_angle s') 1));
      ("occupancy", VBool (PatientBedSimulator.occupancy s'));
      ("movement_level", VInt (PatientBedSimulator.movement_level s'));
      ("bed_exit_risk", VStr (PatientBedSimulator.bed_exit_risk s'));
      ("rails_up", VBool (PatientBedSimulator.c_rails_up e));
      ("call_light",
       VBool (if Qltb (PatientBedSimulator.r_call_light e) 0.1
              then PatientBedSimulator.c_call_light e else false));
      ("room_temperature",
       VFloat (round (PatientBedSimulator.u_room_temperature e) 1));
      ("humidity", VFloat (round (PatientBedSimulator.u_humidity e) 1)) ].
Proof. reflexivity. Qed.

Lemma vitals_record_shape cfg s d now uuid e :
  snd (VitalSignsSimulator.generate_device_data cfg s d now uuid e)
  = let s' := VitalSignsSimulator._update_vitals s d in
    [ ("device_id", VStr (device_id cfg));
      ("device_type", VStr (device_type cfg));
      ("location", VStr (location cfg));
      ("timestamp", VStr now);
      ("session_id", VStr (substring 0 8 uuid));
      ("heart_rate", VInt (VitalSignsSimulator.heart_rate s'));
      ("blood_pressure",
       VDict [ ("systolic", VInt (VitalSignsSimulator.blood_pressure_sys s'));
               ("diastolic",
                VInt (VitalSignsSimulator.blood_pressure_dia s')) ]);
      ("oxygen_saturation",
       VFloat (round (VitalSignsSimulator.oxygen_saturation s') 1));
      ("respiratory_rate", VInt (VitalSignsSimulator.respiratory_rate s'));
      ("temperature",
       VFloat (round (VitalSignsSimulator.temperature s') 1));
      ("ecg_rhythm",
       VStr (nth (VitalSignsSimulator.c_ecg_rhythm e)
               ["normal"; "irregular"; "atrial_fib"] "normal"));
      ("alerts",
       VList (map VStr (VitalSignsSimulator._generate_alerts s'))) ].
Proof. reflexivity. Qed.

End Emitted.

(** X1. The records that the three simulators emit carry their clamped
    quantities within the declared ranges, rounding included: a pump record
    has flow_rate in [0,10], pressure in [10,50] and battery_level in
    [0,100]; a bed record has weight in [50,150] and position_angle in
    [0,70]; a vitals record has heart_rate in [45,150], oxygen_saturation in
    [85,100] and temperature in [35,40]. *)
Theorem emitted_records_in_range :
  (forall cfg s d now uuid e,
      DeviceSimulator.InfusionPumpSimulator.in_range s ->
      DeviceSimulator.InfusionPumpSimulator.draws_ok d ->
      let data :=
        snd (DeviceSimulator.InfusionPumpSimulator.generate_device_data
               cfg s d now uuid e) in
      exists f p b,
        get data "flow_rate" = Some (VFloat f) /\ (0 <= f <= 10)%Q /\
        get data "pressure" = Some (VFloat p) /\ (10 <= p <= 50)%Q /\
        get data "battery_level" = Some (VFloat b) /\ (0 <= b <= 100)%Q) /\
  (forall cfg s d now uuid e,
      DeviceSimulator.PatientBedSimulator.in_range s ->
      DeviceSimulator.PatientBedSimulator.draws_ok d ->
      let data :=
        snd (DeviceSimulator.PatientBedSimulator.generate_device_data
               cfg s d now uuid e) in
      exists wt a,
        get data "weight" = Some (VFloat wt) /\ (50 <= wt <= 150)%Q /\
        get data "position_angle" = Some (VFloat a) /\ (0 <= a <= 70)%Q) /\
  (forall cfg s d now uuid e,
      let data :=
        snd (DeviceSimulator.VitalSignsSimulator.generate_device_data
               cfg s d now uuid e) in
      exists h o t,
        get data "heart_rate" = Some (VInt h) /\ (45 <= h <= 150)%Z /\
        get data "oxygen_saturation" = Some (VFloat o) /\
        (85 <= o <= 100)%Q /\
        get data "temperature" = Some (VFloat t) /\ (35 <= t <= 40)%Q).
Proof.
  split; [|split].
  - intros cfg s d now uuid e Hs Hd data. subst data.
    rewrite pump_record_shape.
    destruct (pump_update_in_range cfg s d Hs Hd) as (Hf & Hp & Hb).
    cbv zeta. do 3 eexists.
    repeat apply conj; try reflexivity.
    + apply (round_range 0 10 0 1000 2); [reflexivity | reflexivity | apply Hf].
    + apply (round_range 0 10 0 1000 2); [reflexivity | reflexivity | apply Hf].
    + apply (round_range 10 50 100 500 1);
        [reflexivity | reflexivity | apply Hp].
    + apply (round_range 10 50 100 500 1);
        [reflexivity | reflexivity | apply Hp].
    + apply (round_range 0 100 0 1000 1);
        [reflexivity | reflexivity | apply Hb].
    + apply (round_range 0 100 0 1000 1);
        [reflexivity | reflexivity | apply Hb].
  - intros cfg s d now uuid e Hs Hd data. subst data.
    rewrite bed_record_shape.
    destruct (bed_update_in_range s d Hs Hd) as (Hw & Ha).
    cbv zeta. do 2 eexists.
    repeat apply conj; try reflexivity.
    + apply (round_range 50 150 500 1500 1);
        [reflexivity | reflexivity | apply Hw].
    + apply (round_range 50 150 500 1500 1);
        [reflexivity | reflexivity | apply Hw].
    + apply (round_range 0 70 0 700 1);
        [reflexivity | reflexivity | apply Ha].
    + apply (round_range 0 70 0 700 1);
        [reflexivity | reflexivity | apply Ha].
  - intros cfg s d now uuid e data. subst data.
    rewrite vitals_record_shape.
    destruct (vitals_update_in_range s d) as ((Hh & _) & Ho & Ht).
    cbv zeta. do 3 eexists.
    repeat apply conj; try reflexivity.
    + apply Hh.
    + apply Hh.
    + apply (round_range 85 100 850 1000 1);
        [reflexivity | reflexivity | apply Ho].
    + apply (round_range 85 100 850 1000 1);
        [reflexivity | reflexivity | apply Ho].
    + apply (round_range 35 40 350 400 1);
        [reflexivity | reflexivity | apply Ht].
    + apply (round_range 35 40 350 400 1);
        [reflexivity | reflexivity | apply Ht].
Qed.

Lemma emitted_records_in_range_witness :
  exists f p b,
    get (snd (DeviceSimulator.InfusionPumpSimulator.generate_device_data
                Samples.pump_cfg DeviceSimulator.InfusionPumpSimulator.init
                Samples.one_pump_draw "2024-01-01T00:00:00"
                "0123456789abcdef" Samples.pump_emit_draws))
        "flow_rate" = Some (VFloat f) /\ (0 <= f <= 10)%Q /\
    get (snd (DeviceSimulator.InfusionPumpSimulator.generate_device_data
                Samples.pump_cfg DeviceSimulator.InfusionPumpSimulator.init
                Samples.one_pump_draw "2024-01-01T00:00:00"
                "0123456789abcdef" Samples.pump_emit_draws))
        "pressure" = Some (VFloat p) /\ (10 <= p <= 50)%Q /\
    get (snd (DeviceSimulator.InfusionPumpSimulator.generate_device_data
                Samples.pump_cfg DeviceSimulator.InfusionPumpSimulator.init
                Samples.one_pump_draw "2024-01-01T00:00:00"
                "0123456789abcdef" Samples.pump_emit_draws))
        "battery_level" = Some (VFloat b) /\ (0 <= b <= 100)%Q.
Proof.
  apply (proj1 emitted_records_in_range).
  - exact pump_init_in_range.
  - unfold DeviceSimulator.InfusionPumpSimulator.draws_ok; simpl; lra.
Defined.

(** ** The state machines, further *)

Section MoreDevice.
Import DeviceSimulator.
Local Open Scope Q_scope.

(** From inside the range, a clamped step goes the way of the increment,
    or nowhere. *)
Lemma clamp_up (lo hi x d : Q) :
  lo <= x <= hi -> 0 <= d -> x <= max lo (min hi (x + d)).
Proof.
  intros Hx Hd. unfold max, min.
  destruct (Qltb_spec (x + d) hi);
    match goal with |- context [Qltb lo ?y] => destruct (Qltb_spec lo y) end;
    lra.
Qed.

Lemma clamp_down (lo hi x d : Q) :
  lo <= x <= hi -> d <= 0 -> max lo (min hi (x + d)) <= x.
Proof.
  intros Hx Hd. unfold max, min.
  destruct (Qltb_spec (x + d) hi);
    match goal with |- context [Qltb lo ?y] => destruct (Qltb_spec lo y) end;
    lra.
Qed.

End MoreDevice.

(** X2. The alarms of the infusion pump are recomputed from the levels the
    update has just produced and from nothing else: LOW_BATTERY is raised
    exactly when the new battery level is below 20, HIGH_PRESSURE exactly
    when the new pressure is above 45, LOW_VOLUME exactly when the new
    volume infused is above 450, and no alarm is listed twice, whatever the
    alarms were before. *)
Theorem pump_alarms_follow_levels :
  forall cfg s d,
    let s' := DeviceSimulator.InfusionPumpSimulator._update_pump_state
                cfg s d in
    (In "LOW_BATTERY" (DeviceSimulator.InfusionPumpSimulator.alarms s')
     <-> (DeviceSimulator.InfusionPumpSimulator.battery_level s' < 20)%Q) /\
    (In "HIGH_PRESSURE" (DeviceSimulator.InfusionPumpSimulator.alarms s')
     <-> (45 < DeviceSimulator.InfusionPumpSimulator.pressure s')%Q) /\
    (In "LOW_VOLUME" (DeviceSimulator.InfusionPumpSimulator.alarms s')
     <-> (450 < DeviceSimulator.InfusionPumpSimulator.volume_infused s')%Q)
    /\
    NoDup (DeviceSimulator.InfusionPumpSimulator.alarms s').
Proof.
  intros cfg s d s'. subst s'.
  unfold DeviceSimulator.InfusionPumpSimulator._update_pump_state.
  cbn [DeviceSimulator.InfusionPumpSimulator.alarms
       DeviceSimulator.InfusionPumpSimulator.battery_level
       DeviceSimulator.InfusionPumpSimulator.pressure
       DeviceSimulator.InfusionPumpSimulator.volume_infused].
  match goal with |- context [Qltb ?a 20] => destruct (Qltb_spec a 20) end;
  match goal with |- context [Qltb 45 ?a] => destruct (Qltb_spec 45 a) end;
  match goal with |- context [Qltb 450 ?a] => destruct (Qltb_spec 450 a) end;
  cbn; repeat split; intros;
    repeat match goal with
           | H : _ \/ _ |- _ => destruct H
           | H : False |- _ => destruct H
           | H : _ = _ :> string |- _ => discriminate H
           end; try lra; auto 6;
    repeat constructor; cbn; intuition discriminate.
Qed.

(** X3. With a non-negative update interval, the volume infused by the pump
    never decreases from one tick to the next, for any draws and from any
    state; and on a tick that leaves the flow rate at 0 it stays as it
    was. *)
Theorem pump_volume_never_decreases :
  forall cfg s ds,
    (0 <= DeviceSimulator.update_interval cfg)%Q ->
    Forall
      (fun p =>
         (DeviceSimulator.InfusionPumpSimulator.volume_infused (fst p)
          <= DeviceSimulator.InfusionPumpSimulator.volume_infused (snd p))%Q
         /\
         (DeviceSimulator.InfusionPumpSimulator.flow_rate (snd p) == 0 ->
          DeviceSimulator.InfusionPumpSimulator.volume_infused (snd p)
          == DeviceSimulator.InfusionPumpSimulator.volume_infused (fst p))%Q)
      (DeviceSimulator.ticks
         (DeviceSimulator.InfusionPumpSimulator._update_pump_state cfg) s ds).
Proof.
  intros cfg s ds Hi.
  apply ticks_Forall with (I := fun _ => True) (P := fun _ => True);
    [ tauto | | exact I | ].
  - intros s0 d _ _.
    cbn [fst snd DeviceSimulator.InfusionPumpSimulator._update_pump_state
         DeviceSimulator.InfusionPumpSimulator.volume_infused
         DeviceSimulator.InfusionPumpSimulator.flow_rate].
    pose proof (clamp_range 0 10
                  (DeviceSimulator.InfusionPumpSimulator.flow_rate s0
                   + DeviceSimulator.InfusionPumpSimulator.u_flow d)%Q)
      as Hf.
    assert (H0 : (0 <= 10)%Q) by lra. specialize (Hf H0).
    set (f := max 0 (min 10 _)) in *.
    assert (Hu : (0 <= DeviceSimulator.update_interval cfg / 3600)%Q).
    { apply Qle_shift_div_l; lra. }
    set (u := (DeviceSimulator.update_interval cfg / 3600)%Q) in *.
    assert (H1 : (0 <= f * u)%Q) by (apply Qmult_le_0_compat; lra).
    split; [lra|].
    intros Hz. rewrite Hz. ring.
  - induction ds; constructor; auto.
Qed.

Lemma pump_volume_never_decreases_witness :
  Forall
    (fun p =>
       (DeviceSimulator.InfusionPumpSimulator.volume_infused (fst p)
        <= DeviceSimulator.InfusionPumpSimulator.volume_infused (snd p))%Q
       /\
       (DeviceSimulator.InfusionPumpSimulator.flow_rate (snd p) == 0 ->
        DeviceSimulator.InfusionPumpSimulator.volume_infused (snd p)
        == DeviceSimulator.InfusionPumpSimulator.volume_infused (fst p))%Q)
    (DeviceSimulator.ticks
       (DeviceSimulator.InfusionPumpSimulator._update_pump_state
          Samples.pump_cfg)
       DeviceSimulator.InfusionPumpSimulator.init Samples.pump_draws).
Proof.
  apply pump_volume_never_decreases. simpl. lra.
Defined.

(** X4. An occupied bed stays occupied over any number of ticks and any
    draws.  On each such tick the movement level is the value drawn, and the
    exit risk follows from it: "high" only for a movement level above 3,
    "medium" only above 1, and "low" exactly when the level is at most 1. *)
Theorem occupied_bed_stays_occupied :
  forall s ds,
    DeviceSimulator.PatientBedSimulator.occupancy s = true ->
    Forall
      (fun p =>
         DeviceSimulator.PatientBedSimulator.occupancy (snd p) = true)
      (DeviceSimulator.ticks
         DeviceSimulator.PatientBedSimulator._update_bed_state s ds) /\
    forall d,
      let s' := DeviceSimulator.PatientBedSimulator._update_bed_state s d in
      DeviceSimulator.PatientBedSimulator.movement_level s'
      = DeviceSimulator.PatientBedSimulator.i_movement d /\
      (DeviceSimulator.PatientBedSimulator.bed_exit_risk s' = "high" ->
       (3 < DeviceSimulator.PatientBedSimulator.movement_level s')%Z /\
       (DeviceSimulator.PatientBedSimulator.r_risk d < 0.3)%Q) /\
      (DeviceSimulator.PatientBedSimulator.bed_exit_risk s' = "medium" ->
       (1 < DeviceSimulator.PatientBedSimulator.movement_level s')%Z) /\
      (DeviceSimulator.PatientBedSimulator.bed_exit_risk s' = "low" <->
       (DeviceSimulator.PatientBedSimulator.movement_level s' <= 1)%Z).
Proof.
  intros s ds Hocc. split.
  - apply ticks_Forall
      with (I := fun s0 =>
                   DeviceSimulator.PatientBedSimulator.occupancy s0 = true)
           (P := fun _ => True); auto.
    + intros s0 d H _.
      unfold DeviceSimulator.PatientBedSimulator._update_bed_state.
      rewrite H. reflexivity.
    + intros s0 d H _. simpl.
      unfold DeviceSimulator.PatientBedSimulator._update_bed_state.
      rewrite H. reflexivity.
    + induction ds; constructor; auto.
  - intros d s'. subst s'.
    unfold DeviceSimulator.PatientBedSimulator._update_bed_state.
    rewrite Hocc.
    cbn [DeviceSimulator.PatientBedSimulator.movement_level
         DeviceSimulator.PatientBedSimulator.bed_exit_risk].
    split; [reflexivity|].
    destruct (Z.ltb_spec 3 (DeviceSimulator.PatientBedSimulator.i_movement d));
      destruct (Qltb_spec (DeviceSimulator.PatientBedSimulator.r_risk d) 0.3);
      destruct (Z.ltb_spec 1
                  (DeviceSimulator.PatientBedSimulator.i_movement d));
      cbn; repeat split; intros; try discriminate; try lia; try lra;
      try reflexivity.
Qed.

Lemma occupied_bed_stays_occupied_witness :
  Forall
    (fun p => DeviceSimulator.PatientBedSimulator.occupancy (snd p) = true)
    (DeviceSimulator.ticks
       DeviceSimulator.PatientBedSimulator._update_bed_state
       DeviceSimulator.PatientBedSimulator.init Samples.bed_draws).
Proof.
  apply (occupied_bed_stays_occupied
           DeviceSimulator.PatientBedSimulator.init Samples.bed_draws).
  reflexivity.
Defined.

(** X5. From a state within its ranges, one update of the pump moves the
    flow rate and the pressure the way of their draws or not at all: a draw
    that is not negative never lowers the level, a draw that is not
    positive never raises it, so the clamp never turns a step around. *)
Theorem pump_step_follows_the_draw :
  forall cfg s d,
    DeviceSimulator.InfusionPumpSimulator.in_range s ->
    let s' := DeviceSimulator.InfusionPumpSimulator._update_pump_state
                cfg s d in
    ((0 <= DeviceSimulator.InfusionPumpSimulator.u_flow d ->
      DeviceSimulator.InfusionPumpSimulator.flow_rate s
      <= DeviceSimulator.InfusionPumpSimulator.flow_rate s') /\
     (DeviceSimulator.InfusionPumpSimulator.u_flow d <= 0 ->
      DeviceSimulator.InfusionPumpSimulator.flow_rate s'
      <= DeviceSimulator.InfusionPumpSimulator.flow_rate s) /\
     (0 <= DeviceSimulator.InfusionPumpSimulator.u_pressure d ->
      DeviceSimulator.InfusionPumpSimulator.pressure s
      <= DeviceSimulator.InfusionPumpSimulator.pressure s') /\
     (DeviceSimulator.InfusionPumpSimulator.u_pressure d <= 0 ->
      DeviceSimulator.InfusionPumpSimulator.pressure s'
      <= DeviceSimulator.InfusionPumpSimulator.pressure s))%Q.
Proof.
  intros cfg s d (Hf & Hp & Hb) s'. subst s'.
  unfold DeviceSimulator.InfusionPumpSimulator._update_pump_state.
  cbn [DeviceSimulator.InfusionPumpSimulator.flow_rate
       DeviceSimulator.InfusionPumpSimulator.pressure].
  split; [|split; [|split]]; intros Hd.
  - now apply clamp_up.
  - now apply clamp_down.
  - now apply clamp_up.
  - now apply clamp_down.
Qed.

Lemma pump_step_follows_the_draw_witness :
  (DeviceSimulator.InfusionPumpSimulator.flow_rate
     DeviceSimulator.InfusionPumpSimulator.init
   <= DeviceSimulator.InfusionPumpSimulator.flow_rate
        (DeviceSimulator.InfusionPumpSimulator._update_pump_state
           Samples.pump_cfg DeviceSimulator.InfusionPumpSimulator.init
           Samples.one_pump_draw))%Q.
Proof.
  destruct (pump_step_follows_the_draw Samples.pump_cfg
              DeviceSimulator.InfusionPumpSimulator.init
              Samples.one_pump_draw pump_init_in_range) as (H & _).
  apply H. simpl. lra.
Defined.

(** X6. From a state within its ranges and with draws within theirs, one
    update of the vital signs moves the heart rate and the diastolic
    pressure by at most 3, the systolic pressure by at most 5 and the
    respiratory rate by at most 1, these four being integers; the oxygen
    saturation and the temperature move the way of their draws or not at
    all. *)
Theorem vitals_step_is_bounded :
  forall s d,
    DeviceSimulator.VitalSignsSimulator.in_range s ->
    DeviceSimulator.VitalSignsSimulator.draws_ok d ->
    let s' := DeviceSimulator.VitalSignsSimulator._update_vitals s d in
    (Z.abs (DeviceSimulator.VitalSignsSimulator.heart_rate s'
            - DeviceSimulator.VitalSignsSimulator.heart_rate s) <= 3 /\
     Z.abs (DeviceSimulator.VitalSignsSimulator.blood_pressure_sys s'
            - DeviceSimulator.VitalSignsSimulator.blood_pressure_sys s) <= 5
     /\
     Z.abs (DeviceSimulator.VitalSignsSimulator.blood_pressure_dia s'
            - DeviceSimulator.VitalSignsSimulator.blood_pressure_dia s) <= 3
     /\
     Z.abs (DeviceSimulator.VitalSignsSimulator.respiratory_rate s'
            - DeviceSimulator.VitalSignsSimulator.respiratory_rate s) <= 1)%Z
    /\
    ((0 <= DeviceSimulator.VitalSignsSimulator.u_oxygen d ->
      DeviceSimulator.VitalSignsSimulator.oxygen_saturation s
      <= DeviceSimulator.VitalSignsSimulator.oxygen_saturation s') /\
     (DeviceSimulator.VitalSignsSimulator.u_oxygen d <= 0 ->
      DeviceSimulator.VitalSignsSimulator.oxygen_saturation s'
      <= DeviceSimulator.VitalSignsSimulator.oxygen_saturation s) /\
     (0 <= DeviceSimulator.VitalSignsSimulator.u_temp d ->
      DeviceSimulator.VitalSignsSimulator.temperature s
      <= DeviceSimulator.VitalSignsSimulator.temperature s') /\
     (DeviceSimulator.VitalSignsSimulator.u_temp d <= 0 ->
      DeviceSimulator.VitalSignsSimulator.temperature s'
      <= DeviceSimulator.VitalSignsSimulator.temperature s))%Q.
Proof.
  intros s d ((Hh & Hs & Hd & Hr) & Ho & Ht)
         ((Hdh & Hds & Hdd & Hdr) & Hdo & Hdt) s'. subst s'.
  unfold DeviceSimulator.VitalSignsSimulator._update_vitals.
  cbn [DeviceSimulator.VitalSignsSimulator.heart_rate
       DeviceSimulator.VitalSignsSimulator.blood_pressure_sys
       DeviceSimulator.VitalSignsSimulator.blood_pressure_dia
       DeviceSimulator.VitalSignsSimulator.respiratory_rate
       DeviceSimulator.VitalSignsSimulator.oxygen_saturation
       DeviceSimulator.VitalSignsSimulator.temperature].
  split; [lia|].
  split; [|split; [|split]]; intros Hdraw.
  - now apply clamp_up.
  - now apply clamp_down.
  - now apply clamp_up.
  - now apply clamp_down.
Qed.

Lemma vitals_step_is_bounded_witness :
  (Z.abs (DeviceSimulator.VitalSignsSimulator.heart_rate
            (DeviceSimulator.VitalSignsSimulator._update_vitals
               DeviceSimulator.VitalSignsSimulator.init
               Samples.one_vitals_draw)
          - DeviceSimulator.VitalSignsSimulator.heart_rate
              DeviceSimulator.VitalSignsSimulator.init) <= 3)%Z.
Proof.
  apply (vitals_step_is_bounded DeviceSimulator.VitalSignsSimulator.init
           Samples.one_vitals_draw).
  - exact vitals_init_in_range.
  - split; simpl; [lia | lra].
Defined.

(** X7. The alerts of the vital-signs monitor never hold TACHYCARDIA
    together with BRADYCARDIA, nor HYPERTENSION together with HYPOTENSION;
    each of the six alerts is listed exactly when its threshold is crossed;
    and a state with heart rate in [60,100], systolic pressure in [100,140],
    oxygen saturation at least 90 and temperature at most 38 has no alert. *)
Theorem vitals_alerts_are_consistent :
  forall s,
    let alerts := DeviceSimulator.VitalSignsSimulator._generate_alerts s in
    ~ (In "TACHYCARDIA" alerts /\ In "BRADYCARDIA" alerts) /\
    ~ (In "HYPERTENSION" alerts /\ In "HYPOTENSION" alerts) /\
    (In "TACHYCARDIA" alerts
     <-> (100 < DeviceSimulator.VitalSignsSimulator.heart_rate s)%Z) /\
    (In "BRADYCARDIA" alerts
     <-> (DeviceSimulator.VitalSignsSimulator.heart_rate s < 60)%Z) /\
    (In "HYPERTENSION" alerts
     <-> (140 < DeviceSimulator.VitalSignsSimulator.blood_pressure_sys s)%Z)
    /\
    (In "HYPOTENSION" alerts
     <-> (DeviceSimulator.VitalSignsSimulator.blood_pressure_sys s < 100)%Z)
    /\
    (In "LOW_OXYGEN" alerts
     <-> (DeviceSimulator.VitalSignsSimulator.oxygen_saturation s < 90)%Q) /\
    (In "FEVER" alerts
     <-> (38 < DeviceSimulator.VitalSignsSimulator.temperature s)%Q) /\
    ((60 <= DeviceSimulator.VitalSignsSimulator.heart_rate s <= 100)%Z ->
     (100 <= DeviceSimulator.VitalSignsSimulator.blood_pressure_sys s
      <= 140)%Z ->
     (90 <= DeviceSimulator.VitalSignsSimulator.oxygen_saturation s)%Q ->
     (DeviceSimulator.VitalSignsSimulator.temperature s <= 38)%Q ->
     alerts = []).
Proof.
  intros s alerts. subst alerts.
  unfold DeviceSimulator.VitalSignsSimulator._generate_alerts.
  destruct (Z.ltb_spec 100 (DeviceSimulator.VitalSignsSimulator.heart_rate s));
    destruct (Z.ltb_spec (DeviceSimulator.VitalSignsSimulator.heart_rate s)
                60);
    destruct (Z.ltb_spec 140
                (DeviceSimulator.VitalSignsSimulator.blood_pressure_sys s));
    destruct (Z.ltb_spec
                (DeviceSimulator.VitalSignsSimulator.blood_pressure_sys s)
                100);
    destruct (Qltb_spec
                (DeviceSimulator.VitalSignsSimulator.oxygen_saturation s) 90);
    destruct (Qltb_spec 38
                (DeviceSimulator.VitalSignsSimulator.temperature s));
    try lia; cbn; unfold not;
    repeat split; intros;
    repeat match goal with
           | H : _ /\ _ |- _ => destruct H
           | H : _ \/ _ |- _ => destruct H
           | H : False |- _ => destruct H
           | H : _ = _ :> string |- _ => discriminate H
           end; try lia; try lra; auto 8.
Qed.

Lemma vitals_alerts_are_consistent_witness :
  DeviceSimulator.VitalSignsSimulator._generate_alerts
    DeviceSimulator.VitalSignsSimulator.init = [].
Proof.
  apply (vitals_alerts_are_consistent
           DeviceSimulator.VitalSignsSimulator.init);
    simpl; try lia; lra.
Defined.

(** ** Subscribers and the run loop *)

Section Subscribers.
Import DeviceSimulator.
Context {W : Type}.





End Subscribers.



Section RunLoop.
Import DeviceSimulator.
Context {W : Type}.









End RunLoop.



(** ** The registry of simulators *)

Section ManagerFacts.
Import DeviceSimulator.
Context {W : Type}.

Lemma lookup_store_same (d : list (string * Simulator W)) k v :
  lookup (store d k v) k = Some v.
Proof.
  induction d as [|[k' v'] d IH]; simpl.
  - now rewrite String.eqb_refl.
  - destruct (String.eqb k' k) eqn:E; simpl; rewrite E; [reflexivity|].
    exact IH.
Qed.

Lemma lookup_store_other (d : list (string * Simulator W)) k v k0 :
  k0 <> k -> lookup (store d k v) k0 = lookup d k0.
Proof.
  intros N. induction d as [|[k' v'] d IH]; simpl.
  - destruct (String.eqb_spec k k0); [congruence | reflexivity].
  - destruct (String.eqb_spec k' k) as [-> | N']; simpl.
    + destruct (String.eqb_spec k k0); [congruence | reflexivity].
    + now rewrite IH.
Qed.

Lemma store_keys (d : list (string * Simulator W)) k v k0 :
  In k0 (map fst (store d k v)) <-> k0 = k \/ In k0 (map fst d).
Proof.
  induction d as [|[k' v'] d IH]; simpl.
  - intuition.
  - destruct (String.eqb_spec k' k) as [-> | N]; simpl.
    + intuition.
    + rewrite IH. intuition.
Qed.

Lemma store_NoDup (d : list (string * Simulator W)) k v :
  NoDup (map fst d) -> NoDup (map fst (store d k v)).
Proof.
  induction d as [|[k' v'] d IH]; simpl; intros H.
  - repeat constructor. intros [].
  - inversion H as [|? ? Hn Hd]; subst.
    destruct (String.eqb_spec k' k) as [-> | N]; simpl.
    + now constructor.
    + constructor; [|now apply IH].
      rewrite store_keys. intros [E | Hin]; [congruence | contradiction].
Qed.

Lemma store_Forall (P : string * Simulator W -> Prop) d k v :
  Forall P d -> P (k, v) -> Forall P (store d k v).
Proof.
  intros Hd Hv. induction d as [|[k' v'] d IH]; simpl.
  - now repeat constructor.
  - inversion Hd; subst.
    destruct (String.eqb_spec k' k) as [-> | N]; constructor; auto.
Qed.

Lemma with_callbacks_added (cbs : list (callback W)) :
  forall sim : Simulator W,
    let sim' :=
      fold_left (fun s0 cb => with_base s0 (add_callback (base s0) cb))
        cbs sim in
    callbacks (base sim') = callbacks (base sim) ++ cbs /\
    config (base sim') = config (base sim) /\
    running (base sim') = running (base sim) /\
    thread (base sim') = thread (base sim) /\
    data_history (base sim') = data_history (base sim) /\
    dev sim' = dev sim.
Proof.
  induction cbs as [|cb cbs IH]; intros sim; simpl.
  - rewrite app_nil_r. now repeat split.
  - destruct (IH (with_base sim (add_callback (base sim) cb)))
      as (H1 & H2 & H3 & H4 & H5 & H6).
    simpl in *. rewrite H1, <- app_assoc. now repeat split.
Qed.

Lemma register_well_formed (m : DeviceSimulatorManager W) r :
  well_formed m -> well_formed (register m r).
Proof.
  intros [Hf Hn]. destruct r as [device_type cfg | cb]; simpl.
  - unfold add_simulator. destruct (new_device device_type) as [d|];
      [|now split].
    destruct (with_callbacks_added (data_callbacks m)
                {| base := __init__ cfg; dev := d |})
      as (H1 & H2 & _).
    split; simpl.
    + apply store_Forall; [exact Hf|]. simpl. split.
      * exact H1.
      * now rewrite H2.
    + now apply store_NoDup.
  - split; simpl.
    + rewrite Forall_map. eapply Forall_impl; [|exact Hf].
      intros [k sim] [Hc Hk]. simpl in *. split; [now rewrite Hc | exact Hk].
    + rewrite map_map. simpl. exact Hn.
Qed.

Lemma registered_well_formed (rs : list (registration W)) :
  well_formed (registered rs).
Proof.
  unfold registered.
  assert (H : forall m : DeviceSimulatorManager W,
             well_formed m -> well_formed (fold_left register rs m)).
  { induction rs as [|r rs IH]; intros m Hm; simpl; [exact Hm|].
    apply IH. now apply register_well_formed. }
  apply H. split; constructor.
Qed.

End ManagerFacts.

(** X10. However simulators and global callbacks are registered, in any
    order and number, every simulator of the manager ends up with exactly
    the manager's global callbacks, in their registration order: a callback
    added later reaches the simulators already there, and a simulator added
    later gets the callbacks already there. *)
Theorem registry_callbacks_in_sync :
  forall (W : Type) (rs : list (DeviceSimulator.registration W)),
    Forall
      (fun kv =>
         DeviceSimulator.callbacks (DeviceSimulator.base (snd kv))
         = DeviceSimulator.data_callbacks (DeviceSimulator.registered rs))
      (DeviceSimulator.simulators (DeviceSimulator.registered rs)).
Proof.
  intros W rs. destruct (registered_well_formed rs) as [H _].
  eapply Forall_impl; [|exact H]. now intros kv [Hc _].
Qed.

(** X11. The manager's dict never holds two simulators under one device
    id, and every simulator sits under the device id of its own
    configuration, however the registrations went; so registering a second
    simulator with an id already present replaces the first. *)
Theorem registry_is_keyed_by_device_id :
  forall (W : Type) (rs : list (DeviceSimulator.registration W)),
    NoDup (map fst (DeviceSimulator.simulators
                      (DeviceSimulator.registered rs))) /\
    Forall
      (fun kv =>
         fst kv = DeviceSimulator.device_id
                    (DeviceSimulator.config (DeviceSimulator.base (snd kv))))
      (DeviceSimulator.simulators (DeviceSimulator.registered rs)).
Proof.
  intros W rs. destruct (registered_well_formed rs) as [H Hn].
  split; [exact Hn|].
  eapply Forall_impl; [|exact H]. now intros kv [_ Hk].
Qed.

(** X12. [add_simulator] raises for a device type other than
    "infusion_pump", "patient_bed" and "vital_signs", and only then.
    Otherwise [get_simulator] finds the new simulator under the device id
    of the configuration and finds what it found before under every other
    id; the new simulator is stopped, has an empty history, and carries the
    manager's callbacks and the given configuration. *)
Theorem add_simulator_then_get :
  forall (W : Type) (m : DeviceSimulator.DeviceSimulatorManager W)
         device_type cfg,
    (DeviceSimulator.add_simulator m device_type cfg
     = DeviceSimulator.UnknownDeviceType device_type
     <-> device_type <> "infusion_pump" /\ device_type <> "patient_bed" /\
         device_type <> "vital_signs") /\
    (forall m' sim,
        DeviceSimulator.add_simulator m device_type cfg
        = DeviceSimulator.Added m' sim ->
        DeviceSimulator.get_simulator m' (DeviceSimulator.device_id cfg)
        = Some sim /\
        (forall id, id <> DeviceSimulator.device_id cfg ->
                    DeviceSimulator.get_simulator m' id
                    = DeviceSimulator.get_simulator m id) /\
        DeviceSimulator.data_callbacks m' = DeviceSimulator.data_callbacks m
        /\
        DeviceSimulator.base sim
        = {| DeviceSimulator.config := cfg;
             DeviceSimulator.running := false;
             DeviceSimulator.thread := None;
             DeviceSimulator.data_history := [];
             DeviceSimulator.callbacks := DeviceSimulator.data_callbacks m |}).
Proof.
  intros W m device_type cfg. split.
  - unfold DeviceSimulator.add_simulator, DeviceSimulator.new_device.
    destruct (String.eqb_spec device_type "infusion_pump");
      [split; [discriminate | intros (N & _); contradiction]|].
    destruct (String.eqb_spec device_type "patient_bed");
      [split; [discriminate | intros (_ & N & _); contradiction]|].
    destruct (String.eqb_spec device_type "vital_signs");
      [split; [discriminate | intros (_ & _ & N); contradiction]|].
    now split.
  - intros m' sim H. unfold DeviceSimulator.add_simulator in H.
    destruct (DeviceSimulator.new_device device_type) as [d|];
      [|discriminate].
    destruct (with_callbacks_added (DeviceSimulator.data_callbacks m)
                {| DeviceSimulator.base := DeviceSimulator.__init__ cfg;
                   DeviceSimulator.dev := d |})
      as (H1 & H2 & H3 & H4 & H5 & _).
    inversion H as [[Hm Hs]]. clear H. rewrite Hs in *.
    unfold DeviceSimulator.get_simulator. simpl. repeat split.
    + apply lookup_store_same.
    + intros id N. now apply lookup_store_other.
    + destruct (DeviceSimulator.base sim). simpl in *. congruence.
Qed.

Lemma add_simulator_then_get_witness :
  DeviceSimulator.add_simulator
    (@DeviceSimulator.manager_init unit) "ventilator" Samples.pump_cfg
  = DeviceSimulator.UnknownDeviceType "ventilator".
Proof.
  apply (add_simulator_then_get unit DeviceSimulator.manager_init
           "ventilator" Samples.pump_cfg).
  repeat split; discriminate.
Defined.

Section StartStop.
Import DeviceSimulator.
Context {W : Type}.

Lemma with_base_same (sim : Simulator W) : with_base sim (base sim) = sim.
Proof. now destruct sim. Qed.

Lemma start_each_spec (d : list (string * Simulator W)) : forall fresh,
  let '(d1, ts, out) := start_each fresh d in
  Forall (fun kv => running (base (snd kv)) = true) d1 /\
  map fst d1 = map fst d /\
  map ident ts
  = seq fresh
      (List.length (filter (fun kv => negb (running (base (snd kv)))) d)) /\
  Forall (fun t => alive t = true) ts.
Proof.
  induction d as [|[k sim] d IH]; intros fresh; simpl.
  - repeat split; constructor.
  - unfold start. destruct (running (base sim)) eqn:Hrun; simpl.
    + specialize (IH (fresh + 0)%nat).
      destruct (start_each (fresh + 0) d) as [[d1 ts] out].
      destruct IH as (H1 & H2 & H3 & H4).
      rewrite Nat.add_0_r in H3.
      split; [|split; [|split]].
      * constructor; [exact Hrun | exact H1].
      * simpl. now rewrite H2.
      * exact H3.
      * exact H4.
    + specialize (IH (fresh + 1)%nat).
      destruct (start_each (fresh + 1) d) as [[d1 ts] out].
      destruct IH as (H1 & H2 & H3 & H4).
      rewrite Nat.add_1_r in H3.
      split; [|split; [|split]].
      * constructor; [reflexivity | exact H1].
      * simpl. now rewrite H2.
      * simpl. now rewrite H3.
      * constructor; [reflexivity | exact H4].
Qed.

Lemma start_each_again (d : list (string * Simulator W)) : forall fresh,
  Forall (fun kv => running (base (snd kv)) = true) d ->
  start_each fresh d = (d, [], []).
Proof.
  induction d as [|[k sim] d IH]; intros fresh H; simpl; [reflexivity|].
  inversion H as [|? ? Hr Hd]; subst. simpl in Hr.
  unfold start. rewrite Hr. simpl.
  rewrite (IH _ Hd), with_base_same. reflexivity.
Qed.

Lemma stop_from_outside current (b : BaseDeviceSimulator W) :
  (forall t, thread b = Some t -> alive t = true -> ident t <> current) ->
  exists b',
    stop current b
    = (b', [LogStopped (device_type (config b)) (device_id (config b))],
       Ok tt) /\
    stopped b'.
Proof.
  intros H. unfold stop, stopped. destruct b as [cfg run th hist cbs].
  simpl in *. destruct th as [t|]; simpl.
  - unfold join. destruct (alive t) eqn:Ha.
    + destruct (Nat.eqb_spec (ident t) current) as [E | N].
      * exfalso. exact (H t eq_refl Ha E).
      * eexists. split; [reflexivity|]. simpl. split; [reflexivity|].
        right. eexists. split; reflexivity.
    + eexists. split; [reflexivity|]. simpl. split; [reflexivity|].
      right. exists t. now split.
  - eexists. split; [reflexivity|]. simpl. split; [reflexivity | now left].
Qed.

Lemma stop_each_from_outside current (d : list (string * Simulator W)) :
  outside current d ->
  exists d' out,
    stop_each current d = (d', out, Ok tt) /\
    Forall (fun kv => stopped (base (snd kv))) d' /\
    map fst d' = map fst d /\
    List.length out = List.length d.
Proof.
  induction d as [|[k sim] d IH]; intros H; simpl.
  - exists [], []. repeat split; constructor.
  - inversion H as [|? ? Hs Hd]; subst. simpl in Hs.
    destruct (stop_from_outside current (base sim) Hs) as (b' & E & Hb).
    destruct (IH Hd) as (d' & out & E' & Hf & Hk & Hl).
    rewrite E, E'. do 2 eexists. split; [reflexivity|].
    repeat split.
    + constructor; [exact Hb | exact Hf].
    + simpl. now rewrite Hk.
    + simpl. now rewrite Hl.
Qed.

(** The runner whose own thread calls [stop] has its flag lowered and the
    call raises. *)
Lemma stop_from_inside (b : BaseDeviceSimulator W) t :
  thread b = Some t -> alive t = true ->
  stop (ident t) b
  = ({| config := config b; running := false; thread := thread b;
        data_history := data_history b; callbacks := callbacks b |},
     [], Raise (RuntimeError "cannot join current thread")).
Proof.
  intros Ht Ha. unfold stop. simpl. rewrite Ht. unfold join.
  now rewrite Ha, Nat.eqb_refl.
Qed.

Lemma stop_each_app current (pre : list (string * Simulator W)) :
  forall rest pre' out,
    stop_each current pre = (pre', out, Ok tt) ->
    stop_each current (pre ++ rest)
    = let '(rest', out', r) := stop_each current rest in
      (pre' ++ rest', out ++ out', r).
Proof.
  induction pre as [|[k sim] pre IH]; intros rest pre' out H; simpl in *.
  - inversion H; subst. now destruct (stop_each current rest) as [[? ?] ?].
  - destruct (stop current (base sim)) as [[b o] [[]|e]]; [|discriminate].
    destruct (stop_each current pre) as [[p1 o1] [[]|e1]]; [|discriminate].
    inversion H; subst. rewrite (IH rest p1 o1 eq_refl).
    destruct (stop_each current rest) as [[r1 o2] r2].
    now rewrite app_assoc.
Qed.

End StartStop.

(** X13. [start_all] leaves every simulator running and starts one thread
    for each simulator that was not, and none for the others; called again
    it starts no thread and changes nothing, while printing its line
    again.  [stop_all], called from a thread that is not a live runner
    thread of the manager, returns normally and leaves every simulator
    stopped. *)
Theorem start_all_and_stop_all_reach_every_simulator :
  forall (W : Type) (m : DeviceSimulator.DeviceSimulatorManager W),
    (forall fresh,
        let '(m1, ts, out) := DeviceSimulator.start_all fresh m in
        Forall (fun kv => DeviceSimulator.running
                            (DeviceSimulator.base (snd kv)) = true)
               (DeviceSimulator.simulators m1) /\
        map fst (DeviceSimulator.simulators m1)
        = map fst (DeviceSimulator.simulators m) /\
        map DeviceSimulator.ident ts
        = seq fresh
            (List.length
               (filter (fun kv => negb (DeviceSimulator.running
                                          (DeviceSimulator.base (snd kv))))
                       (DeviceSimulator.simulators m))) /\
        forall fresh',
          DeviceSimulator.start_all fresh' m1
          = (m1, [],
             [DeviceSimulator.LogStartedAll
                (List.length (DeviceSimulator.simulators m))])) /\
    (forall current,
        DeviceSimulator.outside current (DeviceSimulator.simulators m) ->
        exists m' out,
          DeviceSimulator.stop_all current m = (m', out, Ok tt) /\
          Forall (fun kv => DeviceSimulator.stopped
                              (DeviceSimulator.base (snd kv)))
                 (DeviceSimulator.simulators m') /\
          map fst (DeviceSimulator.simulators m')
          = map fst (DeviceSimulator.simulators m)).
Proof.
  intros W m. split.
  - intros fresh. unfold DeviceSimulator.start_all.
    pose proof (start_each_spec (DeviceSimulator.simulators m) fresh) as H.
    destruct (DeviceSimulator.start_each fresh (DeviceSimulator.simulators m))
      as [[d1 ts] out].
    destruct H as (H1 & H2 & H3 & _). simpl. repeat split; auto.
    intros fresh'. rewrite (start_each_again d1 fresh' H1). simpl.
    apply (f_equal (@List.length _)) in H2. rewrite !length_map in H2.
    now rewrite H2.
  - intros current H. unfold DeviceSimulator.stop_all.
    destruct (stop_each_from_outside current _ H)
      as (d' & out & E & Hf & Hk & _).
    rewrite E. do 2 eexists. split; [reflexivity|]. now split.
Qed.

Lemma start_all_and_stop_all_reach_every_simulator_witness :
  exists m' out,
    DeviceSimulator.stop_all 0%nat Samples.small_registry = (m', out, Ok tt)
    /\
    Forall (fun kv => DeviceSimulator.stopped
                        (DeviceSimulator.base (snd kv)))
           (DeviceSimulator.simulators m') /\
    map fst (DeviceSimulator.simulators m')
    = map fst (DeviceSimulator.simulators Samples.small_registry).
Proof.
  apply (start_all_and_stop_all_reach_every_simulator unit
           Samples.small_registry).
  repeat constructor; simpl; intros t Ht _; inversion Ht; simpl; lia.
Defined.

(** X14. [stop_all] called from the live thread of one of the runners (a
    subscriber calling it, say) raises at that runner: the simulators before
    it are stopped, its own running flag is lowered, and the simulators
    after it are left exactly as they were, still running if they were. *)
Theorem stop_all_ends_at_the_calling_runner :
  forall (W : Type) pre k (sim : DeviceSimulator.Simulator W) rest cbs t,
    DeviceSimulator.thread (DeviceSimulator.base sim) = Some t ->
    DeviceSimulator.alive t = true ->
    DeviceSimulator.outside (DeviceSimulator.ident t) pre ->
    exists pre' out,
      DeviceSimulator.stop_all (DeviceSimulator.ident t)
        {| DeviceSimulator.simulators := pre ++ (k, sim) :: rest;
           DeviceSimulator.data_callbacks := cbs |}
      = ({| DeviceSimulator.simulators :=
              pre'
              ++ (k, DeviceSimulator.with_base sim
                       {| DeviceSimulator.config :=
                            DeviceSimulator.config (DeviceSimulator.base sim);
                          DeviceSimulator.running := false;
                          DeviceSimulator.thread :=
                            DeviceSimulator.thread (DeviceSimulator.base sim);
                          DeviceSimulator.data_history :=
                            DeviceSimulator.data_history
                              (DeviceSimulator.base sim);
                          DeviceSimulator.callbacks :=
                            DeviceSimulator.callbacks
                              (DeviceSimulator.base sim) |})
              :: rest;
            DeviceSimulator.data_callbacks := cbs |},
         out, Raise (RuntimeError "cannot join current thread")) /\
      Forall (fun kv => DeviceSimulator.stopped
                          (DeviceSimulator.base (snd kv))) pre' /\
      map fst pre' = map fst pre.
Proof.
  intros W pre k sim rest cbs t Ht Ha Hpre.
  destruct (stop_each_from_outside _ pre Hpre)
    as (pre' & out & E & Hf & Hk & _).
  exists pre', (map DeviceSimulator.FromSimulator out).
  split; [|now split].
  unfold DeviceSimulator.stop_all. simpl.
  rewrite (stop_each_app _ pre ((k, sim) :: rest) pre' out E). simpl.
  rewrite (stop_from_inside (DeviceSimulator.base sim) t Ht Ha).
  now rewrite app_nil_r.
Qed.

Lemma stop_all_ends_at_the_calling_runner_witness :
  exists pre' out,
    DeviceSimulator.stop_all 1%nat Samples.small_registry
    = ({| DeviceSimulator.simulators :=
            pre'
            ++ [("pump_001",
                 DeviceSimulator.with_base Samples.running_pump
                   {| DeviceSimulator.config := Samples.pump_cfg;
                      DeviceSimulator.running := false;
                      DeviceSimulator.thread :=
                        Some {| DeviceSimulator.ident := 1;
                                DeviceSimulator.alive := true |};
                      DeviceSimulator.data_history := [];
                      DeviceSimulator.callbacks := [] |});
                ("bed_001", Samples.paused_bed)];
          DeviceSimulator.data_callbacks := [] |},
       out, Raise (RuntimeError "cannot join current thread")) /\
    Forall (fun kv => DeviceSimulator.stopped
                        (DeviceSimulator.base (snd kv))) pre' /\
    map fst pre' = map fst (@nil (string * DeviceSimulator.Simulator unit)).
Proof.
  apply (stop_all_ends_at_the_calling_runner unit []
           "pump_001" Samples.running_pump
           [("bed_001", Samples.paused_bed)] []
           {| DeviceSimulator.ident := 1; DeviceSimulator.alive := true |}).
  - reflexivity.
  - reflexivity.
  - constructor.
Defined.

(** ** The batching dispatcher, further *)

Section DispatcherMore.
Import DataSink DataSink.APIDataSink.
Arguments batch_request : simpl never.
Arguments records_of : simpl never.

Lemma map_undict (b : list dict) : map undict (map VDict b) = b.
Proof. induction b; simpl; [reflexivity | now rewrite IHb]. Qed.

(** The records of a batch are read back from its request. *)
Lemma records_of_batch_request u (b : list dict) :
  records_of (batch_request u b) = b.
Proof.
  destruct b as [|b0 [|b1 b]]; unfold records_of, batch_request; simpl.
  - reflexivity.
  - reflexivity.
  - now rewrite map_undict.
Qed.

Lemma vstep_held u size v a :
  held (vstep u size v a)
  = held v ++ match a with Write data => [data] | Turn => [] end.
Proof.
  unfold held. destruct v as [q b p]. destruct a as [data|]; simpl.
  - now rewrite !app_assoc.
  - rewrite app_nil_r. destruct q as [|d q].
    + destruct b as [|b0 b]; simpl; [reflexivity|].
      rewrite flat_map_app. simpl.
      rewrite (records_of_batch_request u (b0 :: b)).
      now rewrite !app_nil_r.
    + destruct (size <=? Z.of_nat (List.length (b ++ [d])))%Z; simpl.
      * rewrite flat_map_app. simpl.
        rewrite (records_of_batch_request u (b ++ [d])).
        rewrite app_nil_r. now rewrite <- !app_assoc.
      * now rewrite <- !app_assoc.
Qed.

Lemma vrun_held u size sch : forall v,
  held (vrun u size v sch) = held v ++ writes sch.
Proof.
  induction sch as [|a sch IH]; intros v; simpl.
  - now rewrite app_nil_r.
  - change (vrun u size v (a :: sch))
      with (vrun u size (vstep u size v a) sch).
    rewrite IH, vstep_held. destruct a; simpl.
    + now rewrite <- app_assoc.
    + now rewrite app_nil_r.
Qed.

(** The bound that the worker's batch stays under. *)
Lemma vstep_bound u size v a :
  let cap := Z.max 1 size in
  (Z.of_nat (List.length (v_batch v)) < cap)%Z ->
  Forall (fun rq => (1 <= Z.of_nat (List.length (records_of rq)) <= cap)%Z)
         (v_posted v) ->
  (Z.of_nat (List.length (v_batch (vstep u size v a))) < cap)%Z /\
  Forall (fun rq => (1 <= Z.of_nat (List.length (records_of rq)) <= cap)%Z)
         (v_posted (vstep u size v a)).
Proof.
  intros cap Hb Hp. destruct v as [q b p]. simpl in *.
  destruct a as [data|]; simpl; [now split|].
  destruct q as [|d q].
  - destruct b as [|b0 b]; simpl; [now split|].
    split; [subst cap; lia|].
    apply Forall_app. split; [exact Hp|]. constructor; [|constructor].
    rewrite (records_of_batch_request u (b0 :: b)). simpl in *. lia.
  - destruct (Z.leb_spec size (Z.of_nat (List.length (b ++ [d]))));
      simpl.
    + split; [subst cap; lia|].
      apply Forall_app. split; [exact Hp|]. constructor; [|constructor].
      rewrite (records_of_batch_request u (b ++ [d])).
      rewrite length_app in *. simpl in *. lia.
    + split; [|exact Hp]. rewrite length_app in *. simpl in *.
      subst cap. lia.
Qed.

Lemma vrun_bound u size sch : forall v,
  let cap := Z.max 1 size in
  (Z.of_nat (List.length (v_batch v)) < cap)%Z ->
  Forall (fun rq => (1 <= Z.of_nat (List.length (records_of rq)) <= cap)%Z)
         (v_posted v) ->
  (Z.of_nat (List.length (v_batch (vrun u size v sch))) < cap)%Z /\
  Forall (fun rq => (1 <= Z.of_nat (List.length (records_of rq)) <= cap)%Z)
         (v_posted (vrun u size v sch)).
Proof.
  induction sch as [|a sch IH]; intros v cap Hb Hp; [now split|].
  destruct (vstep_bound u size v a Hb Hp) as [Hb' Hp'].
  exact (IH (vstep u size v a) Hb' Hp').
Qed.

(** Turns without writes empty the queue, then the batch. *)
Lemma vrun_drain u size : forall q b p,
  let v := vrun u size {| v_queue := q; v_batch := b; v_posted := p |}
             (repeat Turn (S (List.length q))) in
  v_queue v = [] /\ v_batch v = [].
Proof.
  induction q as [|d q IH]; intros b p.
  - simpl. destruct b; simpl; now split.
  - change (repeat Turn (S (List.length (d :: q))))
      with (Turn :: repeat Turn (S (List.length q))).
    cbn [vrun fold_left vstep v_queue v_batch v_posted].
    destruct (size <=? Z.of_nat (List.length (b ++ [d])))%Z; apply IH.
Qed.

Lemma run_held remote u token size w sch :
  let st := run ({| self := APIDataSink.__init__ remote u token size;
                    env := w |}, []) sch in
  flat_map records_of (posted_of (fst st)) ++ snd st ++ queue_of (fst st)
  = writes sch.
Proof.
  intros st. subst st.
  destruct (run_view u size sch
              ({| self := APIDataSink.__init__ remote u token size;
                  env := w |}, [])
              (init_api_sink remote u token size w))
    as [_ V].
  pose proof (vrun_held u size sch
                (view_of ({| self := APIDataSink.__init__ remote u token size;
                             env := w |}, []))) as H.
  rewrite <- V in H. exact H.
Qed.

Lemma writes_app sch1 sch2 : writes (sch1 ++ sch2) = writes sch1 ++ writes sch2.
Proof.
  induction sch1 as [|[d|] sch1 IH]; simpl; [reflexivity | | exact IH].
  now rewrite IH.
Qed.

Lemma writes_turns n : writes (repeat Turn n) = [].
Proof. induction n; simpl; auto. Qed.

End DispatcherMore.

(** X15. Whatever the schedule of writes and worker turns, the batch size
    and the answers of the remote end, the records carried by the requests
    posted so far, followed by the worker's batch, followed by the queue,
    are exactly the records written, in the order they were written: none
    is lost, duplicated or overtaken. *)
Theorem dispatcher_keeps_every_record_in_order :
  forall remote u token size w sch,
    let st := DataSink.APIDataSink.run
                ({| DataSink.self :=
                      DataSink.APIDataSink.__init__ remote u token size;
                    DataSink.env := w |}, []) sch in
    flat_map DataSink.APIDataSink.records_of
      (DataSink.APIDataSink.posted_of (fst st))
    ++ snd st ++ DataSink.APIDataSink.queue_of (fst st)
    = DataSink.APIDataSink.writes sch.
Proof.
  intros remote u token size w sch. apply run_held.
Qed.

(** X16. Whatever the schedule, no request carries fewer than one record or
    more than max(1, batch_size) records, and between turns the worker's
    batch holds fewer than max(1, batch_size) records. *)
Theorem dispatcher_batches_are_bounded :
  forall remote u token size w sch,
    let st := DataSink.APIDataSink.run
                ({| DataSink.self :=
                      DataSink.APIDataSink.__init__ remote u token size;
                    DataSink.env := w |}, []) sch in
    (Z.of_nat (List.length (snd st)) < Z.max 1 size)%Z /\
    Forall
      (fun rq =>
         (1 <= Z.of_nat (List.length (DataSink.APIDataSink.records_of rq))
          <= Z.max 1 size)%Z)
      (DataSink.APIDataSink.posted_of (fst st)).
Proof.
  intros remote u token size w sch st. subst st.
  destruct (run_view u size sch
              ({| DataSink.self :=
                    DataSink.APIDataSink.__init__ remote u token size;
                  DataSink.env := w |}, [])
              (init_api_sink remote u token size w))
    as [_ V].
  pose proof (vrun_bound u size sch
                (DataSink.APIDataSink.view_of
                   ({| DataSink.self :=
                         DataSink.APIDataSink.__init__ remote u token size;
                       DataSink.env := w |}, []))) as H.
  rewrite <- V in H. apply H; simpl; [lia | constructor].
Qed.

(** X17. From any state the dispatcher can reach, as many worker turns as
    there are queued records, plus one, with no write in between, leave the
    queue and the batch empty: every record written has then been posted,
    in order. *)
Theorem dispatcher_drains :
  forall remote u token size w sch,
    let st := DataSink.APIDataSink.run
                ({| DataSink.self :=
                      DataSink.APIDataSink.__init__ remote u token size;
                    DataSink.env := w |}, []) sch in
    let st' := DataSink.APIDataSink.run st
                 (repeat DataSink.APIDataSink.Turn
                    (S (List.length
                          (DataSink.APIDataSink.queue_of (fst st))))) in
    DataSink.APIDataSink.queue_of (fst st') = [] /\
    snd st' = [] /\
    flat_map DataSink.APIDataSink.records_of
      (DataSink.APIDataSink.posted_of (fst st'))
    = DataSink.APIDataSink.writes sch.
Proof.
  intros remote u token size w sch st st'.
  destruct (run_view u size sch
              ({| DataSink.self :=
                    DataSink.APIDataSink.__init__ remote u token size;
                  DataSink.env := w |}, [])
              (init_api_sink remote u token size w))
    as [S1 V1]. fold st in S1, V1.
  destruct (run_view u size
              (repeat DataSink.APIDataSink.Turn
                 (S (List.length (DataSink.APIDataSink.queue_of (fst st)))))
              st S1) as [_ V2]. fold st' in V2.
  pose proof (vrun_drain u size (DataSink.APIDataSink.queue_of (fst st))
                (snd st) (DataSink.APIDataSink.posted_of (fst st))) as D.
  change {| DataSink.APIDataSink.v_queue :=
              DataSink.APIDataSink.queue_of (fst st);
            DataSink.APIDataSink.v_batch := snd st;
            DataSink.APIDataSink.v_posted :=
              DataSink.APIDataSink.posted_of (fst st) |}
    with (DataSink.APIDataSink.view_of st) in D.
  rewrite <- V2 in D. destruct D as [Dq Db].
  change (DataSink.APIDataSink.queue_of (fst st') = []) in Dq.
  change (snd st' = []) in Db.
  split; [exact Dq|]. split; [exact Db|].
  pose proof (run_held remote u token size w
                (sch ++ repeat DataSink.APIDataSink.Turn
                          (S (List.length
                                (DataSink.APIDataSink.queue_of (fst st))))))
    as K.
  cbv zeta in K. rewrite run_app in K. fold st in K. fold st' in K.
  rewrite Dq, Db, !app_nil_r in K. rewrite K.
  now rewrite writes_app, writes_turns, app_nil_r.
Qed.

(** ** The database sink, further *)

Section DbMore.
Import DataSink DataSink.DatabaseDataSink.
Variable json_dumps : value -> string.

Lemma with_conn_same c cn :
  impl (self c) = IDatabase cn ->
  c = with_conn c {| committed := committed cn;
                     pending := pending cn ++ [] |}.
Proof.
  destruct c as [[nm en im] w], cn. simpl. intros ->.
  unfold with_conn. simpl. now rewrite app_nil_r.
Qed.

Lemma inserts_pure {A} (r : result A) : inserts 0 0 0 (lift r).
Proof.
  intros c cn H. exists []. split; [now apply with_conn_same|].
  simpl. destruct r; simpl; lia.
Qed.

Lemma inserts_item data k : inserts 0 0 0 (item data k).
Proof. apply inserts_pure. Qed.

Lemma inserts_ret {A} (a : A) : inserts 0 0 0 (ret a).
Proof. exact (inserts_pure (Ok a)). Qed.

Lemma inserts_execute t ps : inserts 1 1 0 (execute t ps).
Proof.
  intros c cn H.
  cbv beta iota zeta delta [execute mbind conn set_impl raise].
  rewrite H. destruct (forallb bindable ps).
  - exists [{| table := t; params := ps |}].
    split; [reflexivity | simpl; lia].
  - exists []. split; [now apply with_conn_same | simpl; lia].
Qed.

Lemma inserts_weaken {A} lo hi r lo' hi' r' (m : M A) :
  inserts lo hi r m ->
  (lo' <= lo)%nat -> (hi <= hi')%nat -> (r <= r')%nat ->
  inserts lo' hi' r' m.
Proof.
  intros H ? ? ? c cn Hc. destruct (H c cn Hc) as (rows & E & Hr).
  exists rows. split; [exact E|]. destruct (snd (m c)); lia.
Qed.

Lemma inserts_bind {A B} lo1 hi1 r1 lo2 hi2 r2 (m : M A) (k : A -> M B) :
  inserts lo1 hi1 r1 m -> (forall a, inserts lo2 hi2 r2 (k a)) ->
  inserts (lo1 + lo2) (hi1 + hi2) (Nat.max r1 (hi1 + r2)) (mbind m k).
Proof.
  intros Hm Hk c cn Hc. destruct (Hm c cn Hc) as (rows & E & Hr).
  unfold mbind. destruct (m c) as [c1 [a|e]]; simpl in *.
  - subst c1.
    destruct (Hk a (with_conn c {| committed := committed cn;
                                   pending := pending cn ++ rows |})
                {| committed := committed cn;
                   pending := pending cn ++ rows |} eq_refl)
      as (rows2 & E2 & Hr2).
    exists (rows ++ rows2). split.
    + rewrite E2. unfold with_conn. simpl. now rewrite app_assoc.
    + rewrite length_app.
      match goal with |- match ?x with _ => _ end => destruct x end; lia.
  - exists rows. split; [exact E | lia].
Qed.

Lemma finishes_commit {A} lo hi r (m : M A) :
  inserts lo hi r m -> finishes lo hi r (mbind m (fun _ => commit)).
Proof.
  intros Hm c cn Hc. destruct (Hm c cn Hc) as (rows & E & Hr).
  unfold mbind. destruct (m c) as [c1 [a|e]]; simpl in *.
  - subst c1. cbv beta iota zeta delta [commit mbind conn set_impl].
    cbn. eexists. split; [reflexivity|]. cbn. split; [reflexivity|].
    exists rows. split; [reflexivity | exact Hr].
  - eexists. split; [exact E|]. cbn. split; [reflexivity|].
    exists rows. now split.
Qed.

Lemma finishes_bind {A B} lo1 hi1 r1 lo2 hi2 r2 (m : M A) (k : A -> M B) :
  inserts lo1 hi1 r1 m -> (forall a, finishes lo2 hi2 r2 (k a)) ->
  finishes (lo1 + lo2) (hi1 + hi2) (Nat.max r1 (hi1 + r2)) (mbind m k).
Proof.
  intros Hm Hk c cn Hc. destruct (Hm c cn Hc) as (rows & E & Hr).
  unfold mbind. destruct (m c) as [c1 [a|e]]; simpl in *.
  - subst c1.
    destruct (Hk a (with_conn c {| committed := committed cn;
                                   pending := pending cn ++ rows |})
                {| committed := committed cn;
                   pending := pending cn ++ rows |} eq_refl)
      as (cn' & E2 & Hr2).
    exists cn'. split; [rewrite E2; reflexivity|].
    match goal with |- match ?x with _ => _ end => destruct x end; cbn in *.
    + destruct Hr2 as (Hp & rows2 & Hcm & Hl). split; [exact Hp|].
      exists (rows ++ rows2). rewrite Hcm, length_app.
      split; [now rewrite <- !app_assoc | lia].
    + destruct Hr2 as (Hcm & rows2 & Hp & Hl). split; [exact Hcm|].
      exists (rows ++ rows2). rewrite Hp, length_app.
      split; [now rewrite <- !app_assoc | lia].
  - eexists. split; [exact E|]. cbn. split; [reflexivity|].
    exists rows. split; [reflexivity | lia].
Qed.

Lemma finishes_weaken {A} lo hi r lo' hi' r' (m : M A) :
  finishes lo hi r m ->
  (lo' <= lo)%nat -> (hi <= hi')%nat -> (r <= r')%nat ->
  finishes lo' hi' r' m.
Proof.
  intros H ? ? ? c cn Hc. destruct (H c cn Hc) as (cn' & E & Hr).
  exists cn'. split; [exact E|]. destruct (snd (m c)).
  - destruct Hr as (Hp & rows & Hcm & Hl). split; [exact Hp|].
    exists rows. split; [exact Hcm | lia].
  - destruct Hr as (Hcm & rows & Hp & Hl). split; [exact Hcm|].
    exists rows. split; [exact Hp | lia].
Qed.

Ltac inserts_build :=
  repeat first
    [ apply inserts_item
    | apply inserts_pure
    | apply inserts_ret
    | apply inserts_execute
    | eapply inserts_bind; [|intros] ].



(** What [write] does once the enabled flag has been read. *)
Lemma write_finishes data c cn c' r :
  impl (self c) = IDatabase cn -> enabled (self c) = true ->
  write json_dumps data c = (c', r) ->
  exists cn',
    c' = with_conn c cn' /\
    match r with
    | Ok _ =>
        pending cn' = [] /\
        exists rows,
          committed cn' = committed cn ++ pending cn ++ rows /\
          (1 <= List.length rows <= 2)%nat
    | Raise _ =>
        committed cn' = committed cn /\
        exists rows,
          pending cn' = pending cn ++ rows /\
          (List.length rows <= 1)%nat
    end.
Proof.
  intros Hc Hen E. unfold write in E.
  unfold mbind at 1 in E. unfold get_self at 1 in E. cbn beta iota in E.
  rewrite Hen in E. cbn [negb] in E.
  match type of E with
  | ?m c = _ => assert (F : finishes 1 2 1 m)
  end.
  { eapply finishes_weaken.
    - repeat (eapply finishes_bind;
              [first [apply inserts_item | apply inserts_execute] | intros]).
      apply finishes_commit with (lo := 0%nat) (hi := 1%nat) (r := 0%nat).
      repeat match goal with
             | |- inserts _ _ _ (if ?b then _ else _) => destruct b
             end;
        (eapply inserts_weaken; [inserts_build | simpl; lia ..]).
    - simpl; lia.
    - simpl; lia.
    - simpl; lia. }
  destruct (F c cn Hc) as (cn' & E1 & E2).
  rewrite E in E1, E2. simpl in E1, E2. exists cn'. now split.
Qed.


End DbMore.

(** X18. A write of the database sink is all or nothing for what becomes
    durable.  When it returns, the transaction is empty and the committed
    rows have grown by the rows that were open plus one or two new ones;
    when it raises, the committed rows are exactly as before and at most
    one new row is left open in the transaction.  In both cases the world
    and the sink's name and flag are untouched. *)
Theorem database_write_commits_all_or_nothing :
  forall json_dumps data c cn c' r,
    DataSink.impl (DataSink.self c) = DataSink.IDatabase cn ->
    DataSink.enabled (DataSink.self c) = true ->
    DataSink.DatabaseDataSink.write json_dumps data c = (c', r) ->
    DataSink.env c' = DataSink.env c /\
    DataSink.name (DataSink.self c') = DataSink.name (DataSink.self c) /\
    DataSink.enabled (DataSink.self c') = true /\
    let cn' := DataSink.DatabaseDataSink.conn_of c' in
    match r with
    | Ok _ =>
        DataSink.pending cn' = [] /\
        exists rows,
          DataSink.committed cn'
          = DataSink.committed cn ++ DataSink.pending cn ++ rows /\
          (1 <= List.length rows <= 2)%nat
    | Raise _ =>
        DataSink.committed cn' = DataSink.committed cn /\
        exists rows,
          DataSink.pending cn' = DataSink.pending cn ++ rows /\
          (List.length rows <= 1)%nat
    end.
Proof.
  intros jd data c cn c' r Hc Hen E.
  destruct (write_finishes jd data c cn c' r Hc Hen E) as (cn' & -> & H).
  unfold DataSink.DatabaseDataSink.conn_of. simpl.
  repeat split; auto.
Qed.

Lemma database_write_commits_all_or_nothing_witness :
  DataSink.committed
    (DataSink.DatabaseDataSink.conn_of
       (fst (DataSink.DatabaseDataSink.write Samples.show
               Samples.pump_record_no_flow
               {| DataSink.self := DataSink.DatabaseDataSink.__init__;
                  DataSink.env := Samples.empty_world |})))
  = [].
Proof.
  pose proof (database_write_commits_all_or_nothing Samples.show
                Samples.pump_record_no_flow
                {| DataSink.self := DataSink.DatabaseDataSink.__init__;
                   DataSink.env := Samples.empty_world |}
                DataSink.DatabaseDataSink.empty_db _ _
                eq_refl eq_refl eq_refl) as (_ & _ & _ & H).
  exact (proj1 H).
Defined.



(** ** Simulators and sinks together *)

Ltac run_database_write :=
  cbv beta iota zeta delta
    [DataSink.DatabaseDataSink.write DataSink.mbind DataSink.get_self
     DataSink.item DataSink.lift DataSink.DatabaseDataSink.execute
     DataSink.DatabaseDataSink.commit DataSink.DatabaseDataSink.conn
     DataSink.set_impl DataSink.ret DataSink.raise getitem get
     value_getitem String.eqb Ascii.eqb Bool.eqb
     DataSink.is_str forallb DataSink.bindable andb negb
     DataSink.self DataSink.env DataSink.impl DataSink.name
     DataSink.enabled DataSink.committed DataSink.pending].

(** X20. Every record that a simulator generates is accepted by an enabled
    database sink, provided the device type of its configuration is the one
    of its class: the write returns, and commits, after whatever rows were
    open, one row of the common table and one row of the table of that
    device type, leaving the transaction empty. *)
Theorem generated_records_are_stored :
  forall json_dumps cfg now uuid nm cn w,
    let sink cn0 :=
      {| DataSink.self :=
           {| DataSink.name := nm; DataSink.enabled := true;
              DataSink.impl := DataSink.IDatabase cn0 |};
         DataSink.env := w |} in
    let stored data tables :=
      exists rows,
        DataSink.DatabaseDataSink.write json_dumps data (sink cn)
        = (sink {| DataSink.committed :=
                     DataSink.committed cn ++ DataSink.pending cn ++ rows;
                   DataSink.pending := [] |}, Ok tt) /\
        map DataSink.table rows = tables in
    (DeviceSimulator.device_type cfg = "infusion_pump" ->
     forall s d e,
       stored
         (snd (DeviceSimulator.InfusionPumpSimulator.generate_device_data
                 cfg s d now uuid e))
         ["device_data"; "infusion_pump_data"]) /\
    (DeviceSimulator.device_type cfg = "patient_bed" ->
     forall s d e,
       stored
         (snd (DeviceSimulator.PatientBedSimulator.generate_device_data
                 cfg s d now uuid e))
         ["device_data"; "patient_bed_data"]) /\
    (DeviceSimulator.device_type cfg = "vital_signs" ->
     forall s d e,
       stored
         (snd (DeviceSimulator.VitalSignsSimulator.generate_device_data
                 cfg s d now uuid e))
         ["device_data"; "vital_signs_data"]).
Proof.
  intros jd cfg now uuid nm cn w sink stored. subst sink stored.
  cbv beta. split; [|split]; intros Hcfg s d e.
  - rewrite pump_record_shape. cbv zeta. rewrite Hcfg.
    eexists.
    split; [run_database_write; rewrite <- !app_assoc; reflexivity
           | reflexivity].
  - rewrite bed_record_shape. cbv zeta. rewrite Hcfg.
    eexists.
    split; [run_database_write; rewrite <- !app_assoc; reflexivity
           | reflexivity].
  - rewrite vitals_record_shape. cbv zeta. rewrite Hcfg.
    eexists.
    split; [run_database_write; rewrite <- !app_assoc; reflexivity
           | reflexivity].
Qed.

Lemma generated_records_are_stored_witness :
  exists rows,
    DataSink.DatabaseDataSink.write Samples.show
      (snd (DeviceSimulator.InfusionPumpSimulator.generate_device_data
              Samples.pump_cfg DeviceSimulator.InfusionPumpSimulator.init
              Samples.one_pump_draw "2024-01-01T00:00:00"
              "0123456789abcdef" Samples.pump_emit_draws))
      {| DataSink.self :=
           {| DataSink.name := "database"; DataSink.enabled := true;
              DataSink.impl :=
                DataSink.IDatabase DataSink.DatabaseDataSink.empty_db |};
         DataSink.env := Samples.empty_world |}
    = ({| DataSink.self :=
            {| DataSink.name := "database"; DataSink.enabled := true;
               DataSink.impl :=
                 DataSink.IDatabase
                   {| DataSink.committed := [] ++ [] ++ rows;
                      DataSink.pending := [] |} |};
          DataSink.env := Samples.empty_world |}, Ok tt) /\
    map DataSink.table rows = ["device_data"; "infusion_pump_data"].
Proof.
  apply (proj1 (generated_records_are_stored Samples.show Samples.pump_cfg
                  "2024-01-01T00:00:00" "0123456789abcdef" "database"
                  DataSink.DatabaseDataSink.empty_db Samples.empty_world)).
  reflexivity.
Defined.

(** ** The console sink, further *)

Ltac next_get :=
  match goal with
  | |- context [get ?d ?k] =>
      let E := fresh "E" in
      destruct (get d k) eqn:E; cbn beta iota in *
  end.

Ltac run_console_write :=
  cbv beta iota zeta delta
    [DataSink.ConsoleDataSink.write DataSink.ConsoleDataSink.format_type
     DataSink.mbind DataSink.get_self DataSink.item DataSink.lift
     DataSink.print DataSink.ret getitem value_get get_default
     DataSink.self DataSink.env DataSink.impl DataSink.name
     DataSink.enabled DataSink.stdout DataSink.fs negb fst snd].

Ltac console_done :=
  split;
  [ reflexivity
  | eexists; split; [rewrite <- ?app_assoc; reflexivity | simpl; lia] ].

(** X21. An enabled console sink only prints: its write leaves the sink
    object and the file system as they are, whatever the record and
    whether or not it raises.  In "detailed" format it returns for every
    record that has its timestamp, device type, device id and location and
    whose blood_pressure, if present, is a dict, whichever other fields are
    missing, printing the header line and at most one more.  In "simple"
    format it returns exactly when the device type, device id and timestamp
    are present.  In any other format it always returns. *)
Theorem console_write_tolerates_missing_fields :
  forall data c fmt,
    DataSink.impl (DataSink.self c) = DataSink.IConsole fmt ->
    DataSink.enabled (DataSink.self c) = true ->
    let c' := fst (DataSink.ConsoleDataSink.write data c) in
    let r := snd (DataSink.ConsoleDataSink.write data c) in
    DataSink.self c' = DataSink.self c /\
    DataSink.fs (DataSink.env c') = DataSink.fs (DataSink.env c) /\
    (fmt = "detailed" ->
     forall ts dt id loc,
       get data "timestamp" = Some ts -> get data "device_type" = Some dt ->
       get data "device_id" = Some id -> get data "location" = Some loc ->
       (forall v, get data "blood_pressure" = Some v -> exists d, v = VDict d)
       ->
       r = Ok tt /\
       exists lines,
         DataSink.stdout (DataSink.env c')
         = DataSink.stdout (DataSink.env c)
           ++ DataSink.PrintDetailed ts dt id loc :: lines /\
         (List.length lines <= 1)%nat) /\
    (fmt = "simple" ->
     (r = Ok tt <->
      get data "device_type" <> None /\ get data "device_id" <> None /\
      get data "timestamp" <> None)) /\
    (fmt <> "simple" -> fmt <> "detailed" -> r = Ok tt).
Proof.
  intros data c fmt Hi He c' r. subst c' r.
  destruct c as [[nm en im] w]. simpl in Hi, He. subst im en.
  split; [|split; [|split; [|split]]].
  - run_console_write.
    destruct (String.eqb fmt "simple"); [repeat next_get; reflexivity|].
    destruct (String.eqb fmt "detailed");
      [|destruct (String.eqb fmt "json"); reflexivity].
    repeat next_get; try reflexivity;
      repeat match goal with
             | |- context [DataSink.is_str ?v ?s] =>
                 destruct (DataSink.is_str v s)
             end; try reflexivity;
      repeat match goal with
             | |- context [match ?v with VNone => _ | _ => _ end] =>
                 destruct v
             end; reflexivity.
  - run_console_write.
    destruct (String.eqb fmt "simple"); [repeat next_get; reflexivity|].
    destruct (String.eqb fmt "detailed");
      [|destruct (String.eqb fmt "json"); reflexivity].
    repeat next_get; try reflexivity;
      repeat match goal with
             | |- context [DataSink.is_str ?v ?s] =>
                 destruct (DataSink.is_str v s)
             end; try reflexivity;
      repeat match goal with
             | |- context [match ?v with VNone => _ | _ => _ end] =>
                 destruct v
             end; reflexivity.
  - intros -> ts dt id loc Hts Hdt Hid Hloc Hbp. destruct w as [out files].
    run_console_write. cbn [String.eqb Ascii.eqb Bool.eqb].
    rewrite Hts, Hdt, Hid, Hloc. cbn beta iota.
    destruct (DataSink.is_str dt "infusion_pump"); [console_done|].
    destruct (DataSink.is_str dt "patient_bed"); [console_done|].
    destruct (DataSink.is_str dt "vital_signs");
      [|split; [reflexivity | exists []; split; [reflexivity | simpl; lia]]].
    destruct (get data "blood_pressure") as [v|] eqn:Ebp.
    + destruct (Hbp v eq_refl) as [d ->]. cbn. console_done.
    + cbn. console_done.
  - intros ->. run_console_write. cbn [String.eqb Ascii.eqb Bool.eqb].
    repeat next_get; cbn; split; intros H; try discriminate;
      try reflexivity; try (repeat split; discriminate);
      destruct H as (H1 & H2 & H3); congruence.
  - intros N1 N2. run_console_write.
    destruct (String.eqb_spec fmt "simple"); [contradiction|].
    destruct (String.eqb_spec fmt "detailed"); [contradiction|].
    destruct (String.eqb fmt "json"); reflexivity.
Qed.

Lemma console_write_tolerates_missing_fields_witness :
  snd (DataSink.ConsoleDataSink.write Samples.pump_record_no_flow
         {| DataSink.self := DataSink.ConsoleDataSink.__init__ "detailed";
            DataSink.env := Samples.empty_world |}) = Ok tt.
Proof.
  destruct (console_write_tolerates_missing_fields
              Samples.pump_record_no_flow
              {| DataSink.self := DataSink.ConsoleDataSink.__init__ "detailed";
                 DataSink.env := Samples.empty_world |}
              "detailed" eq_refl eq_refl) as (_ & _ & H & _).
  apply (H eq_refl (VStr "2024-01-01T00:00:00") (VStr "infusion_pump")
           (VStr "pump_001") (VStr "Room_101")); try reflexivity.
  intros v Hv. discriminate Hv.
Defined.

(** ** The file sink, further *)

Section Flatten.
Import DataSink DataSink.FileDataSink.

Lemma setitem_keys d k v k0 :
  In k0 (map fst (setitem d k v)) <-> k0 = k \/ In k0 (map fst d).
Proof.
  induction d as [|[k' v'] d IH]; simpl.
  - intuition.
  - destruct (String.eqb_spec k' k) as [-> | N]; simpl.
    + intuition.
    + rewrite IH. intuition.
Qed.

Lemma setitem_NoDup d k v :
  NoDup (map fst d) -> NoDup (map fst (setitem d k v)).
Proof.
  induction d as [|[k' v'] d IH]; simpl; intros H.
  - repeat constructor. intros [].
  - inversion H as [|? ? Hn Hd]; subst.
    destruct (String.eqb_spec k' k) as [-> | N]; simpl.
    + now constructor.
    + constructor; [|now apply IH].
      rewrite setitem_keys. intros [E | Hin]; [congruence | contradiction].
Qed.

Lemma setitem_Forall (P : string * value -> Prop) d k v :
  (forall k1 k2 x, P (k1, x) -> P (k2, x)) ->
  Forall P d -> P (k, v) -> Forall P (setitem d k v).
Proof.
  intros Hk Hd Hv. induction d as [|[k' v'] d IH]; simpl.
  - now repeat constructor.
  - inversion Hd; subst.
    destruct (String.eqb_spec k' k) as [-> | N]; constructor; eauto.
Qed.

Lemma setitem_fresh d k v :
  ~ In k (map fst d) -> setitem d k v = d ++ [(k, v)].
Proof.
  induction d as [|[k' v'] d IH]; simpl; intros H; [reflexivity|].
  destruct (String.eqb_spec k' k) as [-> | N]; [tauto|].
  rewrite IH; tauto.
Qed.

Lemma dict_of_items_NoDup items : NoDup (map fst (dict_of_items items)).
Proof.
  unfold dict_of_items.
  assert (H : forall acc,
             NoDup (map fst acc) ->
             NoDup (map fst
                      (fold_left (fun d kv => setitem d (fst kv) (snd kv))
                         items acc))).
  { induction items as [|[k v] items IH]; intros acc Ha; simpl; [exact Ha|].
    apply IH. now apply setitem_NoDup. }
  apply H. constructor.
Qed.

Lemma dict_of_items_Forall (P : string * value -> Prop) items :
  (forall k1 k2 x, P (k1, x) -> P (k2, x)) ->
  Forall P items -> Forall P (dict_of_items items).
Proof.
  intros Hk. unfold dict_of_items.
  assert (H : forall acc,
             Forall P acc -> Forall P items ->
             Forall P (fold_left (fun d kv => setitem d (fst kv) (snd kv))
                         items acc)).
  { induction items as [|[k v] items IH]; intros acc Ha Hi; simpl;
      [exact Ha|].
    inversion Hi; subst. apply IH; [|assumption].
    now apply setitem_Forall. }
  intros Hi. apply H; [constructor | exact Hi].
Qed.

Lemma dict_of_items_distinct items :
  NoDup (map fst items) -> dict_of_items items = items.
Proof.
  unfold dict_of_items.
  assert (H : forall acc,
             NoDup (map fst (acc ++ items)) ->
             fold_left (fun d kv => setitem d (fst kv) (snd kv)) items acc
             = acc ++ items).
  { induction items as [|[k v] items IH]; intros acc Ha; simpl.
    - now rewrite app_nil_r.
    - rewrite setitem_fresh.
      + rewrite IH; rewrite <- app_assoc; [reflexivity | exact Ha].
      + rewrite map_app in Ha. simpl in Ha.
        apply NoDup_remove_2 in Ha. intros Hin. apply Ha.
        apply in_or_app. now left. }
  intros Hn. apply (H [] Hn).
Qed.

Variable json_dumps : value -> string.

Lemma flatten_scalar v : forall key sep,
  Forall (fun kv => scalar (snd kv) = true) (flatten json_dumps v key sep).
Proof.
  induction v using value_ind'; intros key sep; simpl;
    try (repeat constructor; fail).
  apply dict_of_items_Forall; [now intros|].
  induction d as [|[k v] d IHd]; [constructor|].
  inversion H as [|? ? Hv Hd]; subst. simpl in Hv.
  apply Forall_app. split; [apply Hv | now apply IHd].
Qed.

Lemma flatten_flat d sep :
  Forall (fun kv => scalar (snd kv) = true) d -> NoDup (map fst d) ->
  _flatten_dict json_dumps d "" sep = d.
Proof.
  intros Hs Hn. unfold _flatten_dict. simpl.
  match goal with
  | |- dict_of_items ?items = _ => assert (E : items = d)
  end.
  { clear Hn. induction d as [|[k v] d IH]; [reflexivity|].
    inversion Hs as [|? ? Hv Hd]; subst. rewrite IH by assumption.
    simpl in Hv.
    destruct v; try discriminate; reflexivity. }
  rewrite E. now apply dict_of_items_distinct.
Qed.
End Flatten.

(** X22. Whatever the record, however deeply nested, [_flatten_dict] yields
    a dict whose keys are pairwise distinct and whose values are neither
    dicts nor lists: every column of the tabular row has its own name and
    holds a plain value. *)
Theorem flatten_gives_distinct_plain_columns :
  forall json_dumps d parent_key sep,
    NoDup (map fst (DataSink.FileDataSink._flatten_dict json_dumps
                      d parent_key sep)) /\
    Forall (fun kv => scalar (snd kv) = true)
      (DataSink.FileDataSink._flatten_dict json_dumps d parent_key sep).
Proof.
  intros jd d parent_key sep. split.
  - unfold DataSink.FileDataSink._flatten_dict.
    cbn [DataSink.FileDataSink.flatten]. apply dict_of_items_NoDup.
  - apply flatten_scalar.
Qed.

(** X23. A record that is already flat, with distinct keys and no dict or
    list among its values, comes out of [_flatten_dict] unchanged, keys
    and order included. *)
Theorem flatten_keeps_a_flat_record :
  forall json_dumps d sep,
    Forall (fun kv => scalar (snd kv) = true) d ->
    NoDup (map fst d) ->
    DataSink.FileDataSink._flatten_dict json_dumps d "" sep = d.
Proof.
  intros jd d sep Hs Hn. now apply flatten_flat.
Qed.

Lemma flatten_keeps_a_flat_record_witness :
  DataSink.FileDataSink._flatten_dict Samples.show (Samples.rec 1) "" "_"
  = Samples.rec 1.
Proof.
  apply flatten_keeps_a_flat_record.
  - repeat (apply Forall_cons; [reflexivity|]). apply Forall_nil.
  - repeat (apply NoDup_cons; [simpl; intuition discriminate|]).
    apply NoDup_nil.
Defined.

(** ** The file sink writes to the file of the device type *)

Section FileWrites.
Import DataSink DataSink.FileDataSink.
Variable format_value : value -> string.
Variable json_dumps : value -> string.



Lemma getitem_some (d : dict) k v : get d k = Some v -> getitem d k = Ok v.
Proof. unfold getitem. now intros ->. Qed.

Lemma getitem_none (d : dict) k :
  get d k = None -> getitem d k = Raise (KeyError k).
Proof. unfold getitem. now intros ->. Qed.



End FileWrites.



Section CsvWrites.
Import DataSink DataSink.FileDataSink.
Variable format_value : value -> string.
Variable json_dumps : value -> string.


Lemma write_without_device_type data c :
  enabled (self c) = true -> get data "device_type" = None ->
  write format_value json_dumps data c = (c, Raise (KeyError "device_type")).
Proof.
  intros He Hd. unfold write, mbind, get_self, item, lift.
  now rewrite He, (getitem_none _ _ Hd).
Qed.

Lemma write_other_format data c dt :
  enabled (self c) = true -> get data "device_type" = Some dt ->
  format (self c) <> "json" -> format (self c) <> "csv" ->
  write format_value json_dumps data c = (c, Ok tt).
Proof.
  intros He Hd Hj Hc. unfold write, mbind, get_self, item, lift.
  rewrite He, (getitem_some _ _ _ Hd). cbn [negb].
  destruct (String.eqb_spec (format (self c)) "json"); [contradiction|].
  destruct (String.eqb_spec (format (self c)) "csv"); [contradiction|].
  reflexivity.
Qed.

End CsvWrites.

Section CsvOverlap.
Import DataSink DataSink.FileDataSink.
Variable format_value : value -> string.
Variable json_dumps : value -> string.



End CsvOverlap.



(** X26. An enabled file sink reads [data['device_type']] before it looks
    at its format: a record without a device type raises [KeyError] and
    nothing is written, whatever the format; a record with one is accepted
    and nothing is written when the format is neither "json" nor "csv". *)
Theorem file_write_checks_device_type_first :
  forall format_value json_dumps data c,
    DataSink.enabled (DataSink.self c) = true ->
    (get data "device_type" = None ->
     DataSink.FileDataSink.write format_value json_dumps data c
     = (c, Raise (KeyError "device_type"))) /\
    (forall dt,
        get data "device_type" = Some dt ->
        DataSink.FileDataSink.format (DataSink.self c) <> "json" ->
        DataSink.FileDataSink.format (DataSink.self c) <> "csv" ->
        DataSink.FileDataSink.write format_value json_dumps data c
        = (c, Ok tt)).
Proof.
  intros fv jd data c He. split.
  - now apply write_without_device_type.
  - intros dt. now apply write_other_format.
Qed.

Lemma file_write_checks_device_type_first_witness :
  DataSink.FileDataSink.write Samples.show Samples.show
    [("device_id", VStr "pump_001")]
    {| DataSink.self := DataSink.FileDataSink.__init__ "out" "xml";
       DataSink.env := Samples.empty_world |}
  = ({| DataSink.self := DataSink.FileDataSink.__init__ "out" "xml";
        DataSink.env := Samples.empty_world |},
     Raise (KeyError "device_type")).
Proof.
  apply (file_write_checks_device_type_first Samples.show Samples.show
           [("device_id", VStr "pump_001")]
           {| DataSink.self := DataSink.FileDataSink.__init__ "out" "xml";
              DataSink.env := Samples.empty_world |} eq_refl).
  reflexivity.
Defined.

(** ** Enabling and disabling sinks by name *)

Section Switch.
Import DataSink DataSink.DataSinkManager.
Variable format_value : value -> string.
Variable json_dumps : value -> string.

Lemma set_enabled_absent sinks n b :
  Forall (fun s => name s <> n) sinks ->
  set_enabled sinks n b = sinks /\
  set_enabled_line sinks n b = PrintNotFound n.
Proof.
  induction 1 as [|s sinks Hs _ [IH1 IH2]]; [now split|].
  simpl. destruct (String.eqb_spec (name s) n); [contradiction|].
  now rewrite IH1, IH2.
Qed.

Lemma set_enabled_first a s rest n b :
  Forall (fun s => name s <> n) a -> name s = n ->
  set_enabled (a ++ s :: rest) n b
  = a ++ {| name := name s; enabled := b; impl := impl s |} :: rest /\
  set_enabled_line (a ++ s :: rest) n b
  = if b then PrintEnabled n else PrintDisabled n.
Proof.
  intros Ha Hs. induction Ha as [|x a Hx _ [IH1 IH2]]; simpl.
  - rewrite Hs, String.eqb_refl. now split.
  - destruct (String.eqb_spec (name x) n); [contradiction|].
    now rewrite IH1, IH2.
Qed.


Lemma expected_calls_disabled sinks n data :
  NoDup (map name sinks) ->
  expected_calls (disable_sink sinks n) data
  = filter (fun c : call => negb (String.eqb (fst c) n))
      (expected_calls sinks data).
Proof.
  unfold expected_calls, disable_sink.
  induction sinks as [|s sinks IH]; intros Hn; [reflexivity|].
  simpl in Hn. inversion Hn as [|? ? Hnot Hrest]; subst.
  cbn [set_enabled].
  destruct (String.eqb_spec (name s) n) as [E | N].
  - cbn [filter enabled]. subst n.
    assert (Hskip : forall l : list DataSink,
               ~ In (name s) (map name l) ->
               filter (fun c : call => negb (String.eqb (fst c) (name s)))
                 (map (fun x => (name x, data)) (filter enabled l))
               = map (fun x => (name x, data)) (filter enabled l)).
    { clear. induction l as [|x l IHl]; intros H; [reflexivity|].
      simpl in H. simpl. destruct (enabled x); simpl.
      - destruct (String.eqb_spec (name x) (name s)); [tauto|].
        simpl. rewrite IHl; tauto.
      - apply IHl; tauto. }
    destruct (enabled s); cbn [filter map fst].
    + rewrite String.eqb_refl. cbn [negb]. now rewrite Hskip.
    + now rewrite Hskip.
  - cbn [filter]. destruct (enabled s); cbn [map filter fst].
    + destruct (String.eqb_spec (name s) n); [contradiction|].
      cbn [negb]. now rewrite IH.
    + now apply IH.
Qed.

End Switch.

(** X27. [enable_sink] and [disable_sink] act on the first registered
    sink of the given name and on no other: that sink gets the new flag and
    keeps its name and contents, the sinks before and after it (later sinks
    of the same name included) are untouched, and the line printed names the
    sink.  When no sink has that name the list is unchanged and the
    not-found line is printed. *)
Theorem switch_reaches_the_first_sink_of_a_name :
  forall (a : list DataSink.DataSink) n flag,
    Forall (fun s => DataSink.name s <> n) a ->
    (forall s rest,
        DataSink.name s = n ->
        DataSink.DataSinkManager.set_enabled (a ++ s :: rest) n flag
        = a ++ {| DataSink.name := DataSink.name s;
                  DataSink.enabled := flag;
                  DataSink.impl := DataSink.impl s |} :: rest /\
        DataSink.DataSinkManager.set_enabled_line (a ++ s :: rest) n flag
        = if flag then DataSink.DataSinkManager.PrintEnabled n
          else DataSink.DataSinkManager.PrintDisabled n) /\
    DataSink.DataSinkManager.set_enabled a n flag = a /\
    DataSink.DataSinkManager.set_enabled_line a n flag
    = DataSink.DataSinkManager.PrintNotFound n.
Proof.
  intros a n flag Ha. split.
  - intros s rest Hs. now apply set_enabled_first.
  - now apply set_enabled_absent.
Qed.

Lemma switch_reaches_the_first_sink_of_a_name_witness :
  DataSink.DataSinkManager.disable_sink
    [Samples.sink_B; Samples.file_json; Samples.file_csv] "file"
  = [ Samples.sink_B;
      {| DataSink.name := "file"; DataSink.enabled := false;
         DataSink.impl := DataSink.IFile "out" "json" |};
      Samples.file_csv ].
Proof.
  assert (H : Forall (fun s => DataSink.name s <> "file") [Samples.sink_B]).
  { apply Forall_cons; [discriminate | apply Forall_nil]. }
  destruct (switch_reaches_the_first_sink_of_a_name
              [Samples.sink_B] "file" false H) as [Hfirst _].
  destruct (Hfirst Samples.file_json [Samples.file_csv] eq_refl) as [E _].
  exact E.
Defined.

(** X28. After [disable_sink(n)], [write_to_all] does not call the first
    sink of that name: that sink comes out with its contents untouched and
    its flag down, the environment left by the sinks before it is handed
    as it is to the sinks after it, and those sinks are served as usual.
    When the registered sinks have pairwise distinct names, the calls made
    are exactly those that would have been made before, less the one to
    the sink named [n], in the same order. *)
Theorem disabling_by_name_silences_that_sink_only :
  forall format_value json_dumps pre A post n data w,
    Forall (fun s => DataSink.name s <> n) pre ->
    DataSink.name A = n ->
    let off := {| DataSink.name := DataSink.name A;
                  DataSink.enabled := false;
                  DataSink.impl := DataSink.impl A |} in
    DataSink.DataSinkManager.write_to_all format_value json_dumps
      (DataSink.DataSinkManager.disable_sink (pre ++ A :: post) n) data w
    = (let '(pre', w1, calls1) :=
         DataSink.DataSinkManager.write_to_all format_value json_dumps
           pre data w in
       let '(post', w2, calls2) :=
         DataSink.DataSinkManager.write_to_all format_value json_dumps
           post data w1 in
       (pre' ++ off :: post', w2, calls1 ++ calls2)) /\
    (NoDup (map DataSink.name (pre ++ A :: post)) ->
     snd (DataSink.DataSinkManager.write_to_all format_value json_dumps
            (DataSink.DataSinkManager.disable_sink (pre ++ A :: post) n)
            data w)
     = filter (fun c => negb (String.eqb (fst c) n))
         (DataSink.DataSinkManager.expected_calls (pre ++ A :: post) data)).
Proof.
  intros fv jd pre A post n data w Hpre HA off. split.
  - unfold DataSink.DataSinkManager.disable_sink.
    destruct (set_enabled_first pre A post n false Hpre HA) as [E _].
    rewrite E, write_to_all_app.
    destruct (DataSink.DataSinkManager.write_to_all fv jd pre data w)
      as [[pre' w1] calls1].
    rewrite write_to_all_cons. cbn [DataSink.enabled].
    destruct (DataSink.DataSinkManager.write_to_all fv jd post data w1)
      as [[post' w2] calls2].
    reflexivity.
  - intros Hn. rewrite write_to_all_calls.
    now apply expected_calls_disabled.
Qed.

Lemma disabling_by_name_silences_that_sink_only_witness :
  DataSink.DataSinkManager.write_to_all Samples.show Samples.show
    (DataSink.DataSinkManager.disable_sink
       [Samples.sink_A; Samples.sink_B; Samples.sink_C] "console")
    Samples.pump_record Samples.empty_world
  = ([ Samples.sink_A;
       {| DataSink.name := "console"; DataSink.enabled := false;
          DataSink.impl := DataSink.IConsole "simple" |};
       Samples.sink_C ],
     {| DataSink.stdout :=
          [DataSink.PrintWriteError "A" NotImplementedError];
        DataSink.fs :=
          [ ("out/infusion_pump_data.jsonl",
             [DataSink.TextLine
                (Samples.show (VDict Samples.pump_record))]) ] |},
     [("A", Samples.pump_record); ("file", Samples.pump_record)]).
Proof.
  assert (H : Forall (fun s => DataSink.name s <> "console")
                [Samples.sink_A]).
  { apply Forall_cons; [discriminate | apply Forall_nil]. }
  destruct (disabling_by_name_silences_that_sink_only Samples.show
              Samples.show [Samples.sink_A] Samples.sink_B [Samples.sink_C]
              "console" Samples.pump_record Samples.empty_world H eq_refl)
    as [E _].
  exact E.
Defined.

(** ** The counters of the simulation runner *)

Section Counters.
Import DeviceSimulator DataSink SimulationRunner.
Variable format_value : value -> string.
Variable json_dumps : value -> string.

Local Abbreviation data_callback := (data_callback format_value json_dumps).
Local Abbreviation deliver := (deliver format_value json_dumps).

Lemma set_count_sum d k : forall n m,
  get_count d k = Some n ->
  sum_counts (set_count d k m) = (sum_counts d - n + m)%Z.
Proof.
  unfold sum_counts.
  induction d as [|[k' n'] d IH]; intros n m H; [discriminate|].
  simpl in *. destruct (String.eqb k' k).
  - inversion H; subst. simpl. lia.
  - simpl. rewrite (IH n m H). lia.
Qed.

Lemma set_count_keys d k : forall n m,
  get_count d k = Some n -> map fst (set_count d k m) = map fst d.
Proof.
  induction d as [|[k' n'] d IH]; intros n m H; [discriminate|].
  simpl in *. destruct (String.eqb k' k); [reflexivity|].
  simpl. now rewrite (IH n m H).
Qed.

Lemma get_count_keys d d' :
  map fst d = map fst d' ->
  forall k, (get_count d k = None <-> get_count d' k = None).
Proof.
  revert d'. induction d as [|[k1 n1] d IH]; intros [|[k2 n2] d'] H k;
    try discriminate; [tauto|].
  simpl in *. inversion H; subst.
  destruct (String.eqb k2 k); [split; discriminate|]. now apply IH.
Qed.

Lemma increment_sum d v d' :
  increment format_value d v = Ok d' ->
  sum_counts d' = (sum_counts d + 1)%Z /\ map fst d' = map fst d.
Proof.
  unfold increment. destruct v; try discriminate.
  destruct (get_count d s) as [n|] eqn:E; [|discriminate].
  intros H. inversion H; subst. split.
  - rewrite (set_count_sum d s n _ E). lia.
  - exact (set_count_keys d s n _ E).
Qed.

Lemma increment_counted d r :
  counted d r = true ->
  exists v d', get r "device_type" = Some v /\
               increment format_value d v = Ok d'.
Proof.
  unfold counted, increment.
  destruct (get r "device_type") as [[| | | |k| |]|]; try discriminate.
  destruct (get_count d k) as [n|] eqn:E; [|discriminate].
  intros _. exists (VStr k), (set_count d k (n + 1)%Z).
  split; [reflexivity|]. now rewrite E.
Qed.

Lemma counted_keys d d' r :
  map fst d = map fst d' -> counted d r = counted d' r.
Proof.
  intros H. unfold counted.
  destruct (get r "device_type") as [[| | | |k| |]|]; try reflexivity.
  pose proof (get_count_keys d d' H k) as [H1 H2].
  destruct (get_count d k), (get_count d' k); try reflexivity.
  - now discriminate H2.
  - now discriminate H1.
Qed.

(** What one call of [data_callback] does to the counters. *)
Lemma data_callback_counters r self :
  let self' := fst (data_callback r self) in
  total_messages (stats self') = (total_messages (stats self) + 1)%Z /\
  map fst (messages_per_device_type (stats self'))
  = map fst (messages_per_device_type (stats self)) /\
  (sum_counts (messages_per_device_type (stats self'))
   = sum_counts (messages_per_device_type (stats self))
   \/ sum_counts (messages_per_device_type (stats self'))
      = (sum_counts (messages_per_device_type (stats self)) + 1)%Z) /\
  (counted (messages_per_device_type (stats self)) r = true ->
   snd (data_callback r self) = None /\
   sum_counts (messages_per_device_type (stats self'))
   = (sum_counts (messages_per_device_type (stats self)) + 1)%Z).
Proof.
  cbn zeta. unfold SimulationRunner.data_callback.
  cbn [stats messages_per_device_type total_messages sink_manager io].
  unfold getitem.
  destruct (get r "device_type") as [v|] eqn:Ev.
  - destruct (increment format_value
                (messages_per_device_type (stats self)) v) as [d'|e] eqn:Ei.
    + destruct (increment_sum _ _ _ Ei) as [Hs Hk].
      destruct (DataSinkManager.write_to_all format_value json_dumps
                  (sink_manager self) r (io self)) as [[sinks w] calls].
      cbn. split; [reflexivity|]. split; [exact Hk|].
      split; [now right|]. intros _. now split.
    + cbn. split; [reflexivity|]. split; [reflexivity|].
      split; [now left|].
      intros Hc. destruct (increment_counted _ _ Hc) as (v' & d' & E1 & E2).
      congruence.
  - cbn. split; [reflexivity|]. split; [reflexivity|].
    split; [now left|].
    intros Hc. destruct (increment_counted _ _ Hc) as (v' & d' & E1 & E2).
    congruence.
Qed.

Lemma deliver_counters rs : forall self,
  let self' := deliver rs self in
  total_messages (stats self')
  = (total_messages (stats self) + Z.of_nat (List.length rs))%Z /\
  map fst (messages_per_device_type (stats self'))
  = map fst (messages_per_device_type (stats self)) /\
  (sum_counts (messages_per_device_type (stats self))
   <= sum_counts (messages_per_device_type (stats self'))
   <= sum_counts (messages_per_device_type (stats self))
      + Z.of_nat (List.length rs))%Z /\
  (forallb (counted (messages_per_device_type (stats self))) rs = true ->
   sum_counts (messages_per_device_type (stats self'))
   = (sum_counts (messages_per_device_type (stats self))
      + Z.of_nat (List.length rs))%Z).
Proof.
  induction rs as [|r rs IH]; intros self.
  - cbn. repeat split; lia.
  - cbn zeta. cbn [SimulationRunner.deliver].
    destruct (data_callback_counters r self) as (Ht & Hk & Hs & Hc).
    cbn zeta in Ht, Hk, Hs, Hc.
    destruct (IH (fst (data_callback r self))) as (It & Ik & Is & Ic).
    cbn zeta in It, Ik, Is, Ic.
    rewrite It, Ik, Ht, Hk. cbn [List.length].
    repeat split; try lia.
    cbn [forallb]. intros Hall. apply andb_true_iff in Hall as [H1 H2].
    destruct (Hc H1) as [_ Hc1].
    rewrite Ic; [lia|].
    rewrite <- H2. clear -Hk. induction rs as [|x rs IHrs]; [reflexivity|].
    cbn [forallb]. rewrite IHrs. f_equal. now apply counted_keys.
Qed.

End Counters.

(** X29. Over any run of records handed to [data_callback],
    [total_messages] grows by the number of records, whether or not the
    callback raises, and the per-device-type counters together grow by at
    most that; when every record carries a device type that has a counter,
    the per-type counters grow by exactly as much as the total. *)
Theorem message_counters_add_up :
  forall format_value json_dumps rs self,
    let self' := SimulationRunner.deliver format_value json_dumps rs self in
    let total s :=
      SimulationRunner.total_messages (SimulationRunner.stats s) in
    let per_type s :=
      SimulationRunner.sum_counts
        (SimulationRunner.messages_per_device_type
           (SimulationRunner.stats s)) in
    total self' = (total self + Z.of_nat (List.length rs))%Z /\
    (per_type self <= per_type self'
     <= per_type self + Z.of_nat (List.length rs))%Z /\
    (forallb (SimulationRunner.counted
                (SimulationRunner.messages_per_device_type
                   (SimulationRunner.stats self))) rs = true ->
     (per_type self' - per_type self = total self' - total self)%Z).
Proof.
  intros fv jd rs self self' total per_type.
  destruct (deliver_counters fv jd rs self) as (Ht & _ & Hs & Hc).
  cbn zeta in Ht, Hs, Hc. subst self' total per_type. cbn beta.
  repeat split; try lia.
  intros Hall. specialize (Hc Hall). lia.
Qed.


Lemma message_counters_add_up_witness :
  (SimulationRunner.sum_counts
     (SimulationRunner.messages_per_device_type
        (SimulationRunner.stats
           (SimulationRunner.deliver Samples.show Samples.show
              [Samples.pump_record; Samples.vitals_record]
              Samples.fresh_runner)))
   - SimulationRunner.sum_counts
       (SimulationRunner.messages_per_device_type
          (SimulationRunner.stats Samples.fresh_runner))
   = SimulationRunner.total_messages
       (SimulationRunner.stats
          (SimulationRunner.deliver Samples.show Samples.show
             [Samples.pump_record; Samples.vitals_record]
             Samples.fresh_runner))
     - SimulationRunner.total_messages
         (SimulationRunner.stats Samples.fresh_runner))%Z.
Proof.
  destruct (message_counters_add_up Samples.show Samples.show
              [Samples.pump_record; Samples.vitals_record]
              Samples.fresh_runner) as (_ & _ & H).
  apply H. reflexivity.
Defined.

(** ** From a simulator's tick to the sinks *)

Section DataFlow.
Import DeviceSimulator DataSink SimulationRunner.
Variable format_value : value -> string.
Variable json_dumps : value -> string.

Lemma device_generate_device_type cfg dev i :
  get (snd (device_generate cfg dev i)) "device_type"
  = Some (VStr (device_type cfg)).
Proof. destruct dev; reflexivity. Qed.

Lemma data_callback_counted r self k n :
  get r "device_type" = Some (VStr k) ->
  get_count (messages_per_device_type (stats self)) k = Some n ->
  data_callback format_value json_dumps r self
  = let '(sinks, w, _) :=
      DataSinkManager.write_to_all format_value json_dumps
        (sink_manager self) r (io self) in
    ({| stats :=
          {| total_messages := (total_messages (stats self) + 1)%Z;
             messages_per_device_type :=
               set_count (messages_per_device_type (stats self)) k
                 (n + 1)%Z |};
        sink_manager := sinks; io := w |}, None).
Proof.
  intros Hr Hk. unfold data_callback, getitem, increment.
  cbn [stats messages_per_device_type total_messages sink_manager io].
  rewrite Hr, Hk. reflexivity.
Qed.

End DataFlow.

(** X30. One turn of the loop of an enabled simulator that
    [setup_data_flow] has connected, and whose device type has a counter:
    no callback error is printed, the generated record is the last of the
    simulator's history, the total and the counter of the device type are
    each one higher, and the sinks and their environment are those that
    [write_to_all] leaves for that record. *)
Theorem a_tick_reaches_the_sinks :
  forall format_value json_dumps
         (sim : DeviceSimulator.Simulator SimulationRunner.SimulationRunner)
         i self n,
    let cfg := DeviceSimulator.config (DeviceSimulator.base sim) in
    let counts :=
      SimulationRunner.messages_per_device_type
        (SimulationRunner.stats self) in
    let record :=
      snd (DeviceSimulator.device_generate cfg (DeviceSimulator.dev sim) i) in
    DeviceSimulator.cfg_enabled cfg = true ->
    DeviceSimulator.callbacks (DeviceSimulator.base sim)
    = [SimulationRunner.data_callback format_value json_dumps] ->
    SimulationRunner.get_count counts (DeviceSimulator.device_type cfg)
    = Some n ->
    let '(sim', self', out) := DeviceSimulator._run_turn sim i self in
    out = [] /\
    last (DeviceSimulator.data_history (DeviceSimulator.base sim')) []
    = record /\
    SimulationRunner.stats self'
    = {| SimulationRunner.total_messages :=
           (SimulationRunner.total_messages (SimulationRunner.stats self)
            + 1)%Z;
         SimulationRunner.messages_per_device_type :=
           SimulationRunner.set_count counts
             (DeviceSimulator.device_type cfg) (n + 1)%Z |} /\
    (SimulationRunner.sink_manager self', SimulationRunner.io self')
    = fst (DataSink.DataSinkManager.write_to_all format_value json_dumps
             (SimulationRunner.sink_manager self) record
             (SimulationRunner.io self)).
Proof.
  intros fv jd sim i self n cfg counts record Hen Hcb Hn.
  unfold DeviceSimulator._run_turn. fold cfg. rewrite Hen.
  pose proof (device_generate_device_type cfg (DeviceSimulator.dev sim) i)
    as Hdt.
  fold record in Hdt.
  destruct (DeviceSimulator.device_generate cfg (DeviceSimulator.dev sim) i)
    as [dev' data] eqn:Eg.
  cbn [snd] in record. subst record.
  unfold DeviceSimulator.send_data. rewrite Hcb.
  cbn [DeviceSimulator.notify].
  rewrite (data_callback_counted fv jd data self _ n Hdt Hn).
  destruct (DataSink.DataSinkManager.write_to_all fv jd
              (SimulationRunner.sink_manager self) data
              (SimulationRunner.io self)) as [[sinks w] calls].
  cbn [DeviceSimulator.base DeviceSimulator.data_history
       SimulationRunner.stats SimulationRunner.sink_manager
       SimulationRunner.io fst app].
  repeat split.
  destruct (Nat.ltb 100 _) eqn:E.
  - apply Nat.ltb_lt in E. rewrite length_app in E. cbn [List.length] in E.
    unfold DeviceSimulator.pop0.
    destruct (DeviceSimulator.data_history (DeviceSimulator.base sim))
      as [|h [|h' t']]; cbn [List.length] in E; try lia.
    change (tl ((h :: h' :: t') ++ [data])) with ((h' :: t') ++ [data]).
    apply last_last.
  - apply last_last.
Qed.


Lemma a_tick_reaches_the_sinks_witness :
  let '(sim', self', out) :=
    DeviceSimulator._run_turn Samples.wired_pump Samples.inputs
      Samples.fresh_runner in
  out = [] /\
  last (DeviceSimulator.data_history (DeviceSimulator.base sim')) []
  = snd (DeviceSimulator.device_generate Samples.pump_cfg
           (DeviceSimulator.dev Samples.wired_pump) Samples.inputs) /\
  SimulationRunner.stats self'
  = {| SimulationRunner.total_messages := 1;
       SimulationRunner.messages_per_device_type :=
         [("infusion_pump", 1%Z); ("vital_signs", 0%Z)] |} /\
  (SimulationRunner.sink_manager self', SimulationRunner.io self')
  = fst (DataSink.DataSinkManager.write_to_all Samples.show Samples.show
           [Samples.sink_B; Samples.sink_C]
           (snd (DeviceSimulator.device_generate Samples.pump_cfg
                   (DeviceSimulator.dev Samples.wired_pump) Samples.inputs))
           Samples.empty_world).
Proof.
  apply (a_tick_reaches_the_sinks Samples.show Samples.show
           Samples.wired_pump Samples.inputs Samples.fresh_runner 0%Z
           eq_refl eq_refl eq_refl).
Defined.
